(** * student_api_server: intake gatekeeper and pipeline executor

    A shallow embedding of [app/models.py], [app/schemas.py],
    [app/main.py] and [workers/tasks.py].

    - The relational store is a list of rows in rowid order, with the
      [unique=True] constraint on [nonce] checked at insert time.
    - The Celery broker is the log of task ids handed to [send_task].
    - External collaborators (the GitHub API, the git subprocess, the
      publication host, the evaluator endpoint, the file system, the
      process environment) are fields of a [World] record: the code is
      verified for every behaviour of those collaborators.
    - Time is a counter of whole seconds advanced by [time.sleep] and by
      the duration of each HTTP exchange.
    - tenacity's [retry], [stop_after_delay] and [wait_exponential] and
      Python's string methods are written out as the libraries document
      them. *)

From Stdlib Require Import String Ascii List Arith ZArith Bool Lia.
From Stdlib Require Import DecimalString.
Import ListNotations.
Open Scope string_scope.

(* ------------------------------------------------------------------ *)
(** ** Python values used by the code *)

Module Py.

(** A [str] is held as the bytes of its UTF-8 encoding. *)

(** [if s:] on an [Optional[str]]: [None] and the empty string are falsy. *)
Definition truthy (o : option string) : bool :=
  match o with
  | Some s => negb (s =? "")
  | None => false
  end.

Definition startswith (s p : string) : bool := String.prefix p s.

(** [s.replace(old, new)] for a non-empty [old]: leftmost
    non-overlapping occurrences.  [skip] counts the characters of a
    matched occurrence still to be dropped. *)
Fixpoint replace_from (old new : string) (skip : nat) (s : string) : string :=
  match s with
  | EmptyString => EmptyString
  | String c rest =>
      match skip with
      | S k => replace_from old new k rest
      | O =>
          if String.prefix old s
          then new ++ replace_from old new (String.length old - 1) rest
          else String c (replace_from old new 0 rest)
      end
  end.

Definition replace (s old new : string) : string := replace_from old new 0 s.

(** [s.split(sep)] for a non-empty [sep]; [piece] is the part read
    since the last separator. *)
Fixpoint split_from (sep : string) (skip : nat) (piece : string) (s : string)
  : list string :=
  match s with
  | EmptyString => [piece]
  | String c rest =>
      match skip with
      | S k => split_from sep k piece rest
      | O =>
          if String.prefix sep s
          then piece :: split_from sep (String.length sep - 1) "" rest
          else split_from sep 0 (piece ++ String c "") rest
      end
  end.

Definition split (s sep : string) : list string := split_from sep 0 "" s.

(** [xs[-1]] on the result of a split (never empty). *)
Definition last_piece (xs : list string) : string := List.last xs "".

(** [str.strip()] removes the characters of [str.isspace()]: U+0009
    to U+000D and U+001C to U+0020, one byte each, and U+0085, U+00A0,
    U+1680, U+2000 to U+200A, U+2028, U+2029, U+202F, U+205F and
    U+3000, two or three bytes each. *)
Definition is_space (c : ascii) : bool :=
  let n := nat_of_ascii c in
  (((9 <=? n) && (n <=? 13)) || ((28 <=? n) && (n <=? 32)))%nat.

Definition utf8 (bytes : list N) : string :=
  fold_right (fun b s => String (ascii_of_N b) s) EmptyString bytes.

Definition wide_spaces : list string :=
  map utf8
    [[194; 133]; [194; 160]; [225; 154; 128];
     [226; 128; 128]; [226; 128; 129]; [226; 128; 130]; [226; 128; 131];
     [226; 128; 132]; [226; 128; 133]; [226; 128; 134]; [226; 128; 135];
     [226; 128; 136]; [226; 128; 137]; [226; 128; 138];
     [226; 128; 168]; [226; 128; 169]; [226; 128; 175];
     [226; 129; 159]; [227; 128; 128]]%N.

(** The number of bytes of the white-space character [s] begins with,
    0 when it begins with none. *)
Definition space_width (s : string) : nat :=
  match s with
  | EmptyString => 0
  | String c _ =>
      if is_space c then 1
      else
        match find (fun e => String.prefix e s) wide_spaces with
        | Some e => String.length e
        | None => 0
        end
  end.

(** [skip] counts the bytes of a white-space character still to be
    dropped. *)
Fixpoint lstrip_from (skip : nat) (s : string) : string :=
  match s with
  | EmptyString => EmptyString
  | String _ rest =>
      match skip with
      | S k => lstrip_from k rest
      | O =>
          match space_width s with
          | O => s
          | S k => lstrip_from k rest
          end
      end
  end.

Definition lstrip (s : string) : string := lstrip_from 0 s.

(** [s], after its first [skip] bytes, is made of white space only. *)
Fixpoint spaces_from (skip : nat) (s : string) : bool :=
  match s with
  | EmptyString => true
  | String _ rest =>
      match skip with
      | S k => spaces_from k rest
      | O =>
          match space_width s with
          | O => false
          | S k => spaces_from k rest
          end
      end
  end.

Fixpoint rstrip (s : string) : string :=
  match s with
  | EmptyString => EmptyString
  | String c rest =>
      if spaces_from 0 s then EmptyString else String c (rstrip rest)
  end.

Definition strip (s : string) : string := rstrip (lstrip s).

(** [c in s] for a character [c]. *)
Fixpoint has (c : ascii) (s : string) : bool :=
  match s with
  | EmptyString => false
  | String x rest => Ascii.eqb x c || has c rest
  end.

(** [str(n)] for an [int]. *)
Definition str_int (z : Z) : string := NilZero.string_of_int (Z.to_int z).

End Py.

(* ------------------------------------------------------------------ *)
(** ** app/models.py and app/schemas.py *)

(** The [tasks] table.  [status] is free text in the source. *)
Record Task : Type := mkTask {
  id : nat;
  nonce : string;
  status : string;
  email : string;
  task_name : string;
  round : Z;
  received_at : nat;
  completed_at : option nat;
  repo_url : option string;
  commit_sha : option string;
  pages_url : option string;
  evaluation_url : option string;
  brief : option string;
  error_message : option string
}.

Record TaskRequest : Type := mkTaskRequest {
  rq_email : string;
  rq_secret : string;
  rq_task : string;
  rq_round : Z;
  rq_nonce : string;
  rq_brief : option string;
  rq_checks : option (list string);
  rq_evaluation_url : option string;
  rq_attachments : option (list string)
}.

Record EvaluationPayload : Type := mkEvaluationPayload {
  ep_email : string;
  ep_task : string;
  ep_round : Z;
  ep_nonce : string;
  ep_repo_url : string;
  ep_commit_sha : string;
  ep_pages_url : option string
}.

Record AcknowledgementResponse : Type := mkAck {
  ack_status : string;
  ack_task : string;
  ack_nonce : string
}.

(** Field updates of a loaded row ([task.status = ...] and the like). *)
Definition set_status (v : string) (t : Task) : Task :=
  mkTask (id t) (nonce t) v (email t) (task_name t) (round t) (received_at t)
    (completed_at t) (repo_url t) (commit_sha t) (pages_url t)
    (evaluation_url t) (brief t) (error_message t).

Definition set_completed_at (v : nat) (t : Task) : Task :=
  mkTask (id t) (nonce t) (status t) (email t) (task_name t) (round t)
    (received_at t) (Some v) (repo_url t) (commit_sha t) (pages_url t)
    (evaluation_url t) (brief t) (error_message t).

Definition set_repo_url (v : string) (t : Task) : Task :=
  mkTask (id t) (nonce t) (status t) (email t) (task_name t) (round t)
    (received_at t) (completed_at t) (Some v) (commit_sha t) (pages_url t)
    (evaluation_url t) (brief t) (error_message t).

Definition set_commit_sha (v : string) (t : Task) : Task :=
  mkTask (id t) (nonce t) (status t) (email t) (task_name t) (round t)
    (received_at t) (completed_at t) (repo_url t) (Some v) (pages_url t)
    (evaluation_url t) (brief t) (error_message t).

Definition set_pages_url (v : string) (t : Task) : Task :=
  mkTask (id t) (nonce t) (status t) (email t) (task_name t) (round t)
    (received_at t) (completed_at t) (repo_url t) (commit_sha t) (Some v)
    (evaluation_url t) (brief t) (error_message t).

Definition set_error_message (v : string) (t : Task) : Task :=
  mkTask (id t) (nonce t) (status t) (email t) (task_name t) (round t)
    (received_at t) (completed_at t) (repo_url t) (commit_sha t) (pages_url t)
    (evaluation_url t) (brief t) (Some v).

(* ------------------------------------------------------------------ *)
(** ** The Task Store *)

Module Store.

(** Rows in rowid order. *)
Definition t := list Task.

Definition nonces (db : t) : list string := map nonce db.
Definition ids (db : t) : list nat := map id db.

(** [db.query(Task).filter(p).first()] *)
Definition first (p : Task -> bool) (db : t) : option Task := find p db.

(** The integer primary key handed out by the engine: one more than
    the largest rowid in the table. *)
Definition next_id (db : t) : nat := S (list_max (ids db)).

Inductive commit_result : Type :=
| Inserted (db' : t) (row : Task)
| IntegrityError.

(** [db.add(new_task); db.commit()] followed by [db.refresh(new_task)]:
    the unique index on [nonce] rejects a second row with the same
    nonce; otherwise the row is appended with its key and its
    [server_default] timestamp. *)
Definition insert (now : nat) (new_task : Task) (db : t) : commit_result :=
  if existsb (fun r => nonce r =? nonce new_task) db
  then IntegrityError
  else
    let row :=
      mkTask (next_id db) (nonce new_task) (status new_task) (email new_task)
        (task_name new_task) (round new_task) now (completed_at new_task)
        (repo_url new_task) (commit_sha new_task) (pages_url new_task)
        (evaluation_url new_task) (brief new_task) (error_message new_task) in
    Inserted (db ++ [row])%list row.

(** [db.commit()] of a loaded, modified row: an UPDATE by primary key. *)
Definition update (row : Task) (db : t) : t :=
  map (fun r => if id r =? id row then row else r)%nat db.

End Store.

(* ------------------------------------------------------------------ *)
(** ** app/main.py: the intake endpoint *)

Module Intake.

(** What a request handler hands back: the response model, or an
    [HTTPException] with its status code and detail. *)
Inductive response : Type :=
| Ack (a : AcknowledgementResponse)
| HTTPException (status_code : nat) (detail : string).

Section WithSecret.

(** [os.getenv("EXPECTED_SECRET")]: unset in the environment is [None]. *)
Variable EXPECTED_SECRET : option string.

(** [request.secret != EXPECTED_SECRET] *)
Definition secret_mismatch (request : TaskRequest) : bool :=
  match EXPECTED_SECRET with
  | Some s => negb (rq_secret request =? s)
  | None => true
  end.

Definition is_complete_for (request : TaskRequest) (r : Task) : bool :=
  (nonce r =? rq_nonce request) && (round r =? rq_round request)%Z
  && (status r =? "COMPLETE").

Definition is_row_for (request : TaskRequest) (r : Task) : bool :=
  (nonce r =? rq_nonce request) && (round r =? rq_round request)%Z.

Definition ack_of (r : Task) : response :=
  Ack (mkAck (status r) (task_name r) (nonce r)).

(** The [Task(...)] built by the handler: only five columns are
    given; every other column is left at its default. *)
Definition new_task_of (request : TaskRequest) : Task :=
  mkTask 0 (rq_nonce request) "RECEIVED" (rq_email request)
    (rq_task request) (rq_round request) 0 None None None None None None
    None.

(** [api_endpoint(request, db)], run without interleaving.  The
    state is the store and the log of [send_task] calls; [now] is
    the store's clock at commit time.  The store and the broker are
    taken to be up: the only way [db.commit()] fails is the unique
    index on [nonce].  The round is taken to be one the store's INTEGER
    can hold; the driver refuses to bind any other to the first
    query. *)
Definition api_endpoint (now : nat) (request : TaskRequest)
    (db : Store.t) (sent : list nat) : response * Store.t * list nat :=
  if secret_mismatch request then
    (HTTPException 403 "Invalid secret.", db, sent)
  else
    match Store.first (is_complete_for request) db with
    | Some existing => (ack_of existing, db, sent)
    | None =>
        match Store.insert now (new_task_of request) db with
        | Store.IntegrityError =>
            match Store.first (is_row_for request) db with
            | Some existing_task => (ack_of existing_task, db, sent)
            | None =>
                (HTTPException 409 "A task with this nonce already exists.",
                 db, sent)
            end
        | Store.Inserted db' new_task =>
            (Ack (mkAck "RECEIVED" (rq_task request) (rq_nonce request)),
             db', (sent ++ [id new_task])%list)
        end
    end.

(** *** The handler as a sequence of atomic store actions

    Requests are served concurrently, each in its own session; what
    one handler does between two accesses to the store is invisible
    to the others.  A handler in flight is at one of these points. *)
Inductive handler : Type :=
| AtQuery (request : TaskRequest)
| AtCommit (request : TaskRequest)
| AtReread (request : TaskRequest)
| AtDispatch (request : TaskRequest) (new_task : Task)
| Returned (r : response).

Definition handler_step (now : nat) (h : handler) (db : Store.t)
    (sent : list nat) : handler * Store.t * list nat :=
  match h with
  | AtQuery request =>
      if secret_mismatch request then
        (Returned (HTTPException 403 "Invalid secret."), db, sent)
      else
        match Store.first (is_complete_for request) db with
        | Some existing => (Returned (ack_of existing), db, sent)
        | None => (AtCommit request, db, sent)
        end
  | AtCommit request =>
      match Store.insert now (new_task_of request) db with
      | Store.IntegrityError => (AtReread request, db, sent)
      | Store.Inserted db' new_task => (AtDispatch request new_task, db', sent)
      end
  | AtReread request =>
      match Store.first (is_row_for request) db with
      | Some existing_task => (Returned (ack_of existing_task), db, sent)
      | None =>
          (Returned
             (HTTPException 409 "A task with this nonce already exists."),
           db, sent)
      end
  | AtDispatch request new_task =>
      (Returned (Ack (mkAck "RECEIVED" (rq_task request) (rq_nonce request))),
       db, (sent ++ [id new_task])%list)
  | Returned r => (Returned r, db, sent)
  end.

(** The whole service: the store, the broker log and the handlers in
    flight. *)
Record system : Type := mkSystem {
  sys_db : Store.t;
  sys_sent : list nat;
  sys_handlers : list handler
}.

Definition initial : system := mkSystem [] [] [].

(** A write of the Pipeline Executor to a row: an UPDATE by primary
    key that leaves [id] and [nonce] as they are. *)
Definition executor_write (row : Task) (db : Store.t) : Prop :=
  exists old, In old db /\ id old = id row /\ nonce old = nonce row.

Fixpoint set_nth (i : nat) (h : handler) (hs : list handler) : list handler :=
  match hs, i with
  | [], _ => []
  | _ :: tl, O => h :: tl
  | x :: tl, S j => x :: set_nth j h tl
  end.

Inductive step : system -> system -> Prop :=
| step_arrive s request :
    step s (mkSystem (sys_db s) (sys_sent s)
              (sys_handlers s ++ [AtQuery request])%list)
| step_handler s i h now h' db' sent' :
    nth_error (sys_handlers s) i = Some h ->
    handler_step now h (sys_db s) (sys_sent s) = (h', db', sent') ->
    step s (mkSystem db' sent' (set_nth i h' (sys_handlers s)))
| step_executor s row :
    executor_write row (sys_db s) ->
    step s (mkSystem (Store.update row (sys_db s)) (sys_sent s)
              (sys_handlers s)).

Inductive reachable : system -> Prop :=
| reach_initial : reachable initial
| reach_step s s' : reachable s -> step s s' -> reachable s'.

(** Schedules: one interleaving of arrivals, handler steps and
    executor writes, played on a system. *)
Inductive event : Type :=
| Arrive (request : TaskRequest)
| Handle (i now : nat)
| Write (row : Task).

Definition writable (row : Task) (db : Store.t) : bool :=
  existsb (fun old => (id old =? id row)%nat && (nonce old =? nonce row)) db.

Definition play1 (s : system) (e : event) : system :=
  match e with
  | Arrive request =>
      mkSystem (sys_db s) (sys_sent s) (sys_handlers s ++ [AtQuery request])%list
  | Handle i now =>
      match nth_error (sys_handlers s) i with
      | Some h =>
          let '(h', db', sent') := handler_step now h (sys_db s) (sys_sent s) in
          mkSystem db' sent' (set_nth i h' (sys_handlers s))
      | None => s
      end
  | Write row =>
      if writable row (sys_db s)
      then mkSystem (Store.update row (sys_db s)) (sys_sent s) (sys_handlers s)
      else s
  end.

Definition play (es : list event) (s : system) : system := fold_left play1 es s.

(** Number of pipeline runs scheduled for the rows carrying nonce [n]. *)
Definition runs_scheduled (n : string) (s : system) : nat :=
  List.length
    (filter (fun i => existsb (fun r => (id r =? i)%nat && (nonce r =? n))
                        (sys_db s))
       (sys_sent s)).

Definition rows_with_nonce (n : string) (db : Store.t) : nat :=
  List.length (filter (fun r => nonce r =? n) db).

End WithSecret.

End Intake.

(* ------------------------------------------------------------------ *)
(** ** workers/tasks.py: the Pipeline Executor *)

Module Worker.

(** *** Effects

    A run threads the clock, the loaded [task] object, the rows it
    has committed and the external calls it has made, each with the
    time it was made.  An exception leaves that state as it is at the
    point of the [raise]. *)

Inductive outcome (A : Type) : Type :=
| Ok (a : A)
| Raise (msg : string)
| OutOfFuel.
Arguments Ok {A} a.
Arguments Raise {A} msg.
Arguments OutOfFuel {A}.

Inductive call : Type :=
| FsWrite
| GithubCreateRepo (name description : string)
| GitPush (local_path auth_repo_url : string)
| GithubPages (repo_full_name : string)
| HttpGet (url : string)
| HttpPost (url : string) (payload : EvaluationPayload)
| Sleep (seconds : nat).

Record pstate : Type := mkPState {
  clock : nat;
  task : Task;
  commits : list Task;
  calls : list (nat * call)
}.

Definition M (A : Type) : Type := pstate -> outcome A * pstate.

Definition ret {A} (a : A) : M A := fun s => (Ok a, s).

Definition bind {A B} (c : M A) (k : A -> M B) : M B :=
  fun s =>
    match c s with
    | (Ok a, s') => k a s'
    | (Raise msg, s') => (Raise msg, s')
    | (OutOfFuel, s') => (OutOfFuel, s')
    end.

Definition raise {A} (msg : string) : M A := fun s => (Raise msg, s).
Definition out_of_fuel {A} : M A := fun s => (OutOfFuel, s).

(** [try: body except Exception as e: handler(str(e))] *)
Definition try_except {A} (body : M A) (handler : string -> M A) : M A :=
  fun s =>
    match body s with
    | (Raise msg, s') => handler msg s'
    | r => r
    end.

Declare Scope exec_scope.
Delimit Scope exec_scope with exec.
Notation "x <- c1 ;; c2" := (bind c1 (fun x => c2))
  (at level 61, c1 at next level, right associativity) : exec_scope.
Notation "c1 ;; c2" := (bind c1 (fun _ => c2))
  (at level 61, right associativity) : exec_scope.
Local Open Scope exec_scope.

Definition get_task : M Task := fun s => (Ok (task s), s).
Definition time_time : M nat := fun s => (Ok (clock s), s).

Definition modify_task (f : Task -> Task) : M unit :=
  fun s => (Ok tt, mkPState (clock s) (f (task s)) (commits s) (calls s)).

(** [db.commit()]: the loaded row is written to the store. *)
Definition db_commit : M unit :=
  fun s =>
    (Ok tt, mkPState (clock s) (task s) (commits s ++ [task s])%list (calls s)).

(** An external call is logged with the time it is made. *)
Definition record (c : call) : M unit :=
  fun s =>
    (Ok tt,
     mkPState (clock s) (task s) (commits s) (calls s ++ [(clock s, c)])%list).

Definition elapse (d : nat) : M unit :=
  fun s => (Ok tt, mkPState (clock s + d) (task s) (commits s) (calls s)).

(** [time.sleep(seconds)] *)
Definition time_sleep (seconds : nat) : M unit :=
  record (Sleep seconds) ;; elapse seconds.

(** *** The collaborators *)

Record http_result : Type := mkHttp {
  took : nat;                 (* seconds until the call returns or raises *)
  status_code : option nat    (* [None]: the call raised *)
}.

Record World : Type := mkWorld {
  GITHUB_TOKEN : option string;
  tmpdir : string;
  (* writing index.html, README.md and LICENSE: [Some msg] is the
     description of the exception raised *)
  fs_write : Task -> option string;
  uuid4_hex : string;
  (* [user.create_repo(name, description, private=False).clone_url],
     or the description of the exception raised *)
  github_create_repo : string -> string -> string -> string + string;
  (* the seven git commands run in [local_path] under the given
     author name: the output of [git rev-parse HEAD], or [None] when
     one of them exits with an error *)
  git_run : string -> string -> string -> string -> option string;
  (* the PyGithub calls of [enable_github_pages]: [Some msg] is the
     description of the exception raised *)
  github_pages : string -> string -> option string;
  (* replies of the publication host and of the evaluator, by the
     time of the request *)
  http_get : string -> nat -> http_result;
  http_post : string -> EvaluationPayload -> nat -> http_result;
  (* validation of [EvaluationPayload(...)]: [Some msg] is the
     description of the [ValidationError]; a missing required field
     is always one *)
  pydantic_error : EvaluationPayload -> option string;
  (* [EvaluationPayload(...).dict()] when validation passes: the same
     seven keys, with the values as validation returns them ([EmailStr]
     and [HttpUrl] may rewrite the text they are given) *)
  pydantic_dict : EvaluationPayload -> EvaluationPayload;
  pydantic_missing : string;
  (* [str] of tenacity's [RetryError] *)
  retry_error_str : string
}.

Section WithWorld.

Variable w : World.

(** [resp.status_code == 200], false when the call raised instead. *)
Definition is_200 (resp : option nat) : bool :=
  match resp with
  | Some code => (code =? 200)%nat
  | None => false
  end.

(** [requests.get(url, timeout=5)] *)
Definition requests_get (url : string) : M (option nat) :=
  now <- time_time ;;
  record (HttpGet url) ;;
  elapse (took (http_get w url now)) ;;
  ret (status_code (http_get w url now)).

(** [requests.post(url, json=payload, timeout=10)] *)
Definition requests_post (url : string) (payload : EvaluationPayload)
  : M (option nat) :=
  now <- time_time ;;
  record (HttpPost url payload) ;;
  elapse (took (http_post w url payload now)) ;;
  ret (status_code (http_post w url payload now)).

(** *** build_evaluation_payload

    [EvaluationPayload(...)] validates the seven columns;
    [.dict()] is then the validated model, not the columns as they are
    stored. *)
Definition build_evaluation_payload (t : Task) : M EvaluationPayload :=
  match repo_url t, commit_sha t with
  | Some r, Some c =>
      let p := mkEvaluationPayload (email t) (task_name t) (round t)
                 (nonce t) r c (pages_url t) in
      match pydantic_error w p with
      | None => ret (pydantic_dict w p)
      | Some msg => raise msg
      end
  | _, _ => raise (pydantic_missing w)
  end.

(** *** post_with_retry, under tenacity's [retry] *)

(** [wait_exponential(multiplier, min, max)] before attempt
    [attempt_number + 1]. *)
Definition wait_exponential (multiplier min max attempt_number : nat) : nat :=
  N.to_nat
    (N.max (N.max 0 (N.of_nat min))
       (N.min (N.of_nat multiplier * 2 ^ N.of_nat (attempt_number - 1))
          (N.of_nat max))).

(** [stop_after_delay(max_delay)] on the seconds since the first
    attempt began. *)
Definition stop_after_delay (max_delay seconds_since_start : nat) : bool :=
  (max_delay <=? seconds_since_start)%nat.

Fixpoint retrying (fuel attempt_number start : nat) (url : string)
    (payload : EvaluationPayload) : M unit :=
  match fuel with
  | O => out_of_fuel
  | S fuel' =>
      resp <- requests_post url payload ;;
      if is_200 resp then ret tt
      else
        (* the attempt raised: a non-200 reply or a transport error *)
        now <- time_time ;;
        if stop_after_delay 600 (now - start)
        then raise (retry_error_str w)
        else
          time_sleep (wait_exponential 2 2 16 attempt_number) ;;
          retrying fuel' (S attempt_number) start url payload
  end.

Definition retry_fuel : nat := 301.

Definition post_with_retry (url : string) (payload : EvaluationPayload)
  : M unit :=
  start <- time_time ;;
  retrying retry_fuel 1 start url payload.

(** *** notify_evaluator *)
Definition notify_evaluator (t : Task) (start_time : nat) : M unit :=
  if negb (Py.truthy (pages_url t)) || negb (Py.truthy (repo_url t))
     || negb (Py.truthy (commit_sha t))
  then raise "Missing required fields for evaluation notification."
  else
    let evaluation_url :=
      if negb (Py.truthy (evaluation_url t)) && Py.truthy (error_message t)
      then error_message t
      else evaluation_url t in
    match evaluation_url with
    | Some url =>
        if url =? "" then raise "No evaluation_url found for task."
        else
          payload <- build_evaluation_payload t ;;
          now <- time_time ;;
          let elapsed := now - start_time in
          let remaining := Nat.max 0 (600 - elapsed) in
          try_except (post_with_retry url payload)
            (fun e => raise ("Failed to notify evaluator: " ++ e))
    | None => raise "No evaluation_url found for task."
    end.

(** *** enable_github_pages *)
Definition repo_full_name_of (url : string) : string :=
  Py.replace (Py.last_piece (Py.split url "github.com/")) ".git" "".

Definition enable_github_pages (t : Task) (github_token : option string)
  : M unit :=
  match github_token, repo_url t with
  | Some token, Some url =>
      if (token =? "") || (url =? "") then ret tt
      else
        record (GithubPages (repo_full_name_of url)) ;;
        match github_pages w token (repo_full_name_of url) with
        | None => ret tt
        | Some msg => raise msg
        end
  | _, _ => ret tt
  end.

(** *** verify_pages_deployment *)

(** [owner, repo = parts]: the [ValueError] of a failed unpacking. *)
Definition unpack_error (n : nat) : string :=
  if (n <? 2)%nat
  then "not enough values to unpack (expected 2, got "
       ++ Py.str_int (Z.of_nat n) ++ ")"
  else "too many values to unpack (expected 2)".

Definition timeout : nat := 300.
Definition interval : nat := 10.

(** [while elapsed < timeout: ...; elapsed += interval] *)
Fixpoint poll (fuel elapsed : nat) (pages_url : string) : M (option string) :=
  if (elapsed <? timeout)%nat then
    match fuel with
    | O => out_of_fuel
    | S fuel' =>
        resp <- requests_get pages_url ;;
        if is_200 resp then ret (Some pages_url)
        else
          time_sleep interval ;;
          poll fuel' (elapsed + interval) pages_url
    end
  else ret (Some pages_url).

Definition verify_pages_deployment (t : Task) : M (option string) :=
  if negb (Py.truthy (repo_url t)) then ret None
  else
    let url := match repo_url t with Some u => u | None => "" end in
    match Py.split (repo_full_name_of url) "/" with
    | [owner; repo] =>
        let pages_url := "https://" ++ owner ++ ".github.io/" ++ repo ++ "/" in
        poll timeout 0 pages_url
    | parts => raise (unpack_error (List.length parts))
    end.

(** *** create_github_repo *)
Definition create_github_repo (t : Task) (github_token : option string)
  : M (option string) :=
  match github_token with
  | Some token =>
      if token =? "" then ret None
      else
        let repo_name :=
          "student-task-" ++ nonce t ++ "-" ++ Py.str_int (round t) ++ "-"
          ++ substring 0 6 (uuid4_hex w) in
        let description := "Auto-generated repo for task " ++ task_name t in
        record (GithubCreateRepo repo_name description) ;;
        match github_create_repo w token repo_name description with
        | inl clone_url => ret (Some clone_url)
        | inr msg => raise msg
        end
  | None => ret None
  end.

(** *** push_to_github *)
Definition push_to_github (t : Task) (local_path : string)
    (repo_url : option string) (github_token : option string)
  : M (option string) :=
  match repo_url, github_token with
  | Some url, Some token =>
      if (url =? "") || (token =? "") then ret None
      else
        let auth_repo_url :=
          if Py.startswith url "https://"
          then Py.replace url "https://" ("https://" ++ token ++ "@")
          else url in
        let commit_msg :=
          "chore: initial commit for " ++ task_name t ++ " (nonce: "
          ++ nonce t ++ ")" in
        record (GitPush local_path auth_repo_url) ;;
        match git_run w local_path (email t) commit_msg auth_repo_url with
        | Some stdout => ret (Some (Py.strip stdout))
        | None => ret None
        end
  | _, _ => ret None
  end.

(** *** process_task *)

(** The statuses a run goes through, in the order of the code. *)
Definition stages : list string :=
  ["GENERATING_PROJECT"; "CREATE_REPO"; "PUSH_COMMIT"; "ENABLE_PAGES";
   "VERIFY_PAGES"; "NOTIFY_EVALUATOR"].

Definition stage (k : nat) : string := nth (k - 1) stages "RECEIVED".

Definition terminal (st : string) : bool :=
  (st =? "COMPLETE") || (st =? "FAILED").

(** Position of a status in the lifecycle: RECEIVED first, the six
    stages next, the two terminal statuses last. *)
Definition rank (st : string) : nat :=
  if st =? "GENERATING_PROJECT" then 1
  else if st =? "CREATE_REPO" then 2
  else if st =? "PUSH_COMMIT" then 3
  else if st =? "ENABLE_PAGES" then 4
  else if st =? "VERIFY_PAGES" then 5
  else if st =? "NOTIFY_EVALUATOR" then 6
  else if terminal st then 7
  else 0.

(** A sequence of statuses only moves forward: whatever comes before
    another status is not terminal and does not rank after it. *)
Definition forward (l : list string) : Prop :=
  forall i j a b,
    i < j -> nth_error l i = Some a -> nth_error l j = Some b ->
    terminal a = false /\ rank a <= rank b.


(** [task.status = st; db.commit()] *)
Definition enter (st : string) : M unit :=
  modify_task (set_status st) ;; db_commit.

(** The three [open(...).write(...)] of GENERATING_PROJECT. *)
Definition write_project_files : M unit :=
  t <- get_task ;;
  record FsWrite ;;
  match fs_write w t with
  | None => ret tt
  | Some msg => raise msg
  end.

(** [if value: task.field = value; db.commit()] *)
Definition store_result (value : option string) (set : string -> Task -> Task)
  : M unit :=
  if Py.truthy value
  then match value with
       | Some v => modify_task (set v) ;; db_commit
       | None => ret tt
       end
  else ret tt.

(** The blocks of the inner [try], one per [# State:] comment. *)
Definition generate_project : M unit :=
  enter "GENERATING_PROJECT" ;;
  write_project_files.

Definition create_repo (github_token : option string) : M (option string) :=
  enter "CREATE_REPO" ;;
  t <- get_task ;;
  repo_url <- create_github_repo t github_token ;;
  store_result repo_url set_repo_url ;;
  ret repo_url.

Definition push_commit (github_token repo_url : option string) : M unit :=
  enter "PUSH_COMMIT" ;;
  t <- get_task ;;
  commit_sha <- push_to_github t (tmpdir w) repo_url github_token ;;
  store_result commit_sha set_commit_sha.

Definition enable_pages (github_token : option string) : M unit :=
  enter "ENABLE_PAGES" ;;
  t <- get_task ;;
  enable_github_pages t github_token.

Definition verify_pages : M unit :=
  enter "VERIFY_PAGES" ;;
  t <- get_task ;;
  pages_url <- verify_pages_deployment t ;;
  store_result pages_url set_pages_url.

Definition notify (start_time : nat) : M unit :=
  enter "NOTIFY_EVALUATOR" ;;
  t <- get_task ;;
  notify_evaluator t start_time.

Definition complete : M unit :=
  modify_task (set_status "COMPLETE") ;;
  now <- time_time ;;
  modify_task (set_completed_at now) ;;
  db_commit.

(** The body of the inner [try]. *)
Definition pipeline (github_token : option string) (start_time : nat) : M unit :=
  generate_project ;;
  repo_url <- create_repo github_token ;;
  push_commit github_token repo_url ;;
  enable_pages github_token ;;
  verify_pages ;;
  notify start_time ;;
  complete.

(** The [except Exception as e:] clause. *)
Definition on_exception (e : string) : M unit :=
  modify_task (set_status "FAILED") ;;
  modify_task (set_error_message e) ;;
  db_commit.

Definition run_task (start_time : nat) : M unit :=
  try_except (pipeline (GITHUB_TOKEN w) start_time) on_exception.

(** [process_task(task_id)] started at time [now] on store [db]:
    [None] when the row does not exist (the early [return]),
    otherwise how the run ended and its final state. *)
Definition process_task (task_id : nat) (db : Store.t) (now : nat)
  : option (outcome unit * pstate) :=
  match Store.first (fun r => (id r =? task_id)%nat) db with
  | None => None
  | Some t => Some (run_task now (mkPState now t [] []))
  end.

(** The store once the commits of a run are applied. *)
Definition db_after (task_id : nat) (db : Store.t) (now : nat) : Store.t :=
  match process_task task_id db now with
  | None => db
  | Some (_, s) => fold_left (fun d row => Store.update row d) (commits s) db
  end.

End WithWorld.

End Worker.

(* ------------------------------------------------------------------ *)
(** ** Scenarios: concrete requests, rows and collaborators *)

Module Scenario.

Import Worker.

Definition secret : option string := Some "s3cret".

(** Scenario A of the specification. *)
Definition request_a : TaskRequest :=
  mkTaskRequest "a@example.com" "s3cret" "portfolio" 1 "n-001" (Some "Hello")
    None (Some "https://evaluator.example/notify") None.

(** Scenario B: the same payload with an incorrect secret. *)
Definition request_b : TaskRequest :=
  mkTaskRequest "a@example.com" "guess" "portfolio" 1 "n-001" (Some "Hello")
    None (Some "https://evaluator.example/notify") None.

(** Two copies of Scenario A racing: both pass the COMPLETE query
    before either commits. *)
Definition race : list Intake.event :=
  [Intake.Arrive request_a; Intake.Arrive request_a;
   Intake.Handle 0 10; Intake.Handle 1 10;
   Intake.Handle 0 11; Intake.Handle 1 11;
   Intake.Handle 1 12; Intake.Handle 0 12].

Definition after_race : Intake.system :=
  Intake.play secret race Intake.initial.

(** The row of Scenario A as the intake stores it. *)
Definition row_a : Task :=
  mkTask 1 "n-001" "RECEIVED" "a@example.com" "portfolio" 1 10 None None None
    None None None None.

(** The same row once a run has completed (Scenario C). *)
Definition row_a_complete : Task :=
  mkTask 1 "n-001" "COMPLETE" "a@example.com" "portfolio" 1 10 (Some 400)
    (Some "https://github.com/alice/student-task-n-001-1-c0ffee.git")
    (Some "0a1b2c3") (Some "https://a.example.io/n-001/") None None None.

(** A row that carries a callback URL and every result field. *)
Definition row_with_callback : Task :=
  mkTask 1 "n-001" "NOTIFY_EVALUATOR" "a@example.com" "portfolio" 1 10 None
    (Some "https://github.com/alice/student-task-n-001-1-c0ffee.git")
    (Some "0a1b2c3")
    (Some "https://alice.github.io/student-task-n-001-1-c0ffee/")
    (Some "https://evaluator.example/notify") None None.

(** A row without a callback URL whose [error_message] is set. *)
Definition row_with_error_message : Task :=
  mkTask 1 "n-001" "NOTIFY_EVALUATOR" "a@example.com" "portfolio" 1 10 None
    (Some "https://github.com/alice/student-task-n-001-1-c0ffee.git")
    (Some "0a1b2c3")
    (Some "https://alice.github.io/student-task-n-001-1-c0ffee/")
    None None (Some "No evaluation_url found for task.").

(** Collaborators that all work: the site is live at once and the
    evaluator answers 200. *)
Definition friendly : World :=
  mkWorld (Some "ghp_token") "/tmp/tmpabc" (fun _ => None)
    "c0ffee00000000000000000000000000"
    (fun _ name _ => inl ("https://github.com/alice/" ++ name ++ ".git"))
    (fun _ _ _ _ => Some "0a1b2c3
")
    (fun _ _ => None)
    (fun _ _ => mkHttp 1 (Some 200))
    (fun _ _ _ => mkHttp 1 (Some 200))
    (fun _ => None) (fun p => p) "2 validation errors for EvaluationPayload"
    "RetryError[<Future state=finished raised Exception>]".

(** No credential in the environment: nothing is provisioned; the
    publication host answers 404. *)
Definition offline : World :=
  mkWorld None "/tmp/tmpabc" (fun _ => None)
    "c0ffee00000000000000000000000000"
    (fun _ _ _ => inr "401 Bad credentials")
    (fun _ _ _ _ => None)
    (fun _ _ => Some "404 Not Found")
    (fun _ _ => mkHttp 0 (Some 404))
    (fun _ _ _ => mkHttp 0 (Some 500))
    (fun _ => None) (fun p => p) "2 validation errors for EvaluationPayload"
    "RetryError[<Future state=finished raised Exception>]".

(** Scenario D: the repository is created but the push is rejected. *)
Definition push_rejected : World :=
  mkWorld (Some "ghp_token") "/tmp/tmpabc" (fun _ => None)
    "c0ffee00000000000000000000000000"
    (fun _ name _ => inl ("https://github.com/alice/" ++ name ++ ".git"))
    (fun _ _ _ _ => None)
    (fun _ _ => None)
    (fun _ _ => mkHttp 1 (Some 404))
    (fun _ _ _ => mkHttp 1 (Some 200))
    (fun _ => None) (fun p => p) "2 validation errors for EvaluationPayload"
    "RetryError[<Future state=finished raised Exception>]".

(** Scenarios E and F together: the site never goes live and the
    evaluator only answers 500. *)
Definition evaluator_down : World :=
  mkWorld (Some "ghp_token") "/tmp/tmpabc" (fun _ => None)
    "c0ffee00000000000000000000000000"
    (fun _ name _ => inl ("https://github.com/alice/" ++ name ++ ".git"))
    (fun _ _ _ _ => Some "0a1b2c3
")
    (fun _ _ => None)
    (fun _ _ => mkHttp 0 (Some 404))
    (fun _ _ _ => mkHttp 0 (Some 500))
    (fun _ => None) (fun p => p) "2 validation errors for EvaluationPayload"
    "RetryError[<Future state=finished raised Exception>]".

(** The row of Scenario A with the callback URL stored on it. *)
Definition row_a_with_callback : Task :=
  mkTask 1 "n-001" "RECEIVED" "a@example.com" "portfolio" 1 10 None None None
    None (Some "https://evaluator.example/notify") None None.

(** Collaborators that all work, with [requests] as it is: a URL that
    has no scheme is refused with [MissingSchema] before anything is
    sent; the evaluator answers 200 to what does reach it. *)
Definition schemeless_refused : World :=
  mkWorld (Some "ghp_token") "/tmp/tmpabc" (fun _ => None)
    "c0ffee00000000000000000000000000"
    (fun _ name _ => inl ("https://github.com/alice/" ++ name ++ ".git"))
    (fun _ _ _ _ => Some "0a1b2c3
")
    (fun _ _ => None)
    (fun _ _ => mkHttp 1 (Some 200))
    (fun url _ _ =>
       if Py.startswith url "http://" || Py.startswith url "https://"
       then mkHttp 1 (Some 200)
       else mkHttp 0 None)
    (fun _ => None) (fun p => p) "2 validation errors for EvaluationPayload"
    "RetryError[<Future state=finished raised MissingSchema>]".

(** [EmailStr] as the validator of e-mail addresses applies it: the
    domain is put in lower case, the local part is kept. *)
Definition lower (c : ascii) : ascii :=
  let n := nat_of_ascii c in
  if ((65 <=? n) && (n <=? 90))%nat then ascii_of_nat (n + 32) else c.

Fixpoint lower_domain (in_domain : bool) (s : string) : string :=
  match s with
  | EmptyString => EmptyString
  | String c rest =>
      if in_domain then String (lower c) (lower_domain true rest)
      else String c (lower_domain (Ascii.eqb c "@") rest)
  end.

(** Collaborators that all work, with a validation that rewrites the
    e-mail address. *)
Definition rewriting : World :=
  mkWorld (Some "ghp_token") "/tmp/tmpabc" (fun _ => None)
    "c0ffee00000000000000000000000000"
    (fun _ name _ => inl ("https://github.com/alice/" ++ name ++ ".git"))
    (fun _ _ _ _ => Some "0a1b2c3
")
    (fun _ _ => None)
    (fun _ _ => mkHttp 1 (Some 404))
    (fun _ _ _ => mkHttp 1 (Some 200))
    (fun _ => None)
    (fun p =>
       mkEvaluationPayload (lower_domain false (ep_email p)) (ep_task p)
         (ep_round p) (ep_nonce p) (ep_repo_url p) (ep_commit_sha p)
         (ep_pages_url p))
    "2 validation errors for EvaluationPayload"
    "RetryError[<Future state=finished raised Exception>]".

(** [row_with_callback] with an address whose domain is in upper
    case. *)
Definition row_upper_case : Task :=
  mkTask 1 "n-001" "NOTIFY_EVALUATOR" "Ann@Example.COM" "portfolio" 1 10 None
    (Some "https://github.com/alice/student-task-n-001-1-c0ffee.git")
    (Some "0a1b2c3")
    (Some "https://alice.github.io/student-task-n-001-1-c0ffee/")
    (Some "https://evaluator.example/notify") None None.

(** The row the intake stores for a submission whose nonce is
    [v1.git], and the same row once [create_github_repo] has returned
    the clone URL of the repository it named after that nonce. *)
Definition row_dotgit : Task :=
  mkTask 2 "v1.git" "RECEIVED" "a@example.com" "portfolio" 1 10 None None None
    None None None None.

Definition row_dotgit_created : Task :=
  mkTask 2 "v1.git" "VERIFY_PAGES" "a@example.com" "portfolio" 1 10 None
    (Some "https://github.com/alice/student-task-v1.git-1-c0ffee.git")
    (Some "0a1b2c3") None None None None.

End Scenario.

(* ------------------------------------------------------------------ *)
(** * Properties of the string operations *)

Module PyFacts.

Import Py.

Lemma append_assoc (a b c : string) : (a ++ b) ++ c = a ++ b ++ c.
Proof. induction a as [|x a IH]; simpl; [reflexivity|now rewrite IH]. Qed.

Lemma append_nil_r (a : string) : a ++ "" = a.
Proof. induction a as [|x a IH]; simpl; [reflexivity|now rewrite IH]. Qed.

Lemma prefix_head (c : ascii) (p : string) (x : ascii) (s : string) :
  x <> c -> String.prefix (String c p) (String x s) = false.
Proof.
  intros H. simpl. destruct (ascii_dec c x) as [E|_]; [|reflexivity].
  exfalso. now apply H.
Qed.

Lemma has_false_head c x s : has c (String x s) = false -> x <> c /\ has c s = false.
Proof.
  simpl. intros H. apply orb_false_iff in H. destruct H as [H1 H2].
  split; [|exact H2]. now apply Ascii.eqb_neq.
Qed.

Lemma prefix_cons c p x s :
  String.prefix (String c p) (String x s) = true ->
  x = c /\ String.prefix p s = true.
Proof.
  simpl. destruct (ascii_dec c x) as [E|E]; [auto|discriminate].
Qed.

Lemma prefix_one c s : String.prefix (String c "") (String c s) = true.
Proof.
  simpl. destruct (ascii_dec c c) as [_|N]; [now destruct s|congruence].
Qed.

Ltac peel x H P :=
  destruct x as [|? x];
  [ vm_compute in P; discriminate P
  | apply prefix_cons in P; destruct P as [? P];
    apply has_false_head in H; destruct H as [? H] ].

(** A string without a dot, followed by [.git], has no [github.com/]
    at its head: the dot of the separator would have to be the one of
    [.git], and the string ends too early after it. *)
Lemma no_host_at_head (x : string) :
  has "." x = false -> String.prefix "github.com/" (x ++ ".git") = false.
Proof.
  intros H. destruct (String.prefix _ _) eqn:P; [|reflexivity]. exfalso.
  do 7 (peel x H P). congruence.
Qed.

Lemma has_app c a b : has c (a ++ b) = has c a || has c b.
Proof.
  induction a as [|x a IH]; simpl; [reflexivity|].
  now rewrite IH, orb_assoc.
Qed.

(** [github.com/] does not occur in a dot-free string followed by
    [.git], so splitting on it leaves the string whole. *)
Lemma split_host_whole (x acc : string) :
  has "." x = false ->
  split_from "github.com/" 0 acc (x ++ ".git") = [acc ++ x ++ ".git"].
Proof.
  revert acc. induction x as [|c x IH]; intros acc H.
  - vm_compute split_from. 
    change (split_from "github.com/" 0 acc ".git") with
      [(((acc ++ ".") ++ "g") ++ "i") ++ "t"].
    now rewrite !append_assoc.
  - pose proof (no_host_at_head _ H) as N.
    apply has_false_head in H. destruct H as [_ H].
    change (String c x ++ ".git") with (String c (x ++ ".git")) in *.
    cbn [split_from]. rewrite N, IH by exact H.
    now rewrite append_assoc.
Qed.

(** Removing [.git] from a dot-free string followed by [.git] gives the
    string back. *)
Lemma replace_git_suffix (x : string) :
  has "." x = false -> replace (x ++ ".git") ".git" "" = x.
Proof.
  unfold replace. induction x as [|c x IH]; intros H; [reflexivity|].
  apply has_false_head in H. destruct H as [Hc H].
  change (String c x ++ ".git") with (String c (x ++ ".git")).
  cbn [replace_from]. rewrite (prefix_head "." "git" c) by exact Hc.
  now rewrite IH.
Qed.

(** Splitting [owner/repo] on the slash, when neither part has one. *)
Lemma split_slash (owner repo acc : string) :
  has "/" owner = false -> has "/" repo = false ->
  split_from "/" 0 acc (owner ++ "/" ++ repo) = [acc ++ owner; repo].
Proof.
  intros Ho Hr. revert acc. induction owner as [|c o IH]; intros acc.
  - assert (forall a, split_from "/" 0 a repo = [a ++ repo]) as K.
    { clear Ho. induction repo as [|c r IHr]; intros a.
      - cbn [split_from]. now rewrite append_nil_r.
      - apply has_false_head in Hr. destruct Hr as [Hc Hr].
        cbn [split_from]. rewrite (prefix_head "/" "" c) by exact Hc.
        rewrite IHr by exact Hr. now rewrite append_assoc. }
    change ("" ++ "/" ++ repo) with (String "/" repo).
    cbn [split_from]. rewrite prefix_one.
    change (String.length "/" - 1) with 0. rewrite K, append_nil_r.
    reflexivity.
  - apply has_false_head in Ho. destruct Ho as [Hc Ho].
    change (String c o ++ "/" ++ repo) with (String c (o ++ "/" ++ repo)).
    cbn [split_from]. rewrite (prefix_head "/" "" c) by exact Hc.
    rewrite IH by exact Ho. now rewrite append_assoc.
Qed.

Lemma prefix_nil s : String.prefix "" s = true.
Proof. now destruct s. Qed.

Lemma split_clone_url (rest : string) :
  split_from "github.com/" 0 "" ("https://github.com/" ++ rest)
  = "https://" :: split_from "github.com/" 0 "" rest.
Proof.
  cbn. rewrite prefix_nil. reflexivity.
Qed.

(** The clone URL GitHub hands out for [owner]/[repo] is read back as
    [owner] and [repo]. *)
Lemma clone_url_names (owner repo : string) :
  has "." owner = false -> has "/" owner = false ->
  has "." repo = false -> has "/" repo = false ->
  split
    (replace
       (last_piece
          (split ("https://github.com/" ++ owner ++ "/" ++ repo ++ ".git")
             "github.com/"))
       ".git" "")
    "/"
  = [owner; repo].
Proof.
  intros H1 H2 H3 H4.
  assert (has "." (owner ++ "/" ++ repo) = false) as Hd.
  { rewrite !has_app, H1, H3. reflexivity. }
  assert (split ("https://github.com/" ++ owner ++ "/" ++ repo ++ ".git")
            "github.com/"
          = ["https://"; owner ++ "/" ++ repo ++ ".git"]) as ->.
  { unfold split. rewrite split_clone_url.
    replace (owner ++ "/" ++ repo ++ ".git")
      with ((owner ++ "/" ++ repo) ++ ".git")
      by (now rewrite !append_assoc).
    now rewrite split_host_whole. }
  cbn [last_piece last].
  replace (owner ++ "/" ++ repo ++ ".git")
    with ((owner ++ "/" ++ repo) ++ ".git") by (now rewrite !append_assoc).
  rewrite replace_git_suffix by exact Hd.
  unfold split. now rewrite split_slash.
Qed.

End PyFacts.

(* ------------------------------------------------------------------ *)
(** * Properties of the Task Store *)

Module StoreFacts.

Import Store.

Lemma list_max_ge (l : list nat) (x : nat) : In x l -> x <= list_max l.
Proof.
  induction l as [|y l IH]; simpl; [tauto|].
  intros [->|H]; [lia|]. specialize (IH H). lia.
Qed.

Lemma next_id_fresh (db : t) : ~ In (next_id db) (ids db).
Proof.
  unfold next_id. intros H. apply list_max_ge in H. lia.
Qed.

Lemma existsb_nonce_false (db : t) (n : string) :
  existsb (fun r => nonce r =? n) db = false -> ~ In n (nonces db).
Proof.
  unfold nonces. induction db as [|r db IH]; simpl; [tauto|].
  intros H. apply orb_false_iff in H. destruct H as [H1 H2].
  intros [E|E]; [|now apply IH].
  rewrite E, String.eqb_refl in H1. discriminate.
Qed.

Lemma existsb_nonce_true (db : t) (n : string) :
  existsb (fun r => nonce r =? n) db = true -> In n (nonces db).
Proof.
  unfold nonces. induction db as [|r db IH]; simpl; [discriminate|].
  intros H. apply orb_true_iff in H. destruct H as [H|H].
  - left. now apply String.eqb_eq.
  - right. now apply IH.
Qed.

(** A committed insert appends exactly one row, with a fresh key and
    the nonce it was given. *)
Lemma insert_inserted now new_task db db' row :
  insert now new_task db = Inserted db' row ->
  db' = (db ++ [row])%list /\ id row = next_id db /\
  nonce row = nonce new_task /\ ~ In (nonce new_task) (nonces db) /\
  status row = status new_task /\ brief row = brief new_task /\
  evaluation_url row = evaluation_url new_task /\
  error_message row = error_message new_task.
Proof.
  unfold insert.
  destruct (existsb _ db) eqn:E; [discriminate|].
  intros H. injection H as <- <-. simpl.
  repeat split; try reflexivity.
  now apply existsb_nonce_false.
Qed.

(** The unique index rejects an insert exactly when the nonce is taken,
    and then the store is left as it was. *)
Lemma insert_conflict now new_task db :
  insert now new_task db = IntegrityError <-> In (nonce new_task) (nonces db).
Proof.
  unfold insert. destruct (existsb _ db) eqn:E; split; intros H.
  - now apply existsb_nonce_true.
  - reflexivity.
  - discriminate.
  - exfalso. now apply (existsb_nonce_false _ _ E).
Qed.

Lemma update_ids row db : ids (update row db) = ids db.
Proof.
  unfold ids, update. rewrite map_map. apply map_ext_in.
  intros r _. destruct (Nat.eqb_spec (id r) (id row)); congruence.
Qed.

Lemma NoDup_map_inj {A B} (f : A -> B) (l : list A) (x y : A) :
  NoDup (map f l) -> In x l -> In y l -> f x = f y -> x = y.
Proof.
  induction l as [|a l IH]; simpl; [tauto|].
  intros ND Hx Hy E. inversion ND as [|? ? Hn ND']; subst.
  destruct Hx as [->|Hx], Hy as [->|Hy]; auto.
  - exfalso. apply Hn. rewrite E. now apply in_map.
  - exfalso. apply Hn. rewrite <- E. now apply in_map.
Qed.

(** An UPDATE by primary key that keeps the nonce of the row it
    replaces leaves the column of nonces as it was. *)
Lemma update_nonces row db old :
  NoDup (ids db) -> In old db -> id old = id row -> nonce old = nonce row ->
  nonces (update row db) = nonces db.
Proof.
  intros ND Hold Hid Hn. unfold nonces, update. rewrite map_map.
  apply map_ext_in. intros r Hr.
  destruct (Nat.eqb_spec (id r) (id row)) as [E|E]; [|reflexivity].
  assert (r = old) as ->
    by (apply (NoDup_map_inj id db); auto; congruence).
  now symmetry.
Qed.

Lemma filter_nonce_le1 (db : t) (n : string) :
  NoDup (nonces db) ->
  List.length (filter (fun r => nonce r =? n) db) <= 1.
Proof.
  unfold nonces. induction db as [|r db IH]; simpl; [lia|].
  intros ND. inversion ND as [|? ? Hn ND']; subst.
  destruct (String.eqb_spec (nonce r) n) as [E|E]; [|auto].
  simpl. assert (filter (fun r0 => nonce r0 =? n) db = []) as ->; [|simpl; lia].
  destruct (filter _ db) as [|x l] eqn:F; [reflexivity|].
  exfalso. assert (In x (filter (fun r0 => nonce r0 =? n) db)) as Hx
    by (rewrite F; now left).
  apply filter_In in Hx. destruct Hx as [Hx Hx'].
  apply String.eqb_eq in Hx'. apply Hn. rewrite E, <- Hx'. now apply in_map.
Qed.

Lemma NoDup_snoc {A} (l : list A) (x : A) :
  NoDup l -> ~ In x l -> NoDup (l ++ [x])%list.
Proof.
  intros ND Hx. apply NoDup_app; auto.
  - constructor; [simpl; tauto|constructor].
  - intros a Ha [<-|[]]. contradiction.
Qed.

Lemma first_some (p : Task -> bool) (db : t) (r : Task) :
  first p db = Some r -> In r db /\ p r = true.
Proof. apply find_some. Qed.

End StoreFacts.


(* ------------------------------------------------------------------ *)
(** * Properties of the intake endpoint *)

Module IntakeFacts.

Import Intake.

Section WithSecret.

Variable EXPECTED_SECRET : option string.

#[local] Abbreviation api_endpoint := (api_endpoint EXPECTED_SECRET).
#[local] Abbreviation handler_step := (handler_step EXPECTED_SECRET).
#[local] Abbreviation reachable := (reachable EXPECTED_SECRET).
#[local] Abbreviation step := (step EXPECTED_SECRET).

(** Serving a request alone is taking the handler's atomic steps one
    after the other. *)
Definition run_alone (now : nat) (request : TaskRequest) (db : Store.t)
    (sent : list nat) : handler * Store.t * list nat :=
  let '(h1, db1, sent1) := handler_step now (AtQuery request) db sent in
  let '(h2, db2, sent2) := handler_step now h1 db1 sent1 in
  let '(h3, db3, sent3) := handler_step now h2 db2 sent2 in
  (h3, db3, sent3).

Lemma api_endpoint_run_alone now request db sent :
  let '(r, db', sent') := api_endpoint now request db sent in
  run_alone now request db sent = (Returned r, db', sent').
Proof.
  unfold Intake.api_endpoint, run_alone, Intake.handler_step.
  destruct (secret_mismatch _ _); [reflexivity|].
  destruct (Store.first (is_complete_for request) db); [reflexivity|].
  destruct (Store.insert _ _ db); [reflexivity|].
  destruct (Store.first (is_row_for request) db); reflexivity.
Qed.

(** How many handlers are about to dispatch the row with key [j]. *)
Definition weight (j : nat) (h : handler) : nat :=
  match h with
  | AtDispatch _ new_task => if (id new_task =? j)%nat then 1 else 0
  | _ => 0
  end.

Definition pending (j : nat) (hs : list handler) : nat :=
  list_sum (map (weight j) hs).

Definition scheduled (j : nat) (s : system) : nat :=
  count_occ Nat.eq_dec (sys_sent s) j + pending j (sys_handlers s).

Record inv (s : system) : Prop := mkInv {
  inv_nonces : NoDup (Store.nonces (sys_db s));
  inv_ids : NoDup (Store.ids (sys_db s));
  inv_once : forall j, scheduled j s <= 1;
  inv_known : forall j, 0 < scheduled j s -> In j (Store.ids (sys_db s))
}.

Lemma pending_app j hs hs' :
  pending j (hs ++ hs')%list = pending j hs + pending j hs'.
Proof. unfold pending. now rewrite map_app, list_sum_app. Qed.

Lemma pending_set_nth j i h h' hs :
  nth_error hs i = Some h ->
  pending j (set_nth i h' hs) + weight j h = pending j hs + weight j h'.
Proof.
  revert i. induction hs as [|x hs IH]; intros [|i]; simpl; try discriminate.
  - intros [= ->]. unfold pending. simpl. lia.
  - intros H. specialize (IH _ H). unfold pending in *. simpl. lia.
Qed.

Lemma count_occ_snoc (l : list nat) (x j : nat) :
  count_occ Nat.eq_dec (l ++ [x])%list j
  = count_occ Nat.eq_dec l j + (if (x =? j)%nat then 1 else 0).
Proof.
  rewrite count_occ_app. simpl.
  destruct (Nat.eq_dec x j), (Nat.eqb_spec x j); congruence.
Qed.

Lemma inv_initial : inv initial.
Proof.
  constructor; simpl; try apply NoDup_nil; unfold scheduled, pending; simpl;
    intros; lia.
Qed.

Lemma inv_step s s' : inv s -> step s s' -> inv s'.
Proof.
  intros [Hn Hi Ho Hk] St. destruct St as [s request|s i h now h' db' sent' Hnth Hs|s row Hw].
  - (* a request arrives *)
    constructor; simpl; auto; unfold scheduled in *; simpl; intros j;
      rewrite pending_app; unfold pending at 2; simpl;
      rewrite Nat.add_0_r; auto.
  - (* a handler takes a step *)
    destruct h as [request|request|request|request new_task|r]; simpl in Hs.
    + assert (db' = sys_db s /\ sent' = sys_sent s /\ weight 0 h' = 0
              /\ forall j, weight j h' = 0) as (-> & -> & _ & W).
      { destruct (secret_mismatch _ _); [injection Hs as <- <- <-; auto|].
        destruct (Store.first _ _); injection Hs as <- <- <-; auto. }
      constructor; simpl; auto; unfold scheduled in *; simpl; intros j;
        pose proof (pending_set_nth j i _ h' _ Hnth) as P;
        rewrite W in P; simpl in P; specialize (Ho j); specialize (Hk j);
        [lia|intros; apply Hk; lia].
    + destruct (Store.insert now _ (sys_db s)) as [db1 row|] eqn:Ins.
      * injection Hs as <- <- <-.
        apply StoreFacts.insert_inserted in Ins.
        destruct Ins as (-> & Hid & Hnon & Hfresh & _).
        pose proof (StoreFacts.next_id_fresh (sys_db s)) as Fr.
        assert (forall j, scheduled j
                  (mkSystem (sys_db s ++ [row])%list (sys_sent s)
                     (set_nth i (AtDispatch request row) (sys_handlers s)))
                = scheduled j s + (if (id row =? j)%nat then 1 else 0)) as Sc.
        { intros j. unfold scheduled. simpl.
          pose proof (pending_set_nth j i _ (AtDispatch request row) _ Hnth) as P.
          simpl in P. lia. }
        constructor; simpl.
        -- unfold Store.nonces in *. rewrite map_app. simpl.
           apply StoreFacts.NoDup_snoc; auto. now rewrite Hnon.
        -- unfold Store.ids in *. rewrite map_app. simpl.
           apply StoreFacts.NoDup_snoc; auto. now rewrite Hid.
        -- intros j. rewrite Sc. specialize (Ho j). specialize (Hk j).
           destruct (Nat.eqb_spec (id row) j) as [E|E]; [|lia].
           destruct (Nat.eq_dec (scheduled j s) 0) as [Z|Z]; [lia|].
           exfalso. apply Fr. rewrite <- Hid, E. apply Hk. lia.
        -- intros j. rewrite Sc. unfold Store.ids. rewrite map_app, in_app_iff.
           simpl. destruct (Nat.eqb_spec (id row) j) as [E|E]; [auto|].
           intros H. left. apply Hk. lia.
      * injection Hs as <- <- <-.
        constructor; simpl; auto; unfold scheduled in *; simpl; intros j;
          pose proof (pending_set_nth j i _ (AtReread request) _ Hnth) as P;
          simpl in P; specialize (Ho j); specialize (Hk j);
          [lia|intros; apply Hk; lia].
    + assert (db' = sys_db s /\ sent' = sys_sent s /\ forall j, weight j h' = 0)
        as (-> & -> & W).
      { destruct (Store.first _ _); injection Hs as <- <- <-; auto. }
      constructor; simpl; auto; unfold scheduled in *; simpl; intros j;
        pose proof (pending_set_nth j i _ h' _ Hnth) as P;
        rewrite W in P; simpl in P; specialize (Ho j); specialize (Hk j);
        [lia|intros; apply Hk; lia].
    + injection Hs as <- <- <-.
      assert (forall j, scheduled j
                (mkSystem (sys_db s) (sys_sent s ++ [id new_task])%list
                   (set_nth i
                      (Returned (Ack (mkAck "RECEIVED" (rq_task request)
                                        (rq_nonce request))))
                      (sys_handlers s)))
              = scheduled j s) as Sc.
      { intros j. unfold scheduled. simpl. rewrite count_occ_snoc.
        pose proof (pending_set_nth j i _
          (Returned (Ack (mkAck "RECEIVED" (rq_task request) (rq_nonce request))))
          _ Hnth) as P.
        simpl in P. lia. }
      constructor; simpl; auto; intros j; rewrite Sc; auto.
    + injection Hs as <- <- <-.
      constructor; simpl; auto; unfold scheduled in *; simpl; intros j;
        pose proof (pending_set_nth j i _ (Returned r) _ Hnth) as P;
        simpl in P; specialize (Ho j); specialize (Hk j);
        [lia|intros; apply Hk; lia].
  - (* the executor writes a row *)
    destruct Hw as (old & Hin & Hid & Hnon).
    constructor; simpl.
    + now rewrite (StoreFacts.update_nonces row _ old).
    + now rewrite StoreFacts.update_ids.
    + exact Ho.
    + intros j H. rewrite StoreFacts.update_ids. now apply Hk.
Qed.

Lemma reachable_inv s : reachable s -> inv s.
Proof.
  induction 1 as [|s s' _ IH St]; [apply inv_initial|].
  now apply (inv_step s s').
Qed.

Lemma play1_reachable s e : reachable s -> reachable (Intake.play1 EXPECTED_SECRET s e).
Proof.
  intros R. destruct e as [request|i now|row]; simpl.
  - eapply reach_step; [exact R|constructor].
  - destruct (nth_error (sys_handlers s) i) as [h|] eqn:N; [|exact R].
    destruct (handler_step now h (sys_db s) (sys_sent s)) as [[h' db'] sent'] eqn:H.
    eapply reach_step; [exact R|]. eapply step_handler; eassumption.
  - destruct (writable row (sys_db s)) eqn:W; [|exact R].
    eapply reach_step; [exact R|]. apply step_executor.
    unfold writable in W. apply existsb_exists in W.
    destruct W as (old & Hin & Hb). apply andb_true_iff in Hb.
    destruct Hb as [Hi Hn]. exists old.
    apply Nat.eqb_eq in Hi. apply String.eqb_eq in Hn. auto.
Qed.

Lemma play_reachable es s :
  reachable s -> reachable (Intake.play EXPECTED_SECRET es s).
Proof.
  unfold play. revert s. induction es as [|e es IH]; simpl; intros s R; [exact R|].
  apply IH. now apply play1_reachable.
Qed.

Lemma length_le1 {A} (l : list A) :
  NoDup l -> (forall x y, In x l -> In y l -> x = y) -> List.length l <= 1.
Proof.
  destruct l as [|a [|b l]]; simpl; intros ND H; try lia.
  exfalso. inversion ND as [|? ? Hn _]; subst. apply Hn.
  rewrite (H a b); simpl; auto.
Qed.

Lemma scheduled_once s n : inv s -> runs_scheduled n s <= 1.
Proof.
  intros [Hn Hi Ho Hk]. unfold runs_scheduled. apply length_le1.
  - apply NoDup_filter. apply (NoDup_count_occ Nat.eq_dec). intros j.
    specialize (Ho j). unfold scheduled in Ho. lia.
  - intros x y Hx Hy. apply filter_In in Hx, Hy.
    destruct Hx as [_ Hx], Hy as [_ Hy]. apply existsb_exists in Hx, Hy.
    destruct Hx as (rx & Hrx & Bx), Hy as (ry & Hry & By).
    apply andb_true_iff in Bx, By. destruct Bx as [Ix Nx], By as [Iy Ny].
    apply Nat.eqb_eq in Ix, Iy. apply String.eqb_eq in Nx, Ny.
    assert (rx = ry) by (apply (StoreFacts.NoDup_map_inj nonce (sys_db s));
                         auto; congruence).
    congruence.
Qed.

(** A row is the only one the two queries of the handler can find for
    its nonce. *)
Lemma first_is_the_row (p : Task -> bool) db row r :
  NoDup (Store.nonces db) -> In row db ->
  Store.first p db = Some r -> nonce r = nonce row -> r = row.
Proof.
  intros ND Hin F E. apply StoreFacts.first_some in F. destruct F as [Hr _].
  now apply (StoreFacts.NoDup_map_inj nonce db).
Qed.

Lemma first_exists (p : Task -> bool) db row :
  In row db -> p row = true -> exists r, Store.first p db = Some r /\ p r = true.
Proof.
  intros Hin Hp. unfold Store.first. destruct (find p db) as [r|] eqn:F.
  - exists r. split; auto. now apply find_some in F.
  - exfalso. pose proof (find_none _ _ F _ Hin). congruence.
Qed.


(** C2: when the store holds a COMPLETE row for the (nonce, round) of a
    submission, the endpoint inserts nothing and schedules nothing, and
    a submission that carries the expected secret is answered with that
    row's recorded status, task name and nonce. *)
Theorem resubmit_after_complete now request db sent existing :
  NoDup (Store.nonces db) ->
  In existing db ->
  nonce existing = rq_nonce request -> round existing = rq_round request ->
  status existing = "COMPLETE" ->
  (exists r, api_endpoint now request db sent = (r, db, sent)) /\
  (secret_mismatch EXPECTED_SECRET request = false ->
   api_endpoint now request db sent
   = (Ack (mkAck (status existing) (task_name existing) (nonce existing)),
      db, sent)).
Proof.
  intros ND Hin En Er Es.
  assert (is_complete_for request existing = true) as Hp.
  { unfold is_complete_for.
    rewrite En, Er, Es, String.eqb_refl, Z.eqb_refl. reflexivity. }
  destruct (first_exists _ _ _ Hin Hp) as (r & F & Hr).
  assert (r = existing) as ->.
  { apply (first_is_the_row _ _ existing _ ND Hin F).
    unfold is_complete_for in Hr. apply andb_true_iff in Hr.
    destruct Hr as [Hr _]. apply andb_true_iff in Hr. destruct Hr as [Hr _].
    apply String.eqb_eq in Hr. congruence. }
  unfold Intake.api_endpoint. rewrite F.
  destruct (secret_mismatch EXPECTED_SECRET request).
  - split; [eauto|discriminate].
  - split; [eauto|reflexivity].
Qed.

(** C9: a submission whose secret is not the configured one is refused
    with 403 and leaves the store (and the broker) untouched. *)
Theorem bad_secret_rejected now request db sent :
  EXPECTED_SECRET <> Some (rq_secret request) ->
  api_endpoint now request db sent
  = (HTTPException 403 "Invalid secret.", db, sent).
Proof.
  intros H. unfold Intake.api_endpoint, secret_mismatch.
  destruct EXPECTED_SECRET as [e|]; [|reflexivity].
  destruct (String.eqb_spec (rq_secret request) e) as [E|E]; [|reflexivity].
  exfalso. apply H. now rewrite E.
Qed.

(** What the endpoint adds to the store is the row it built: RECEIVED,
    with no brief, no callback URL and no error message. *)
Lemma api_endpoint_new_row now request db sent r db' sent' row :
  api_endpoint now request db sent = (r, db', sent') ->
  In row db' -> ~ In row db ->
  db' = (db ++ [row])%list /\ sent' = (sent ++ [id row])%list /\
  nonce row = rq_nonce request /\ status row = "RECEIVED" /\
  brief row = None /\ evaluation_url row = None /\ error_message row = None.
Proof.
  unfold Intake.api_endpoint. intros H Hin Hnot.
  destruct (secret_mismatch _ _); [injection H as <- <- <-; contradiction|].
  destruct (Store.first (is_complete_for request) db);
    [injection H as <- <- <-; contradiction|].
  destruct (Store.insert now (new_task_of request) db) as [db1 row1|] eqn:Ins.
  - injection H as <- <- <-.
    apply StoreFacts.insert_inserted in Ins.
    destruct Ins as (-> & _ & Hn & _ & Hs & Hb & Hu & He).
    apply in_app_or in Hin. destruct Hin as [Hin|[<-|[]]]; [contradiction|].
    simpl in *. auto 10.
  - destruct (Store.first (is_row_for request) db);
      injection H as <- <- <-; contradiction.
Qed.

End WithSecret.


Lemma resubmit_after_complete_witness :
  Intake.api_endpoint Scenario.secret 900 Scenario.request_a
    [Scenario.row_a_complete] [1]
  = (Ack (mkAck "COMPLETE" "portfolio" "n-001"), [Scenario.row_a_complete], [1]).
Proof.
  apply (resubmit_after_complete Scenario.secret 900 Scenario.request_a
           [Scenario.row_a_complete] [1] Scenario.row_a_complete).
  - repeat constructor. simpl. tauto.
  - simpl. auto.
  - reflexivity.
  - reflexivity.
  - reflexivity.
  - reflexivity.
Defined.

Lemma bad_secret_rejected_witness :
  Intake.api_endpoint Scenario.secret 10 Scenario.request_b [] []
  = (HTTPException 403 "Invalid secret.", [], []).
Proof.
  apply (bad_secret_rejected Scenario.secret 10 Scenario.request_b [] []).
  discriminate.
Defined.

End IntakeFacts.

(* ------------------------------------------------------------------ *)
(** * Properties of the Pipeline Executor *)

Module WorkerFacts.

Import Worker.
Local Open Scope exec_scope.

(* The loops are entered with hundreds of rounds of fuel: [simpl] must
   not unroll them. *)
#[local] Arguments retry_fuel : simpl never.
#[local] Arguments timeout : simpl never.
#[local] Arguments post_with_retry : simpl never.

(** ** Computations that leave the loaded row and the store alone *)

Definition frames {A} (c : M A) : Prop :=
  forall s, task (snd (c s)) = task s /\ commits (snd (c s)) = commits s.

Definition returns {A} (c : M A) : Prop :=
  forall s, fst (c s) <> OutOfFuel.

Lemma frames_ret {A} (a : A) : frames (ret a).
Proof. intros s. simpl. auto. Qed.

Lemma frames_raise {A} (m : string) : frames (@raise A m).
Proof. intros s. simpl. auto. Qed.

Lemma frames_out_of_fuel {A} : frames (@out_of_fuel A).
Proof. intros s. simpl. auto. Qed.

Lemma frames_bind {A B} (c : M A) (k : A -> M B) :
  frames c -> (forall a, frames (k a)) -> frames (bind c k).
Proof.
  intros Hc Hk s. unfold bind. specialize (Hc s).
  destruct (c s) as [[a|m|] s']; simpl in *; auto.
  destruct (Hk a s') as [H1 H2]. destruct Hc as [H3 H4]. split; congruence.
Qed.

Lemma frames_try {A} (c : M A) (h : string -> M A) :
  frames c -> (forall m, frames (h m)) -> frames (try_except c h).
Proof.
  intros Hc Hh s. unfold try_except. specialize (Hc s).
  destruct (c s) as [[a|m|] s']; simpl in *; auto.
  destruct (Hh m s') as [H1 H2]. destruct Hc as [H3 H4]. split; congruence.
Qed.

Lemma frames_time : frames time_time.
Proof. intros s. simpl. auto. Qed.

Lemma frames_record c : frames (record c).
Proof. intros s. simpl. auto. Qed.

Lemma frames_elapse d : frames (elapse d).
Proof. intros s. simpl. auto. Qed.

Lemma frames_sleep d : frames (time_sleep d).
Proof.
  unfold time_sleep. apply frames_bind; [apply frames_record|].
  intros _. apply frames_elapse.
Qed.

Lemma returns_ret {A} (a : A) : returns (ret a).
Proof. intros s. simpl. discriminate. Qed.

Lemma returns_raise {A} (m : string) : returns (@raise A m).
Proof. intros s. simpl. discriminate. Qed.

Lemma returns_bind {A B} (c : M A) (k : A -> M B) :
  returns c -> (forall a, returns (k a)) -> returns (bind c k).
Proof.
  intros Hc Hk s. unfold bind. specialize (Hc s).
  destruct (c s) as [[a|m|] s']; simpl in *; try discriminate; auto.
  apply Hk.
Qed.

Lemma returns_try {A} (c : M A) (h : string -> M A) :
  returns c -> (forall m, returns (h m)) -> returns (try_except c h).
Proof.
  intros Hc Hh s. unfold try_except. specialize (Hc s).
  destruct (c s) as [[a|m|] s']; simpl in *; try discriminate; auto.
  apply Hh.
Qed.

Lemma returns_record c : returns (record c).
Proof. intros s. simpl. discriminate. Qed.

Lemma returns_elapse d : returns (elapse d).
Proof. intros s. simpl. discriminate. Qed.

Lemma returns_time : returns time_time.
Proof. intros s. simpl. discriminate. Qed.

Lemma returns_sleep d : returns (time_sleep d).
Proof.
  unfold time_sleep. apply returns_bind; [apply returns_record|].
  intros _. apply returns_elapse.
Qed.

Create HintDb frame discriminated.
#[local] Hint Resolve frames_ret frames_raise frames_out_of_fuel frames_time
  frames_record frames_elapse frames_sleep : frame.
#[local] Hint Resolve returns_ret returns_raise returns_time returns_record
  returns_elapse returns_sleep : frame.

Ltac framing :=
  repeat first
    [ progress auto with frame
    | match goal with
      | |- frames (bind _ _) => apply frames_bind; [|intros ?]
      | |- returns (bind _ _) => apply returns_bind; [|intros ?]
      | |- frames (try_except _ _) => apply frames_try; [|intros ?]
      | |- returns (try_except _ _) => apply returns_try; [|intros ?]
      | |- frames (match ?x with _ => _ end) => destruct x
      | |- returns (match ?x with _ => _ end) => destruct x
      | |- frames (if ?x then _ else _) => destruct x
      | |- returns (if ?x then _ else _) => destruct x
      end ].

Section WithWorld.

Variable w : World.

Lemma frames_get url : frames (requests_get w url).
Proof. unfold requests_get. framing. Qed.

Lemma returns_get url : returns (requests_get w url).
Proof. unfold requests_get. framing. Qed.

Lemma frames_post url p : frames (requests_post w url p).
Proof. unfold requests_post. framing. Qed.

Lemma returns_post url p : returns (requests_post w url p).
Proof. unfold requests_post. framing. Qed.

#[local] Hint Resolve frames_get returns_get frames_post returns_post : frame.

Lemma frames_retrying fuel n start url p : frames (retrying w fuel n start url p).
Proof.
  revert n. induction fuel as [|fuel IH]; intros n; simpl; framing.
Qed.

Lemma frames_poll fuel elapsed url : frames (poll w fuel elapsed url).
Proof.
  revert elapsed. induction fuel as [|fuel IH]; intros elapsed; simpl; framing.
Qed.

(** The polling loop is given as many rounds as its deadline has
    seconds: it never runs out. *)
Lemma returns_poll fuel elapsed url :
  timeout <= elapsed + fuel * interval -> returns (poll w fuel elapsed url).
Proof.
  revert elapsed. induction fuel as [|fuel IH]; intros elapsed H; simpl.
  - destruct (Nat.ltb_spec elapsed timeout); [simpl in H; lia|framing].
  - destruct (Nat.ltb_spec elapsed timeout); [|framing].
    framing; apply IH; simpl in H; unfold interval in *; lia.
Qed.

Lemma requests_post_run url p s :
  requests_post w url p s
  = (Ok (status_code (http_post w url p (clock s))),
     mkPState (clock s + took (http_post w url p (clock s))) (task s)
       (commits s) (calls s ++ [(clock s, HttpPost url p)])%list).
Proof. reflexivity. Qed.

Lemma requests_get_run url s :
  requests_get w url s
  = (Ok (status_code (http_get w url (clock s))),
     mkPState (clock s + took (http_get w url (clock s))) (task s)
       (commits s) (calls s ++ [(clock s, HttpGet url)])%list).
Proof. reflexivity. Qed.

Lemma time_sleep_run d s :
  time_sleep d s
  = (Ok tt,
     mkPState (clock s + d) (task s) (commits s)
       (calls s ++ [(clock s, Sleep d)])%list).
Proof. reflexivity. Qed.

Lemma wait_exponential_ge2 n : 2 <= wait_exponential 2 2 16 n.
Proof. unfold wait_exponential. lia. Qed.

Lemma wait_exponential_le16 n : wait_exponential 2 2 16 n <= 16.
Proof. unfold wait_exponential. lia. Qed.

(** The waits of the retry policy: 2, 4, 8, then 16 for good. *)
Lemma wait_exponential_schedule :
  wait_exponential 2 2 16 1 = 2 /\ wait_exponential 2 2 16 2 = 4 /\
  wait_exponential 2 2 16 3 = 8 /\
  forall n, 4 <= n -> wait_exponential 2 2 16 n = 16.
Proof.
  repeat split. intros n Hn. unfold wait_exponential.
  assert (8 <= 2 ^ N.of_nat (n - 1))%N as P.
  { change 8%N with (2 ^ 3)%N. apply N.pow_le_mono_r; lia. }
  lia.
Qed.

(** Every retry sleeps at least two seconds and none starts once 600
    seconds have passed, so 301 attempts are never used up. *)
Lemma retrying_returns fuel n start url p s :
  1 <= fuel -> start <= clock s -> 602 <= (clock s - start) + 2 * fuel ->
  fst (retrying w fuel n start url p s) <> OutOfFuel.
Proof.
  revert n s. induction fuel as [|fuel IH]; intros n s Hf Hs Hb; [lia|].
  simpl. unfold bind at 1. rewrite requests_post_run.
  set (r := http_post w url p (clock s)).
  set (s1 := mkPState _ _ _ _).
  assert (fst ((now <- time_time ;;
                if stop_after_delay 600 (now - start)
                then raise (retry_error_str w)
                else time_sleep (wait_exponential 2 2 16 n) ;;
                     retrying w fuel (S n) start url p) s1) <> OutOfFuel) as K.
  { unfold bind at 1, time_time. cbv iota beta.
    unfold stop_after_delay.
    destruct (Nat.leb_spec 600 (clock s1 - start)) as [L|L];
      [unfold raise; cbn [fst]; discriminate|].
    unfold bind at 1. rewrite time_sleep_run.
    pose proof (wait_exponential_ge2 n) as W2.
    subst s1. cbn [clock] in L |- *. apply IH; cbn [clock]; lia. }
  destruct (is_200 (status_code r)); [unfold ret; cbn [fst]; discriminate|exact K].
Qed.

Lemma post_with_retry_returns url p : returns (post_with_retry w url p).
Proof.
  intros s. unfold post_with_retry, bind, time_time. cbv iota beta.
  apply retrying_returns; unfold retry_fuel; lia.
Qed.

Lemma frames_post_with_retry url p : frames (post_with_retry w url p).
Proof.
  unfold post_with_retry. framing. apply frames_retrying.
Qed.

#[local] Hint Resolve frames_post_with_retry post_with_retry_returns : frame.

Lemma frames_build t : frames (build_evaluation_payload w t).
Proof. unfold build_evaluation_payload. framing. Qed.

Lemma returns_build t : returns (build_evaluation_payload w t).
Proof. unfold build_evaluation_payload. framing. Qed.

#[local] Hint Resolve frames_build returns_build : frame.

Lemma frames_notify_evaluator t start : frames (notify_evaluator w t start).
Proof. unfold notify_evaluator. framing. Qed.

Lemma returns_notify_evaluator t start : returns (notify_evaluator w t start).
Proof. unfold notify_evaluator. framing. Qed.

Lemma frames_enable_github_pages t tok : frames (enable_github_pages w t tok).
Proof. unfold enable_github_pages. framing. Qed.

Lemma returns_enable_github_pages t tok : returns (enable_github_pages w t tok).
Proof. unfold enable_github_pages. framing. Qed.

Lemma frames_verify_pages_deployment t : frames (verify_pages_deployment w t).
Proof.
  unfold verify_pages_deployment.
  destruct (negb _); [framing|].
  destruct (Py.split _ _) as [|owner [|repo [|x l]]]; try framing.
  apply frames_poll.
Qed.

Lemma returns_verify_pages_deployment t : returns (verify_pages_deployment w t).
Proof.
  unfold verify_pages_deployment.
  destruct (negb _); [framing|].
  destruct (Py.split _ _) as [|owner [|repo [|x l]]]; try framing.
  apply returns_poll. unfold timeout, interval. lia.
Qed.

Lemma frames_create_github_repo t tok : frames (create_github_repo w t tok).
Proof. unfold create_github_repo. framing. Qed.

Lemma returns_create_github_repo t tok : returns (create_github_repo w t tok).
Proof. unfold create_github_repo. framing. Qed.

Lemma frames_push_to_github t lp url tok : frames (push_to_github w t lp url tok).
Proof. unfold push_to_github. framing. Qed.

Lemma returns_push_to_github t lp url tok : returns (push_to_github w t lp url tok).
Proof. unfold push_to_github. framing. Qed.

#[local] Hint Resolve frames_notify_evaluator returns_notify_evaluator
  frames_enable_github_pages returns_enable_github_pages
  frames_verify_pages_deployment returns_verify_pages_deployment
  frames_create_github_repo returns_create_github_repo
  frames_push_to_github returns_push_to_github : frame.

(** ** A program logic for runs *)

(** [triple P c Q E]: from a state satisfying [P], [c] returns a value
    and a state satisfying [Q], or raises a description and leaves a
    state satisfying [E]; it does not run out of fuel. *)
Definition triple {A} (P : pstate -> Prop) (c : M A)
    (Q : A -> pstate -> Prop) (E : string -> pstate -> Prop) : Prop :=
  forall s, P s ->
    match c s with
    | (Ok a, s') => Q a s'
    | (Raise m, s') => E m s'
    | (OutOfFuel, _) => False
    end.

Lemma triple_bind {A B} P (c : M A) Q (k : A -> M B) R E :
  triple P c Q E -> (forall a, triple (Q a) (k a) R E) ->
  triple P (bind c k) R E.
Proof.
  intros Hc Hk s Hs. unfold bind. specialize (Hc s Hs).
  destruct (c s) as [[a|m|] s']; auto. now apply Hk.
Qed.

Lemma triple_weaken {A} (P P' : pstate -> Prop) (c : M A) (Q Q' : A -> pstate -> Prop)
    (E E' : string -> pstate -> Prop) :
  triple P' c Q' E' -> (forall s, P s -> P' s) ->
  (forall a s, Q' a s -> Q a s) -> (forall m s, E' m s -> E m s) ->
  triple P c Q E.
Proof.
  intros H HP HQ HE s Hs. specialize (H s (HP s Hs)).
  destruct (c s) as [[a|m|] s']; auto.
Qed.

(** A predicate that only looks at the loaded row and at the commits. *)
Definition local (P : pstate -> Prop) : Prop :=
  forall s s', task s' = task s -> commits s' = commits s -> P s -> P s'.

(** A framing computation keeps a local predicate, and its outcome is the
    one of a run from a state satisfying it. *)
Lemma triple_frame {A} (P : pstate -> Prop) (c : M A) :
  local P -> frames c -> returns c ->
  triple P c
    (fun a s' => P s' /\ exists s, P s /\ fst (c s) = Ok a)
    (fun m s' => P s' /\ exists s, P s /\ fst (c s) = Raise m).
Proof.
  intros L F R s Hs. specialize (F s). specialize (R s).
  destruct (c s) as [[a|m|] s'] eqn:C; simpl in *; [| |congruence];
    destruct F as [F1 F2]; (split; [now apply (L s s')|]);
    exists s; rewrite C; auto.
Qed.

Lemma triple_modify_commit (f : Task -> Task) (P : pstate -> Prop)
    (Q : unit -> pstate -> Prop) E :
  (forall s, P s ->
     Q tt (mkPState (clock s) (f (task s)) (commits s ++ [f (task s)])%list
             (calls s))) ->
  triple P (modify_task f ;; db_commit) Q E.
Proof. intros H s Hs. simpl. now apply H. Qed.

Lemma triple_get_task (P : pstate -> Prop) E :
  triple P get_task (fun t s => P s /\ t = task s) E.
Proof. intros s Hs. simpl. auto. Qed.

Lemma triple_ret {A} (a : A) (P : pstate -> Prop) E :
  triple P (ret a) (fun x s => P s /\ x = a) E.
Proof. intros s Hs. simpl. auto. Qed.

Lemma frames_get_task : frames get_task.
Proof. intros s. simpl. auto. Qed.

Lemma returns_get_task : returns get_task.
Proof. intros s. simpl. discriminate. Qed.

#[local] Hint Resolve frames_get_task returns_get_task : frame.

Lemma frames_write_project_files : frames (write_project_files w).
Proof. unfold write_project_files. framing. Qed.

Lemma returns_write_project_files : returns (write_project_files w).
Proof. unfold write_project_files. framing. Qed.

#[local] Hint Resolve frames_write_project_files returns_write_project_files
  : frame.

(** ** The statuses a run commits *)

(** [upto k l]: [l] lists the statuses committed by a run that is in its
    [k]-th stage: every stage from the first to the [k]-th, in order,
    each one or more times. *)
Inductive upto : nat -> list string -> Prop :=
| upto_first : upto 1 [stage 1]
| upto_same k l : upto k l -> upto k (l ++ [stage k])%list
| upto_next k l : upto k l -> k < 6 -> upto (S k) (l ++ [stage (S k)])%list.

Lemma upto_range k l : upto k l -> 1 <= k <= 6.
Proof. induction 1; lia. Qed.

Section Invariant.

(** A property of rows kept by every write a run can make before it
    ends. *)
Variable phi : Task -> Prop.
Hypothesis phi_status : forall st t, phi t -> phi (set_status st t).
Hypothesis phi_repo_url : forall v t, phi t -> phi (set_repo_url v t).
Hypothesis phi_pages_url : forall v t, phi t -> phi (set_pages_url v t).
Hypothesis phi_commit_sha :
  (exists lp author msg url out, git_run w lp author msg url = Some out) ->
  forall v t, phi t -> phi (set_commit_sha v t).

Definition Inv (k : nat) (s : pstate) : Prop :=
  upto k (map status (commits s)) /\ status (task s) = stage k /\
  Forall phi (commits s) /\ phi (task s).

Lemma Inv_local k : local (Inv k).
Proof.
  intros s s' Ht Hc (H1 & H2 & H3 & H4). unfold Inv. rewrite Ht, Hc. auto.
Qed.

(** Where the description of an exception caught by [process_task] can
    come from, by the stage the run is in. *)
Inductive helper_raises : nat -> string -> Prop :=
| hr_files m s :
    phi (task s) -> fst (write_project_files w s) = Raise m ->
    helper_raises 1 m
| hr_create m t tok s :
    phi t -> fst (create_github_repo w t tok s) = Raise m ->
    helper_raises 2 m
| hr_enable m t tok s :
    phi t -> fst (enable_github_pages w t tok s) = Raise m ->
    helper_raises 4 m
| hr_verify m t s :
    phi t -> fst (verify_pages_deployment w t s) = Raise m ->
    helper_raises 5 m
| hr_notify m t start s :
    phi t -> status t = stage 6 ->
    fst (notify_evaluator w t start s) = Raise m -> helper_raises 6 m.

Definition notified : Prop :=
  exists t start s,
    phi t /\ status t = stage 6 /\ fst (notify_evaluator w t start s) = Ok tt.

Definition Raised (k : nat) (m : string) (s : pstate) : Prop :=
  Inv k s /\ helper_raises k m.

Lemma triple_enter k E :
  k < 6 -> triple (Inv k) (enter (stage (S k))) (fun _ => Inv (S k)) E.
Proof.
  intros Hk. unfold enter. apply triple_modify_commit.
  intros s (H1 & H2 & H3 & H4). unfold Inv. simpl.
  rewrite map_app. simpl. repeat split; auto.
  - now apply upto_next.
  - apply Forall_app. split; auto.
Qed.

Lemma triple_store_result k v set E :
  (forall x t, status (set x t) = status t) ->
  (Py.truthy v = true -> forall x t, phi t -> phi (set x t)) ->
  triple (Inv k) (store_result v set) (fun _ => Inv k) E.
Proof.
  intros Hs Hp. unfold store_result.
  destruct (Py.truthy v) eqn:T; [|intros s Hi; exact Hi].
  destruct v as [x|]; [|intros s Hi; exact Hi].
  apply triple_modify_commit.
  intros s (H1 & H2 & H3 & H4). unfold Inv. simpl.
  rewrite map_app. simpl. rewrite !Hs, H2. repeat split; auto.
  - now apply upto_same.
  - apply Forall_app. split; auto.
Qed.

Lemma triple_generate_project :
  triple (fun s => commits s = [] /\ phi (task s)) (generate_project w)
    (fun _ => Inv 1) (Raised 1).
Proof.
  unfold generate_project. eapply triple_bind.
  - unfold enter. apply (triple_modify_commit _ _ (fun _ => Inv 1)).
    intros s [Hc Hp]. unfold Inv. simpl. rewrite Hc. simpl.
    repeat split; auto. constructor.
  - intros ?_u; cbv beta. eapply triple_weaken;
      [apply (triple_frame (Inv 1)); auto with frame; apply Inv_local|auto| |].
    + intros a s [H _]. exact H.
    + intros m s [H (s0 & H0 & Hr)]. split; [exact H|].
      apply (hr_files m s0); auto. apply H0.
Qed.

Lemma triple_create_repo tok :
  triple (Inv 1) (create_repo w tok) (fun _ => Inv 2) (Raised 2).
Proof.
  unfold create_repo.
  eapply triple_bind; [apply (triple_enter 1); lia|]. intros ?_u; cbv beta.
  eapply triple_bind; [apply triple_get_task|]. intros t.
  eapply triple_bind.
  - eapply triple_weaken;
      [apply (triple_frame (fun s => Inv 2 s /\ t = task s)
                (create_github_repo w t tok)); auto with frame| | |].
    + intros s s' Ht Hc [H1 H2]. split; [now apply (Inv_local 2 s)|congruence].
    + auto.
    + intros a s H. exact (proj1 (proj1 H)).
    + intros m s [[H Et] (s0 & [H0 E0] & Hr)]. split; [exact H|].
      apply (hr_create m t tok s0); auto. rewrite E0. apply H0.
  - intros repo_url. simpl.
    eapply triple_bind; [apply triple_store_result; auto|].
    intros ?_u s H. simpl. exact H.
Qed.

(** [push_to_github] swallows every failure: it never raises, and it
    returns a commit identifier only when the git commands succeeded. *)
Lemma push_to_github_result t lp url tok s :
  match fst (push_to_github w t lp url tok s) with
  | Ok (Some v) =>
      exists lp author msg u out, git_run w lp author msg u = Some out
  | Ok None => True
  | _ => False
  end.
Proof.
  unfold push_to_github.
  destruct url as [url|]; [|exact I]. destruct tok as [tok|]; [|exact I].
  destruct ((url =? "") || (tok =? "")); [exact I|].
  unfold bind, record. cbv iota beta.
  match goal with |- context [git_run w ?a ?b ?c ?d] =>
    destruct (git_run w a b c d) as [out|] eqn:G end; simpl; [|exact I].
  eauto 6.
Qed.

Lemma triple_push_commit tok repo_url :
  triple (Inv 2) (push_commit w tok repo_url) (fun _ => Inv 3) (Raised 3).
Proof.
  unfold push_commit.
  eapply triple_bind; [apply (triple_enter 2); lia|]. intros ?_u; cbv beta.
  eapply triple_bind; [apply triple_get_task|]. intros t.
  eapply triple_bind.
  - eapply triple_weaken;
      [apply (triple_frame (Inv 3) (push_to_github w t (tmpdir w) repo_url tok));
       auto with frame; apply Inv_local| | |].
    + intros s H. exact (proj1 H).
    + intros a s H. exact H.
    + intros m s [_ (s0 & _ & Hr)]. exfalso.
      pose proof (push_to_github_result t (tmpdir w) repo_url tok s0) as R.
      rewrite Hr in R. exact R.
  - intros commit_sha. cbv beta.
    eapply triple_weaken with (P' := fun s => Inv 3 s /\
        exists s0, fst (push_to_github w t (tmpdir w) repo_url tok s0)
                   = Ok commit_sha); [| |intros a s H; exact H|intros m s H; exact H].
    + intros s [Hi (s0 & Hr)].
      pose proof (push_to_github_result t (tmpdir w) repo_url tok s0) as R.
      rewrite Hr in R.
      refine (triple_store_result 3 commit_sha set_commit_sha (Raised 3) _ _ s Hi).
      * reflexivity.
      * intros T. destruct commit_sha as [v|]; [|discriminate].
        now apply phi_commit_sha.
    + intros s [Hi (s0 & _ & Hr)]. split; [exact Hi|]. now exists s0.
Qed.

Lemma triple_enable_pages tok :
  triple (Inv 3) (enable_pages w tok) (fun _ => Inv 4) (Raised 4).
Proof.
  unfold enable_pages.
  eapply triple_bind; [apply (triple_enter 3); lia|]. intros ?_u; cbv beta.
  eapply triple_bind; [apply triple_get_task|]. intros t.
  eapply triple_weaken;
    [apply (triple_frame (fun s => Inv 4 s /\ t = task s)
              (enable_github_pages w t tok)); auto with frame| | |].
  - intros s s' Ht Hc [H1 H2]. split; [now apply (Inv_local 4 s)|congruence].
  - auto.
  - intros a s H. exact (proj1 (proj1 H)).
  - intros m s [[H Et] (s0 & [H0 E0] & Hr)]. split; [exact H|].
    apply (hr_enable m t tok s0); auto. rewrite E0. apply H0.
Qed.

Lemma triple_verify_pages :
  triple (Inv 4) (verify_pages w) (fun _ => Inv 5) (Raised 5).
Proof.
  unfold verify_pages.
  eapply triple_bind; [apply (triple_enter 4); lia|]. intros ?_u; cbv beta.
  eapply triple_bind; [apply triple_get_task|]. intros t.
  eapply triple_bind.
  - eapply triple_weaken;
      [apply (triple_frame (fun s => Inv 5 s /\ t = task s)
                (verify_pages_deployment w t)); auto with frame| | |].
    + intros s s' Ht Hc [H1 H2]. split; [now apply (Inv_local 5 s)|congruence].
    + auto.
    + intros a s H. exact (proj1 (proj1 H)).
    + intros m s [[H Et] (s0 & [H0 E0] & Hr)]. split; [exact H|].
      apply (hr_verify m t s0); auto. rewrite E0. apply H0.
  - intros pages_url. cbv beta. apply triple_store_result; auto.
Qed.

Lemma triple_notify start :
  triple (Inv 5) (notify w start) (fun _ s => Inv 6 s /\ notified) (Raised 6).
Proof.
  unfold notify.
  eapply triple_bind; [apply (triple_enter 5); lia|]. intros ?_u; cbv beta.
  eapply triple_bind; [apply triple_get_task|]. intros t.
  eapply triple_weaken;
    [apply (triple_frame (fun s => Inv 6 s /\ t = task s)
              (notify_evaluator w t start)); auto with frame| | |].
  - intros s s' Ht Hc [H1 H2]. split; [now apply (Inv_local 6 s)|congruence].
  - auto.
  - intros [] s [[H Et] (s0 & [H0 E0] & Hr)]. split; [exact H|].
    destruct H0 as (_ & H2 & _ & H4). rewrite E0 in Hr.
    exists (task s0), start, s0. repeat split; auto.
  - intros m s [[H Et] (s0 & [H0 E0] & Hr)]. split; [exact H|].
    destruct H0 as (_ & H2 & _ & H4). rewrite E0 in Hr.
    apply (hr_notify m (task s0) start s0); auto.
Qed.

Lemma complete_run s :
  complete s
  = (Ok tt,
     mkPState (clock s)
       (set_completed_at (clock s) (set_status "COMPLETE" (task s)))
       (commits s
        ++ [set_completed_at (clock s) (set_status "COMPLETE" (task s))])%list
       (calls s)).
Proof. reflexivity. Qed.

Lemma on_exception_run e s :
  on_exception e s
  = (Ok tt,
     mkPState (clock s) (set_error_message e (set_status "FAILED" (task s)))
       (commits s ++ [set_error_message e (set_status "FAILED" (task s))])%list
       (calls s)).
Proof. reflexivity. Qed.

Lemma stage_seq {A B} P (c : M A) (Q : A -> pstate -> Prop) (k : nat)
    (c' : A -> M B) R :
  triple P c Q (Raised k) ->
  (forall a, triple (Q a) (c' a) R (fun m s => exists k, Raised k m s)) ->
  triple P (bind c c') R (fun m s => exists k, Raised k m s).
Proof.
  intros H1 H2. apply (triple_bind P c Q); [|exact H2].
  apply (triple_weaken P P c Q Q _ (Raised k)); eauto.
Qed.

(** What the body of the [try] can do from a freshly loaded row. *)
Lemma triple_pipeline start :
  triple (fun s => commits s = [] /\ phi (task s))
    (pipeline w (GITHUB_TOKEN w) start)
    (fun _ s =>
       exists s6, (Inv 6 s6 /\ notified) /\ complete s6 = (Ok tt, s))
    (fun m s => exists k, Raised k m s).
Proof.
  unfold pipeline.
  apply (stage_seq _ _ _ 1 _ _ triple_generate_project). intros ?_u.
  apply (stage_seq _ _ _ 2 _ _ (triple_create_repo _)). intros repo_url.
  apply (stage_seq _ _ _ 3 _ _ (triple_push_commit _ _)). intros ?_u.
  apply (stage_seq _ _ _ 4 _ _ (triple_enable_pages _)). intros ?_u.
  apply (stage_seq _ _ _ 5 _ _ triple_verify_pages). intros ?_u.
  apply (stage_seq _ _ _ 6 _ _ (triple_notify start)). intros ?_u.
  intros s H. rewrite complete_run. exists s. split; [exact H|].
  apply complete_run.
Qed.

(** How a run from a freshly loaded row ends: either the body of the
    [try] returned and the last commit is the COMPLETE row, or a
    helper raised in stage [k] and the last commit is the FAILED row. *)
Inductive run_shape (start : nat) (s0 s1 : pstate) : Prop :=
| run_completed s6 :
    Inv 6 s6 -> notified ->
    pipeline w (GITHUB_TOKEN w) start s0 = (Ok tt, s1) ->
    s1 = mkPState (clock s6)
           (set_completed_at (clock s6) (set_status "COMPLETE" (task s6)))
           (commits s6
            ++ [set_completed_at (clock s6) (set_status "COMPLETE" (task s6))])
           (calls s6) ->
    run_shape start s0 s1
| run_failed k m sr :
    Inv k sr -> helper_raises k m ->
    pipeline w (GITHUB_TOKEN w) start s0 = (Raise m, sr) ->
    s1 = mkPState (clock sr)
           (set_error_message m (set_status "FAILED" (task sr)))
           (commits sr ++ [set_error_message m (set_status "FAILED" (task sr))])
           (calls sr) ->
    run_shape start s0 s1.

Lemma run_task_shape start s0 :
  commits s0 = [] -> phi (task s0) ->
  fst (run_task w start s0) = Ok tt /\
  run_shape start s0 (snd (run_task w start s0)).
Proof.
  intros Hc Hp. unfold run_task, try_except.
  pose proof (triple_pipeline start s0 (conj Hc Hp)) as T.
  destruct (pipeline w (GITHUB_TOKEN w) start s0) as [[[]|m|] s'] eqn:P;
    [| |contradiction].
  - destruct T as (s6 & [Hi Hn] & C). simpl. split; [reflexivity|].
    apply (run_completed start s0 s' s6); auto.
    rewrite complete_run in C. congruence.
  - destruct T as (k & Hi & Hr). rewrite on_exception_run. simpl.
    split; [reflexivity|]. now apply (run_failed start s0 _ k m s').
Qed.

End Invariant.

(** ** Shape of the committed statuses *)

Lemma rank_stage k : 1 <= k <= 6 -> rank (stage k) = k /\ terminal (stage k) = false.
Proof.
  intros H. do 7 (destruct k as [|k]; [try lia; split; reflexivity|]). lia.
Qed.

Lemma upto_bounds k l :
  upto k l ->
  Forall (fun st => terminal st = false /\ 1 <= rank st <= k) l.
Proof.
  induction 1 as [|k l U IH|k l U IH Hk].
  - repeat constructor.
  - apply Forall_app. split; [exact IH|]. constructor; [|constructor].
    pose proof (upto_range _ _ U) as R.
    destruct (rank_stage k R) as [-> ->]. lia.
  - apply Forall_app. split.
    + eapply Forall_impl; [|exact IH]. simpl. intros st [H1 H2]. split; auto. lia.
    + constructor; [|constructor].
      pose proof (upto_range _ _ U) as R.
      destruct (rank_stage (S k)) as [-> ->]; lia.
Qed.

Lemma forward_snoc l x k :
  forward l -> Forall (fun st => terminal st = false /\ 1 <= rank st <= k) l ->
  k <= rank x -> forward (l ++ [x])%list.
Proof.
  intros F B Hx i j a b Hij Ha Hb.
  assert (i < List.length l) as Hi.
  { assert (j < List.length (l ++ [x])%list) as Hj
      by (apply nth_error_Some; congruence).
    rewrite length_app in Hj. simpl in Hj. lia. }
  rewrite nth_error_app1 in Ha by exact Hi.
  destruct (Nat.lt_ge_cases j (List.length l)) as [Hj|Hj].
  - rewrite nth_error_app1 in Hb by exact Hj. now apply (F i j).
  - rewrite nth_error_app2 in Hb by exact Hj.
    destruct (j - List.length l) as [|d]; simpl in Hb;
      [|destruct d; discriminate].
    injection Hb as <-.
    rewrite Forall_forall in B. destruct (B a) as [T R].
    { eapply nth_error_In; eassumption. }
    split; [exact T|lia].
Qed.

Lemma upto_forward k l : upto k l -> forward l.
Proof.
  induction 1 as [|k l U IH|k l U IH Hk].
  - intros i j a b Hij Ha Hb. destruct j as [|[|j]]; try discriminate; lia.
  - apply (forward_snoc l _ k IH (upto_bounds _ _ U)).
    destruct (rank_stage k (upto_range _ _ U)) as [-> _]. lia.
  - apply (forward_snoc l _ k IH (upto_bounds _ _ U)).
    destruct (rank_stage (S k)) as [-> _]; [pose proof (upto_range _ _ U)|]; lia.
Qed.

Lemma upto_head k l : upto k l -> exists tl, l = ("GENERATING_PROJECT" :: tl)%list.
Proof.
  induction 1 as [|k l U [tl ->]|k l U [tl ->] Hk].
  - now exists []%list.
  - now exists (tl ++ [stage k])%list.
  - now exists (tl ++ [stage (S k)])%list.
Qed.

Definition anything (t : Task) : Prop := True.

Lemma run_task_shape_any start s0 :
  commits s0 = [] ->
  fst (run_task w start s0) = Ok tt /\
  run_shape anything start s0 (snd (run_task w start s0)).
Proof.
  intros Hc. apply run_task_shape; unfold anything; auto.
Qed.

(** C3 (as amended): a run is gated on the row existing and on nothing
    else.  When the row does not exist nothing is written.  When it
    exists, whatever its status, the run first commits
    GENERATING_PROJECT; the statuses it commits then only move forward
    (no status is followed by one that ranks before it, and nothing is
    committed after COMPLETE or FAILED); the run ends, and the last
    status committed is terminal. *)
Theorem run_is_forward_only (task_id : nat) (db : Store.t) (now : nat) :
  match process_task w task_id db now with
  | None =>
      Store.first (fun r => (id r =? task_id)%nat) db = None /\
      db_after w task_id db now = db
  | Some (r, s) =>
      r = Ok tt /\
      exists sts last,
        map status (commits s) = ("GENERATING_PROJECT" :: sts ++ [last])%list /\
        terminal last = true /\ status (task s) = last /\
        forward (map status (commits s))
  end.
Proof.
  unfold db_after, process_task.
  destruct (Store.first _ db) as [t|]; [|split; reflexivity].
  destruct (run_task_shape_any now (mkPState now t [] []) eq_refl) as [Hr Hs].
  destruct (run_task w now _) as [r s]. simpl in Hr, Hs. split; [exact Hr|].
  destruct Hs as [s6 (U & St & _ & _) _ _ ->|k m sr (U & St & _ & _) _ _ ->];
    simpl; rewrite map_app; simpl;
    destruct (upto_head _ _ U) as [tl E]; rewrite E in *; simpl.
  - exists tl, "COMPLETE". do 3 (split; [reflexivity|]).
    apply (forward_snoc ("GENERATING_PROJECT" :: tl) _ 6
             (upto_forward _ _ U) (upto_bounds _ _ U)).
    change (rank "COMPLETE") with 7. lia.
  - exists tl, "FAILED". do 3 (split; [reflexivity|]).
    apply (forward_snoc ("GENERATING_PROJECT" :: tl) _ k
             (upto_forward _ _ U) (upto_bounds _ _ U)).
    pose proof (upto_range _ _ U). change (rank "FAILED") with 7. lia.
Qed.


End WithWorld.

(** Against C3 as first stated: a run on the completed row of
    Scenario C, without credentials; the row leaves COMPLETE, goes
    through the stages again and ends FAILED. *)
Lemma completed_row_is_run_again :
  Store.first (fun r => (id r =? 1)%nat) [Scenario.row_a_complete]
  = Some Scenario.row_a_complete /\
  terminal (status Scenario.row_a_complete) = true /\
  option_map (fun x => map status (commits (snd x)))
    (process_task Scenario.offline 1 [Scenario.row_a_complete] 500)
  = Some ["GENERATING_PROJECT"; "CREATE_REPO"; "PUSH_COMMIT"; "ENABLE_PAGES";
          "VERIFY_PAGES"; "VERIFY_PAGES"; "NOTIFY_EVALUATOR"; "FAILED"] /\
  map status (db_after Scenario.offline 1 [Scenario.row_a_complete] 500)
  = ["FAILED"].
Proof. vm_compute. repeat split. Qed.


(** ** What the helpers can raise *)

Section Raises.

Variable w : World.

Lemma write_project_files_raises s m :
  fst (write_project_files w s) = Raise m -> fs_write w (task s) = Some m.
Proof.
  unfold write_project_files, bind, get_task, record. cbv iota beta.
  cbn [task]. destruct (fs_write w (task s)); simpl; congruence.
Qed.

Lemma create_github_repo_raises t tok s m :
  fst (create_github_repo w t tok s) = Raise m ->
  exists token name description,
    github_create_repo w token name description = inr m.
Proof.
  unfold create_github_repo. destruct tok as [token|]; [|discriminate].
  destruct (token =? ""); [discriminate|].
  unfold bind, record. cbv iota beta.
  match goal with |- context [github_create_repo w ?a ?b ?c] =>
    destruct (github_create_repo w a b c) as [u|e] eqn:G end; simpl;
    [discriminate|].
  intros [= <-]. eauto.
Qed.

Lemma enable_github_pages_raises t tok s m :
  fst (enable_github_pages w t tok s) = Raise m ->
  exists token name, github_pages w token name = Some m.
Proof.
  unfold enable_github_pages. destruct tok as [token|]; [|discriminate].
  destruct (repo_url t) as [url|]; [|discriminate].
  destruct ((token =? "") || (url =? "")); [discriminate|].
  unfold bind, record. cbv iota beta.
  destruct (github_pages w token (repo_full_name_of url)) as [e|] eqn:G; simpl;
    [|discriminate].
  intros [= <-]. eauto.
Qed.

Lemma poll_never_raises fuel elapsed url s m :
  fst (poll w fuel elapsed url s) <> Raise m.
Proof.
  revert elapsed s. induction fuel as [|fuel IH]; intros elapsed s; simpl.
  - destruct (elapsed <? timeout)%nat; discriminate.
  - destruct (elapsed <? timeout)%nat; [|discriminate].
    unfold bind at 1. rewrite requests_get_run.
    destruct (is_200 _); [discriminate|].
    unfold bind at 1. rewrite time_sleep_run. apply IH.
Qed.

Lemma verify_pages_deployment_raises t s m :
  fst (verify_pages_deployment w t s) = Raise m -> exists n, m = unpack_error n.
Proof.
  unfold verify_pages_deployment. destruct (negb _); [discriminate|].
  destruct (Py.split _ _) as [|owner [|repo [|x l]]];
    try (intros [= <-]; eauto).
  intros H. exfalso. exact (poll_never_raises _ _ _ _ _ H).
Qed.

Lemma unpack_error_nonempty n : unpack_error n <> "".
Proof. unfold unpack_error. destruct (n <? 2)%nat; discriminate. Qed.

(** Without all three result fields the notifier raises at once. *)
Lemma notify_evaluator_missing t start s :
  Py.truthy (pages_url t) = false \/ Py.truthy (repo_url t) = false
  \/ Py.truthy (commit_sha t) = false ->
  notify_evaluator w t start s
  = (Raise "Missing required fields for evaluation notification.", s).
Proof.
  intros H. unfold notify_evaluator.
  destruct H as [H|[H|H]]; rewrite H; simpl; rewrite ?orb_true_r; reflexivity.
Qed.

(** With the result fields but neither a callback URL nor an
    [error_message] it raises at once as well. *)
Lemma notify_evaluator_no_url t start s :
  Py.truthy (pages_url t) = true -> Py.truthy (repo_url t) = true ->
  Py.truthy (commit_sha t) = true ->
  Py.truthy (evaluation_url t) = false -> Py.truthy (error_message t) = false ->
  notify_evaluator w t start s = (Raise "No evaluation_url found for task.", s).
Proof.
  intros H1 H2 H3 Hu He. unfold notify_evaluator.
  rewrite H1, H2, H3, Hu, He. simpl.
  destruct (evaluation_url t) as [u|]; [|reflexivity].
  simpl in Hu. apply negb_false_iff in Hu. now rewrite Hu.
Qed.

Lemma notify_evaluator_without_callback t start s :
  evaluation_url t = None -> error_message t = None ->
  exists m, notify_evaluator w t start s = (Raise m, s).
Proof.
  intros Hu He.
  destruct (Py.truthy (pages_url t)) eqn:T1;
    [|eexists; apply notify_evaluator_missing; auto].
  destruct (Py.truthy (repo_url t)) eqn:T2;
    [|eexists; apply notify_evaluator_missing; auto].
  destruct (Py.truthy (commit_sha t)) eqn:T3;
    [|eexists; apply notify_evaluator_missing; auto].
  eexists. apply notify_evaluator_no_url; auto; rewrite ?Hu, ?He; reflexivity.
Qed.

(** A status among those committed in stage [k] is one of the first
    [k] stages. *)
Lemma upto_reached k l st : upto k l -> In st l -> rank st <= k.
Proof.
  intros U H. pose proof (upto_bounds _ _ U) as B.
  rewrite Forall_forall in B. destruct (B _ H) as [_ R]. lia.
Qed.

(** C8: take a row whose [commit_sha] is unset, and a run that reaches
    PUSH_COMMIT with git commands that fail (the descriptions of the
    exceptions of the publication API being non-empty).
    [push_to_github] then returns no commit identifier, nothing is
    written to [commit_sha], and the run ends with the row FAILED and a
    non-empty [error_message]: when neither ENABLE_PAGES nor
    VERIFY_PAGES raises first, the notifier does, for want of a commit
    identifier. *)
Theorem failed_push_fails_task (now : nat) (t : Task) :
  commit_sha t = None ->
  (forall lp author msg url, git_run w lp author msg url = None) ->
  (forall token name m, github_pages w token name = Some m -> m <> "") ->
  let s := snd (run_task w now (mkPState now t [] [])) in
  In "PUSH_COMMIT" (map status (commits s)) ->
  fst (run_task w now (mkPState now t [] [])) = Ok tt /\
  status (task s) = "FAILED" /\
  (exists m, error_message (task s) = Some m /\ m <> "") /\
  commit_sha (task s) = None /\
  Forall (fun row => commit_sha row = None) (commits s).
Proof.
  intros Hsha Hgit Hpages s Hpush.
  destruct (run_task_shape w (fun r => commit_sha r = None))
    with (start := now) (s0 := mkPState now t [] []) as [Hr Hs]; auto.
  { intros (lp & a & msg & u & out & G). rewrite Hgit in G. discriminate. }
  split; [exact Hr|]. fold s in Hs.
  destruct Hs as [s6 _ (t6 & st & s0 & Hp & _ & Hn) _ _
                 |k m sr (U & _ & Hall & Hp) Hm _ E].
  - exfalso. rewrite notify_evaluator_missing in Hn; [discriminate|].
    right. right. now rewrite Hp.
  - rewrite E in Hpush |- *. simpl in Hpush |- *.
    rewrite map_app, in_app_iff in Hpush. simpl in Hpush.
    assert (3 <= k) as Hk.
    { destruct Hpush as [H|[H|[]]]; [|discriminate].
      apply (upto_reached _ _ _ U H). }
    split; [reflexivity|]. split; [|split].
    + exists m. split; [reflexivity|].
      destruct Hm as [m s0 _ H|m t0 tok s0 _ H|m t0 tok s0 _ H|m t0 s0 _ H
                     |m t0 st s0 H0 _ H]; try lia.
      * apply enable_github_pages_raises in H. destruct H as (a & b & H).
        now apply (Hpages _ _ _ H).
      * apply verify_pages_deployment_raises in H. destruct H as [n ->].
        apply unpack_error_nonempty.
      * rewrite notify_evaluator_missing in H by (right; right; now rewrite H0).
        simpl in H. injection H as <-. discriminate.
    + exact Hp.
    + apply Forall_app. split; [exact Hall|]. constructor; [exact Hp|constructor].
Qed.

End Raises.

(** ** The Deployment Verifier *)

Section Verifier.

Variable w : World.

(** The calls of a polling loop that has made [n] polls and makes the
    next one at time [now]: a poll answered 200 ends it; any other poll
    is followed by a ten-second sleep; after thirty polls it stops. *)
Inductive polled (url : string) : nat -> nat -> list (nat * call) -> Prop :=
| polled_live n now :
    n < 30 -> is_200 (status_code (http_get w url now)) = true ->
    polled url n now [(now, HttpGet url)]
| polled_again n now log :
    n < 30 -> is_200 (status_code (http_get w url now)) = false ->
    polled url (S n) (now + took (http_get w url now) + 10) log ->
    polled url n now
      ((now, HttpGet url)
       :: (now + took (http_get w url now), Sleep 10) :: log)
| polled_deadline now : polled url 30 now [].

Definition is_get (e : nat * call) : bool :=
  match snd e with HttpGet _ => true | _ => false end.

Definition slept (e : nat * call) : nat :=
  match snd e with Sleep d => d | _ => 0 end.

Lemma polled_bounds url n now log :
  polled url n now log ->
  n + List.length (filter is_get log) <= 30 /\
  10 * n + list_sum (map slept log) <= 300.
Proof.
  induction 1 as [n now Hn H|n now log Hn H P IH|now]; simpl; lia.
Qed.

Lemma poll_polled fuel n url s :
  n <= 30 -> 30 <= n + fuel ->
  exists s' log,
    poll w fuel (10 * n) url s = (Ok (Some url), s') /\
    calls s' = (calls s ++ log)%list /\ polled url n (clock s) log.
Proof.
  revert n s. induction fuel as [|fuel IH]; intros n s Hn Hf.
  - assert (n = 30) as -> by lia. exists s, []%list. simpl.
    rewrite app_nil_r. repeat split. constructor.
  - cbn [poll]. destruct (Nat.ltb_spec (10 * n) timeout) as [L|L].
    + unfold timeout in L. unfold bind at 1. rewrite requests_get_run.
      destruct (is_200 (status_code (http_get w url (clock s)))) eqn:R.
      * eexists _, _. split; [reflexivity|]. cbn [calls].
        split; [reflexivity|]. apply polled_live; [lia|exact R].
      * unfold bind at 1. rewrite time_sleep_run.
        replace (10 * n + interval) with (10 * S n) by (unfold interval; lia).
        match goal with |- context [poll w fuel _ url ?st] =>
          destruct (IH (S n) st) as (s' & log & E & C & P); [lia|lia|] end.
        exists s', ((clock s, HttpGet url)
                    :: (clock s + took (http_get w url (clock s)), Sleep 10)
                    :: log)%list.
        split; [exact E|]. cbn [calls clock] in C, P. split.
        -- rewrite C, <- !app_assoc. reflexivity.
        -- apply polled_again; [lia|exact R|exact P].
    + unfold timeout in L. assert (n = 30) as -> by lia.
      exists s, []%list. rewrite app_nil_r. repeat split. constructor.
Qed.

(** The verifier where it reads the repository right: the clone URL
    https://github.com/owner/repo.git (owner and repo
    free of dots and slashes) is read back as [owner] and [repo]; and
    for a row whose [repo_url] is read as [owner] and [repo], the
    verifier returns https://owner.github.io/repo/ whether or not a
    poll ever succeeded, with nothing in the result that tells the two
    cases apart: it polls that URL, stops at the first 200, sleeps ten
    seconds after every other reply, and makes at most thirty polls
    (at most 300 seconds of sleep). *)
Theorem verifier_polls_then_returns_url :
  (forall owner repo,
     Py.has "." owner = false -> Py.has "/" owner = false ->
     Py.has "." repo = false -> Py.has "/" repo = false ->
     Py.split
       (repo_full_name_of
          ("https://github.com/" ++ owner ++ "/" ++ repo ++ ".git")) "/"
     = [owner; repo]) /\
  (forall (t : Task) (u owner repo : string) (s : pstate),
     repo_url t = Some u -> u <> "" ->
     Py.split (repo_full_name_of u) "/" = [owner; repo] ->
     let pages_url := "https://" ++ owner ++ ".github.io/" ++ repo ++ "/" in
     exists s' log,
       verify_pages_deployment w t s = (Ok (Some pages_url), s') /\
       calls s' = (calls s ++ log)%list /\
       polled pages_url 0 (clock s) log /\
       List.length (filter is_get log) <= 30 /\
       list_sum (map slept log) <= 300).
Proof.
  split; [intros owner repo; apply PyFacts.clone_url_names|].
  intros t u owner repo s Hu Hne Hsplit pages_url.
  unfold verify_pages_deployment.
  rewrite Hu. cbn [Py.truthy].
  destruct (String.eqb_spec u "") as [E|_]; [contradiction|]. cbn [negb].
  rewrite Hsplit. fold pages_url.
  destruct (poll_polled timeout 0 pages_url s) as (s' & log & E & C & P);
    [lia|unfold timeout; lia|].
  exists s', log. change (10 * 0) with 0 in E.
  pose proof (polled_bounds _ _ _ _ P). repeat split; auto; lia.
Qed.

End Verifier.

Lemma verifier_polls_then_returns_url_witness :
  exists s' log,
    verify_pages_deployment Scenario.offline Scenario.row_with_callback
      (mkPState 20 Scenario.row_with_callback [] [])
    = (Ok (Some "https://alice.github.io/student-task-n-001-1-c0ffee/"), s') /\
    calls s' = log /\ List.length (filter is_get log) <= 30.
Proof.
  destruct (verifier_polls_then_returns_url Scenario.offline) as [N V].
  destruct (V Scenario.row_with_callback
              "https://github.com/alice/student-task-n-001-1-c0ffee.git"
              "alice" "student-task-n-001-1-c0ffee"
              (mkPState 20 Scenario.row_with_callback [] []))
    as (s' & log & H1 & H2 & _ & H3 & _).
  - reflexivity.
  - discriminate.
  - apply (N "alice" "student-task-n-001-1-c0ffee"); reflexivity.
  - exists s', log. auto.
Defined.

(** C7, the code at an input where it departs from the claim: a
    submission whose nonce is [v1.git].  [create_github_repo] names the
    repository student-task-v1.git-1-c0ffee and returns its clone URL;
    on the row that carries this [repo_url] the verifier removes every
    [.git] of the name, not only the suffix of the URL: it makes its
    thirty polls on https://alice.github.io/student-task-v1-1-c0ffee/,
    the site of another repository, and returns that URL, where the
    publication URL of the repository is
    https://alice.github.io/student-task-v1.git-1-c0ffee/. *)
Lemma verifier_reads_another_repository :
  fst (create_github_repo Scenario.evaluator_down Scenario.row_dotgit
         (Some "ghp_token") (mkPState 10 Scenario.row_dotgit [] []))
  = Ok (Some "https://github.com/alice/student-task-v1.git-1-c0ffee.git") /\
  fst (verify_pages_deployment Scenario.evaluator_down
         Scenario.row_dotgit_created
         (mkPState 20 Scenario.row_dotgit_created [] []))
  = Ok (Some "https://alice.github.io/student-task-v1-1-c0ffee/") /\
  filter is_get
    (calls (snd (verify_pages_deployment Scenario.evaluator_down
                   Scenario.row_dotgit_created
                   (mkPState 20 Scenario.row_dotgit_created [] []))))
  = map (fun at_ =>
           (at_, HttpGet "https://alice.github.io/student-task-v1-1-c0ffee/"))
      (map (fun k => 20 + 10 * k) (seq 0 30)).
Proof. repeat split; vm_compute; reflexivity. Qed.

(** ** The Evaluator Notifier *)

Section Notifier.

Variable w : World.

(** The calls of [post_with_retry]: POSTs of one payload to one URL,
    and the sleeps between them. *)
Definition post_or_sleep (url : string) (p : EvaluationPayload)
    (e : nat * call) : Prop :=
  snd e = HttpPost url p \/ exists d, snd e = Sleep d.

Lemma retrying_calls fuel n start url p s :
  exists log,
    calls (snd (retrying w fuel n start url p s)) = (calls s ++ log)%list /\
    Forall (post_or_sleep url p) log /\
    (0 < fuel -> exists log', log = ((clock s, HttpPost url p) :: log')%list).
Proof.
  revert n s. induction fuel as [|fuel IH]; intros n s.
  - exists []%list. simpl. rewrite app_nil_r. repeat split; [constructor|lia].
  - cbn [retrying]. unfold bind at 1. rewrite requests_post_run.
    destruct (is_200 _).
    + exists [(clock s, HttpPost url p)]. simpl. repeat split.
      * repeat constructor.
      * intros _. now exists []%list.
    + unfold bind at 1, time_time. cbv iota beta.
      destruct (stop_after_delay 600 _).
      * exists [(clock s, HttpPost url p)]. simpl. repeat split.
        -- repeat constructor.
        -- intros _. now exists []%list.
      * unfold bind at 1. rewrite time_sleep_run.
        cbn [calls clock task commits].
        match goal with |- context [retrying w fuel ?a start url p ?st] =>
          destruct (IH a st) as (log & C & F & _) end.
        cbn [calls clock task commits] in C.
        eexists ((clock s, HttpPost url p) :: (_, Sleep _) :: log)%list.
        split; [rewrite C, <- !app_assoc; reflexivity|]. split.
        -- constructor; [now left|].
           constructor; [right; eexists; reflexivity|exact F].
        -- intros _. eauto.
Qed.

(** The URL the notifier posts to: the row's [evaluation_url], or, when
    that is missing, its [error_message]. *)
Definition callback_of (t : Task) : option string :=
  if Py.truthy (evaluation_url t) then evaluation_url t
  else if Py.truthy (error_message t) then error_message t
  else None.

(** C6 (as amended): the notifier raises at once, leaving the state as
    it is (so without any POST), when one of [repo_url], [commit_sha],
    [pages_url] is missing, and when the row has neither an
    [evaluation_url] nor an [error_message].  Otherwise the callback is
    the [evaluation_url], or the [error_message] when there is no
    [evaluation_url]; once the payload made of the row's email, task
    name, round, nonce, repo_url, commit_sha and pages_url passes
    validation, the first call is a POST to that callback of that
    payload as validation returns it (its [.dict()]), and every later
    call is the same POST or a sleep. *)
Theorem notifier_contract (t : Task) (start : nat) (s : pstate) :
  (Py.truthy (pages_url t) = false \/ Py.truthy (repo_url t) = false
   \/ Py.truthy (commit_sha t) = false ->
   notify_evaluator w t start s
   = (Raise "Missing required fields for evaluation notification.", s)) /\
  (Py.truthy (pages_url t) = true -> Py.truthy (repo_url t) = true ->
   Py.truthy (commit_sha t) = true -> callback_of t = None ->
   notify_evaluator w t start s
   = (Raise "No evaluation_url found for task.", s)) /\
  (forall r c url,
     Py.truthy (pages_url t) = true -> Py.truthy (repo_url t) = true ->
     Py.truthy (commit_sha t) = true ->
     repo_url t = Some r -> commit_sha t = Some c ->
     callback_of t = Some url ->
     let payload :=
       mkEvaluationPayload (email t) (task_name t) (round t) (nonce t) r c
         (pages_url t) in
     pydantic_error w payload = None ->
     exists log,
       calls (snd (notify_evaluator w t start s))
       = (calls s ++ (clock s, HttpPost url (pydantic_dict w payload)) :: log)%list /\
       Forall (post_or_sleep url (pydantic_dict w payload)) log).
Proof.
  split; [apply notify_evaluator_missing|]. split.
  - intros H1 H2 H3 Hc. unfold callback_of in Hc.
    destruct (Py.truthy (evaluation_url t)) eqn:Tu.
    + rewrite Hc in Tu. discriminate.
    + destruct (Py.truthy (error_message t)) eqn:Te.
      * rewrite Hc in Te. discriminate.
      * now apply notify_evaluator_no_url.
  - intros r c url H1 H2 H3 Hr Hc Hcb payload Hv.
    unfold notify_evaluator. rewrite H1, H2, H3. cbn [negb orb].
    assert ((if negb (Py.truthy (evaluation_url t))
                && Py.truthy (error_message t)
             then error_message t else evaluation_url t) = Some url
            /\ url <> "") as [-> Hne].
    { unfold callback_of in Hcb.
      destruct (Py.truthy (evaluation_url t)) eqn:Tu; cbn [negb andb].
      - split; [exact Hcb|]. rewrite Hcb in Tu. simpl in Tu.
        intros ->. discriminate.
      - destruct (Py.truthy (error_message t)) eqn:Te; [|discriminate].
        split; [exact Hcb|]. rewrite Hcb in Te. simpl in Te.
        intros ->. discriminate. }
    destruct (String.eqb_spec url "") as [E|_]; [contradiction|].
    unfold build_evaluation_payload. rewrite Hr, Hc. fold payload. rewrite Hv.
    unfold bind at 1, ret. cbv iota beta.
    unfold bind at 1, time_time. cbv iota beta.
    unfold try_except, post_with_retry.
    unfold bind at 1, time_time. cbv iota beta.
    destruct (retrying_calls retry_fuel 1 (clock s) url
                (pydantic_dict w payload) s)
      as (log & C & F & [log' ->]); [unfold retry_fuel; lia|].
    inversion F as [|? ? _ F']; subst.
    exists log'. split; [|exact F'].
    destruct (retrying w retry_fuel 1 (clock s) url (pydantic_dict w payload) s)
      as [[[]|m|] s']; exact C.
Qed.

End Notifier.

Lemma notifier_contract_witness :
  exists log,
    calls (snd (notify_evaluator Scenario.rewriting Scenario.row_upper_case 0
                  (mkPState 300 Scenario.row_upper_case [] [])))
    = ((300,
        HttpPost "https://evaluator.example/notify"
          (mkEvaluationPayload "Ann@example.com" "portfolio" 1 "n-001"
             "https://github.com/alice/student-task-n-001-1-c0ffee.git"
             "0a1b2c3"
             (Some "https://alice.github.io/student-task-n-001-1-c0ffee/")))
       :: log)%list.
Proof.
  destruct (notifier_contract Scenario.rewriting Scenario.row_upper_case 0
              (mkPState 300 Scenario.row_upper_case [] []))
    as (_ & _ & H).
  destruct (H "https://github.com/alice/student-task-n-001-1-c0ffee.git"
              "0a1b2c3" "https://evaluator.example/notify"
              eq_refl eq_refl eq_refl eq_refl eq_refl eq_refl eq_refl)
    as (log & C & _).
  exists log. exact C.
Defined.

Definition is_post (e : nat * call) : bool :=
  match snd e with HttpPost _ _ => true | _ => false end.

(** Against C6 as first stated: a row with its results and an
    [error_message] but no [evaluation_url].  The notifier does not
    fail fast: it takes the text of the [error_message] for the
    callback and calls [requests.post] on it 41 times, sleeping in
    between; [requests] refuses the text as a URL each time, and the
    notifier raises 606 seconds later, with the message of a failed
    notification. *)
Lemma notifier_posts_to_error_message :
  evaluation_url Scenario.row_with_error_message = None /\
  fst (notify_evaluator Scenario.schemeless_refused
         Scenario.row_with_error_message 0
         (mkPState 300 Scenario.row_with_error_message [] []))
  = Raise "Failed to notify evaluator: RetryError[<Future state=finished raised MissingSchema>]" /\
  clock (snd (notify_evaluator Scenario.schemeless_refused
                Scenario.row_with_error_message 0
                (mkPState 300 Scenario.row_with_error_message [] [])))
  = 906 /\
  filter is_post
    (calls (snd (notify_evaluator Scenario.schemeless_refused
                   Scenario.row_with_error_message 0
                   (mkPState 300 Scenario.row_with_error_message [] []))))
  = map (fun at_ =>
           (at_,
            HttpPost "No evaluation_url found for task."
              (mkEvaluationPayload "a@example.com" "portfolio" 1 "n-001"
                 "https://github.com/alice/student-task-n-001-1-c0ffee.git"
                 "0a1b2c3"
                 (Some "https://alice.github.io/student-task-n-001-1-c0ffee/"))))
        [300; 302; 306; 314; 330; 346; 362; 378; 394; 410; 426; 442;
         458; 474; 490; 506; 522; 538; 554; 570; 586; 602; 618; 634;
         650; 666; 682; 698; 714; 730; 746; 762; 778; 794; 810; 826;
         842; 858; 874; 890; 906].
Proof. repeat split; vm_compute; reflexivity. Qed.

(** C5, the code at an input where it departs from the claim:
    Scenarios E and F on a row that carries its callback URL, the run
    starting at time 0.  The polls take 300 seconds and the first POST
    is made at 300; the waits between POSTs are 2, 4, 8, then 16
    seconds; and the POSTs go on until 600 seconds after the first one,
    the last at 906, not until 600 seconds after the start of the run:
    the [remaining] that [notify_evaluator] computes from [start_time]
    is not used. *)
Lemma retry_deadline_runs_from_first_attempt :
  option_map
    (fun x =>
       (fst x, status (task (snd x)), error_message (task (snd x)),
        map fst (filter is_post (calls (snd x)))))
    (process_task Scenario.evaluator_down 1 [Scenario.row_a_with_callback] 0)
  = Some
      (Ok tt, "FAILED",
       Some "Failed to notify evaluator: RetryError[<Future state=finished raised Exception>]",
       [300; 302; 306; 314; 330; 346; 362; 378; 394; 410; 426; 442; 458; 474;
        490; 506; 522; 538; 554; 570; 586; 602; 618; 634; 650; 666; 682; 698;
        714; 730; 746; 762; 778; 794; 810; 826; 842; 858; 874; 890; 906]).
Proof. vm_compute. reflexivity. Qed.

Lemma failed_push_fails_task_witness :
  let s := snd (run_task Scenario.push_rejected 10
                  (mkPState 10 Scenario.row_a [] [])) in
  fst (run_task Scenario.push_rejected 10 (mkPState 10 Scenario.row_a [] []))
  = Ok tt /\
  status (task s) = "FAILED" /\
  (exists m, error_message (task s) = Some m /\ m <> "") /\
  commit_sha (task s) = None /\
  Forall (fun row => commit_sha row = None) (commits s).
Proof.
  apply (failed_push_fails_task Scenario.push_rejected 10 Scenario.row_a).
  - reflexivity.
  - intros lp author msg url. reflexivity.
  - intros token name m H. discriminate H.
  - vm_compute. tauto.
Defined.

End WorkerFacts.

(* ------------------------------------------------------------------ *)
(** * From the intake to the notifier *)

Module EndToEnd.

Import Worker.

(** What the intake leaves unset on a new row, and no write of a run
    sets before the run ends. *)
Definition bare (t : Task) : Prop :=
  evaluation_url t = None /\ brief t = None /\ error_message t = None.

Lemma run_keeps_bare w start row :
  bare row ->
  let s := snd (run_task w start (mkPState start row [] [])) in
  Forall (fun c => evaluation_url c = None /\ brief c = None) (commits s) /\
  status (task s) = "FAILED".
Proof.
  intros B s.
  destruct (WorkerFacts.run_task_shape w bare)
    with (start := start) (s0 := mkPState start row [] []) as [_ Hs];
    try (unfold bare; simpl; tauto); auto.
  fold s in Hs.
  destruct Hs as [s6 _ (t6 & st & s0 & (Hu & _ & He) & _ & Hn) _ _
                 |k m sr (_ & _ & Hall & (Hu & Hb & _)) _ _ ->].
  - exfalso.
    destruct (WorkerFacts.notify_evaluator_without_callback w t6 st s0 Hu He)
      as [m Hm].
    rewrite Hm in Hn. discriminate.
  - simpl. split; [|reflexivity]. apply Forall_app. split.
    + eapply Forall_impl; [|exact Hall]. unfold bare. simpl. tauto.
    + constructor; [simpl; auto|constructor].
Qed.

(** Every commit of a run is an UPDATE of the row the run loaded: it
    keeps the key and the nonce, as the executor steps of
    [Intake.step] assume. *)
Lemma run_commits_are_executor_writes w task_id db now r s c :
  process_task w task_id db now = Some (r, s) ->
  In c (commits s) -> Intake.executor_write c db.
Proof.
  unfold process_task.
  destruct (Store.first _ db) as [t|] eqn:F; [|discriminate].
  intros [= E]. apply StoreFacts.first_some in F. destruct F as [Hin _].
  destruct (WorkerFacts.run_task_shape w
              (fun x => id x = id t /\ nonce x = nonce t))
    with (start := now) (s0 := mkPState now t [] []) as [_ Hs];
    try (simpl; tauto); auto.
  rewrite E in Hs. simpl in Hs. intros Hc. exists t. split; [exact Hin|].
  destruct Hs as [s6 (_ & _ & Hall & Hk) _ _ ->|k m sr (_ & _ & Hall & Hk) _ _ ->];
    simpl in Hc; apply in_app_or in Hc; rewrite Forall_forall in Hall;
    destruct Hc as [Hc|[<-|[]]]; simpl;
    try (destruct (Hall _ Hc) as [-> ->]; auto); destruct Hk as [-> ->]; auto.
Qed.

(** C10: whatever brief and evaluation_url a request supplies, the row
    the endpoint inserts has neither; and every state of that row a run
    commits, the one committed on entering NOTIFY_EVALUATOR included,
    still has no evaluation_url (and no brief): the row reaches the
    notifier without a stored callback URL. *)
Theorem intake_stores_no_callback secret now request db sent r db' sent' row :
  Intake.api_endpoint secret now request db sent = (r, db', sent') ->
  In row db' -> ~ In row db ->
  brief row = None /\ evaluation_url row = None /\
  forall w start,
    Forall (fun c => evaluation_url c = None /\ brief c = None)
      (commits (snd (run_task w start (mkPState start row [] [])))).
Proof.
  intros H Hin Hnot.
  destruct (IntakeFacts.api_endpoint_new_row _ _ _ _ _ _ _ _ _ H Hin Hnot)
    as (_ & _ & _ & _ & Hb & Hu & He).
  split; [exact Hb|]. split; [exact Hu|]. intros w start.
  apply (run_keeps_bare w start row). unfold bare. auto.
Qed.

Lemma intake_stores_no_callback_witness :
  rq_brief Scenario.request_a = Some "Hello" /\
  rq_evaluation_url Scenario.request_a = Some "https://evaluator.example/notify" /\
  brief Scenario.row_a = None /\ evaluation_url Scenario.row_a = None /\
  forall w start,
    Forall (fun c => evaluation_url c = None /\ brief c = None)
      (commits (snd (run_task w start (mkPState start Scenario.row_a [] [])))).
Proof.
  split; [reflexivity|]. split; [reflexivity|].
  apply (intake_stores_no_callback Scenario.secret 10 Scenario.request_a [] []
           (Intake.Ack (mkAck "RECEIVED" "portfolio" "n-001"))
           [Scenario.row_a] [1] Scenario.row_a).
  - reflexivity.
  - simpl. auto.
  - simpl. tauto.
Defined.

End EndToEnd.

(* ------------------------------------------------------------------ *)
(** ** More scenarios *)

Module More.

Import Worker.

(** Scenario A again, for another round. *)
Definition request_a_round_2 : TaskRequest :=
  mkTaskRequest "a@example.com" "s3cret" "portfolio" 2 "n-001" (Some "Hello")
    None (Some "https://evaluator.example/notify") None.

(** Collaborators that all work, the repository being created as
    alice/site; the site itself is never seen live. *)
Definition all_good : World :=
  mkWorld (Some "ghp_token") "/tmp/tmpabc" (fun _ => None)
    "c0ffee00000000000000000000000000"
    (fun _ _ _ => inl "https://github.com/alice/site.git")
    (fun _ _ _ _ => Some "0a1b2c3
")
    (fun _ _ => None)
    (fun _ _ => mkHttp 1 (Some 404))
    (fun _ _ _ => mkHttp 1 (Some 200))
    (fun _ => None) (fun p => p) "2 validation errors for EvaluationPayload"
    "RetryError[<Future state=finished raised Exception>]".

(** The same, with a payload schema that rejects every payload. *)
Definition strict : World :=
  mkWorld (Some "ghp_token") "/tmp/tmpabc" (fun _ => None)
    "c0ffee00000000000000000000000000"
    (fun _ _ _ => inl "https://github.com/alice/site.git")
    (fun _ _ _ _ => Some "0a1b2c3
")
    (fun _ _ => None)
    (fun _ _ => mkHttp 1 (Some 404))
    (fun _ _ _ => mkHttp 1 (Some 200))
    (fun _ => Some "1 validation error for EvaluationPayload")
    (fun p => p) "2 validation errors for EvaluationPayload"
    "RetryError[<Future state=finished raised Exception>]".

(** The hosting provider refuses to create the repository. *)
Definition repo_refused : World :=
  mkWorld (Some "ghp_token") "/tmp/tmpabc" (fun _ => None)
    "c0ffee00000000000000000000000000"
    (fun _ _ _ => inr "422 name already exists on this account")
    (fun _ _ _ _ => None)
    (fun _ _ => None)
    (fun _ _ => mkHttp 1 (Some 404))
    (fun _ _ _ => mkHttp 1 (Some 200))
    (fun _ => None) (fun p => p) "2 validation errors for EvaluationPayload"
    "RetryError[<Future state=finished raised Exception>]".

(** A row whose [repo_url] has one path segment too many. *)
Definition row_deep_url : Task :=
  mkTask 1 "n-001" "VERIFY_PAGES" "a@example.com" "portfolio" 1 10 None
    (Some "https://github.com/alice/site/extra.git") (Some "0a1b2c3") None
    None None None.

(** A row whose [repo_url] is the clone URL of alice/site. *)
Definition row_site : Task :=
  mkTask 1 "n-001" "ENABLE_PAGES" "a@example.com" "portfolio" 1 10 None
    (Some "https://github.com/alice/site.git") (Some "0a1b2c3") None
    None None None.

(** The payload of [Scenario.row_with_callback]. *)
Definition payload_with_callback : EvaluationPayload :=
  mkEvaluationPayload "a@example.com" "portfolio" 1 "n-001"
    "https://github.com/alice/student-task-n-001-1-c0ffee.git" "0a1b2c3"
    (Some "https://alice.github.io/student-task-n-001-1-c0ffee/").

End More.


(* ------------------------------------------------------------------ *)
(** ** workers/tasks.py: generate_project_files *)

Module Files.

Definition dquote : string := String (ascii_of_nat 34) "".

(** The licence template of the source after
    [.format(year=..., author=...)]. *)
Definition mit_text (year author : string) : string :=
  "MIT License

Copyright (c) "
  ++ year
  ++ " "
  ++ author
  ++ "

Permission is hereby granted, free of charge, to any person obtaining a copy
of this software and associated documentation files (the "
  ++ dquote
  ++ "Software"
  ++ dquote
  ++ "), to deal
in the Software without restriction, including without limitation the rights
to use, copy, modify, merge, publish, distribute, sublicense, and/or sell
copies of the Software, and to permit persons to whom the Software is
furnished to do so, subject to the following conditions:

The above copyright notice and this permission notice shall be included in all
copies or substantial portions of the Software.

THE SOFTWARE IS PROVIDED "
  ++ dquote
  ++ "AS IS"
  ++ dquote
  ++ ", WITHOUT WARRANTY OF ANY KIND, EXPRESS OR
IMPLIED, INCLUDING BUT NOT LIMITED TO THE WARRANTIES OF MERCHANTABILITY,
FITNESS FOR A PARTICULAR PURPOSE AND NONINFRINGEMENT. IN NO EVENT SHALL THE
AUTHORS OR COPYRIGHT HOLDERS BE LIABLE FOR ANY CLAIM, DAMAGES OR OTHER
LIABILITY, WHETHER IN AN ACTION OF CONTRACT, TORT OR OTHERWISE, ARISING FROM,
OUT OF OR IN CONNECTION WITH THE SOFTWARE OR THE USE OR OTHER DEALINGS IN THE
SOFTWARE.
".

(** [task.brief or ''] *)
Definition brief_or_empty (t : Task) : string :=
  if Py.truthy (brief t)
  then match brief t with Some b => b | None => "" end
  else "".

Fixpoint ends_with_slash (s : string) : bool :=
  match s with
  | EmptyString => false
  | String c EmptyString => Ascii.eqb c "/"
  | String _ rest => ends_with_slash rest
  end.

(** [os.path.join(a, b)] for a relative [b]. *)
Definition path_join (a b : string) : string :=
  if a =? "" then b
  else if ends_with_slash a then a ++ b
  else a ++ "/" ++ b.

(** [generate_project_files(task, target_dir)]: the files it writes, in
    order, each with its path and its content. *)
Definition generate_project_files (t : Task) (target_dir : string)
  : list (string * string) :=
  [ (path_join target_dir "index.html",
     "<html><body><p>" ++ brief_or_empty t ++ "</p></body></html>");
    (path_join target_dir "README.md",
     "# Task Brief
" ++ brief_or_empty t ++ "

Nonce: " ++ nonce t);
    (path_join target_dir "LICENSE", mit_text "2025" (email t)) ].

End Files.

(* ------------------------------------------------------------------ *)
(** * More on the intake endpoint *)

Module IntakeMore.

Import Intake.

Section WithSecret.

Variable EXPECTED_SECRET : option string.

(** The rounds the store's INTEGER column can be asked about: SQLite,
    the store of the default [DATABASE_URL], holds 64-bit signed
    integers, and binding a larger one to a query raises
    [OverflowError] in the driver, which the endpoint lets through. *)
Definition fits_integer (z : Z) : bool :=
  ((- 2 ^ 63 <=? z) && (z <? 2 ^ 63))%Z.

Lemma no_row_no_first (p : Task -> bool) (db : Store.t) :
  (forall r, In r db -> p r = false) -> Store.first p db = None.
Proof.
  intros H. unfold Store.first. destruct (find p db) as [r|] eqn:F; [|reflexivity].
  apply find_some in F. destruct F as [Hin Hp]. rewrite (H r Hin) in Hp.
  discriminate.
Qed.

(** X1: a submission with the expected secret, a round the store's
    INTEGER can hold and a nonce the store has
    not seen is accepted: one row is appended, with a key no other row
    has, status RECEIVED, the request's email, task name and round, the
    commit time as [received_at] and every other column unset; exactly
    that row's key is handed to the broker; the acknowledgement is
    RECEIVED with the request's task and nonce. *)
Theorem fresh_submission_accepted now request db sent :
  secret_mismatch EXPECTED_SECRET request = false ->
  fits_integer (rq_round request) = true ->
  ~ In (rq_nonce request) (Store.nonces db) ->
  let row :=
    mkTask (Store.next_id db) (rq_nonce request) "RECEIVED" (rq_email request)
      (rq_task request) (rq_round request) now None None None None None None
      None in
  api_endpoint EXPECTED_SECRET now request db sent
  = (Ack (mkAck "RECEIVED" (rq_task request) (rq_nonce request)),
     (db ++ [row])%list, (sent ++ [Store.next_id db])%list) /\
  ~ In (id row) (Store.ids db).
Proof.
  intros Hs _ Hn row. split; [|apply StoreFacts.next_id_fresh].
  unfold api_endpoint. rewrite Hs.
  rewrite no_row_no_first.
  - unfold Store.insert.
    destruct (existsb _ db) eqn:E; [|reflexivity].
    exfalso. apply Hn. now apply StoreFacts.existsb_nonce_true in E.
  - intros r Hin. unfold is_complete_for.
    destruct (String.eqb_spec (nonce r) (rq_nonce request)) as [E|_];
      [|reflexivity].
    exfalso. apply Hn. rewrite <- E. unfold Store.nonces. now apply in_map.
Qed.

(** X2: the unique key is the nonce alone.  A submission, with the
    expected secret and a round the store's INTEGER can hold, whose
    nonce is held by a row of another round is refused with 409,
    whatever the status of that row, and neither the store nor the
    broker changes. *)
Theorem nonce_of_other_round_conflicts now request db sent :
  secret_mismatch EXPECTED_SECRET request = false ->
  fits_integer (rq_round request) = true ->
  In (rq_nonce request) (Store.nonces db) ->
  (forall row, In row db -> nonce row = rq_nonce request ->
               round row <> rq_round request) ->
  api_endpoint EXPECTED_SECRET now request db sent
  = (HTTPException 409 "A task with this nonce already exists.", db, sent).
Proof.
  intros Hs _ Hin Hr. unfold api_endpoint. rewrite Hs.
  assert (forall r, In r db -> is_row_for request r = false) as Hno.
  { intros r Hi. unfold is_row_for.
    destruct (String.eqb_spec (nonce r) (rq_nonce request)) as [E|_];
      [|reflexivity].
    destruct (Z.eqb_spec (round r) (rq_round request)) as [E'|_];
      [|reflexivity].
    exfalso. exact (Hr r Hi E E'). }
  rewrite no_row_no_first.
  - assert (Store.insert now (new_task_of request) db = Store.IntegrityError)
      as -> by (now apply StoreFacts.insert_conflict).
    now rewrite (no_row_no_first _ _ Hno).
  - intros r Hi. unfold is_complete_for. fold (is_row_for request r).
    now rewrite (Hno r Hi).
Qed.

(** X3: the endpoint only ever appends.  Whatever the request, either
    the store and the broker are left as they are, or one row is added
    at the end of the store, its key is added at the end of the broker
    log and the answer is RECEIVED: no stored row is changed or
    removed, and nothing is scheduled without a row being inserted. *)
Theorem intake_only_appends now request db sent :
  let '(r, db', sent') := api_endpoint EXPECTED_SECRET now request db sent in
  (db' = db /\ sent' = sent) \/
  (exists row,
     db' = (db ++ [row])%list /\ sent' = (sent ++ [id row])%list /\
     ~ In (id row) (Store.ids db) /\
     r = Ack (mkAck "RECEIVED" (rq_task request) (rq_nonce request))).
Proof.
  unfold api_endpoint.
  destruct (secret_mismatch _ _); [now left|].
  destruct (Store.first (is_complete_for request) db); [now left|].
  destruct (Store.insert now (new_task_of request) db) as [db1 row|] eqn:Ins.
  - right. exists row. apply StoreFacts.insert_inserted in Ins.
    destruct Ins as (-> & Hid & _). repeat split.
    rewrite Hid. apply StoreFacts.next_id_fresh.
  - destruct (Store.first (is_row_for request) db); now left.
Qed.

(** X4: in every state the service can reach, each key handed to the
    broker is the key of a stored row, so a run started for it finds
    its row: [process_task] does not take its early [return]. *)
Theorem scheduled_runs_find_their_row (s : system) :
  reachable EXPECTED_SECRET s ->
  forall task_id, In task_id (sys_sent s) ->
    (exists row, In row (sys_db s) /\ id row = task_id) /\
    forall w now, Worker.process_task w task_id (sys_db s) now <> None.
Proof.
  intros R task_id Hin.
  destruct (IntakeFacts.reachable_inv _ _ R) as [_ _ _ Hk].
  assert (In task_id (Store.ids (sys_db s))) as Hid.
  { apply Hk. unfold IntakeFacts.scheduled.
    apply (count_occ_In Nat.eq_dec) in Hin. lia. }
  unfold Store.ids in Hid. apply in_map_iff in Hid.
  destruct Hid as (row & E & Hrow). split; [eauto|].
  intros w now. unfold Worker.process_task.
  destruct (Store.first _ (sys_db s)) as [t|] eqn:F; [discriminate|].
  exfalso. unfold Store.first in F.
  pose proof (find_none _ _ F _ Hrow) as N. simpl in N.
  rewrite E, Nat.eqb_refl in N. discriminate.
Qed.

End WithSecret.

Lemma fresh_submission_accepted_witness :
  Intake.api_endpoint Scenario.secret 10 Scenario.request_a [] []
  = (Ack (mkAck "RECEIVED" "portfolio" "n-001"), [Scenario.row_a], [1]).
Proof.
  apply (fresh_submission_accepted Scenario.secret 10 Scenario.request_a [] []).
  - reflexivity.
  - reflexivity.
  - simpl. tauto.
Defined.

Lemma nonce_of_other_round_conflicts_witness :
  Intake.api_endpoint Scenario.secret 20 More.request_a_round_2
    [Scenario.row_a] [1]
  = (HTTPException 409 "A task with this nonce already exists.",
     [Scenario.row_a], [1]).
Proof.
  apply (nonce_of_other_round_conflicts Scenario.secret 20
           More.request_a_round_2 [Scenario.row_a] [1]).
  - reflexivity.
  - reflexivity.
  - simpl. auto.
  - intros row [<-|[]] _. discriminate.
Defined.

Lemma scheduled_runs_find_their_row_witness :
  exists row, In row (sys_db Scenario.after_race) /\ id row = 1.
Proof.
  apply (scheduled_runs_find_their_row Scenario.secret Scenario.after_race).
  - apply IntakeFacts.play_reachable. apply reach_initial.
  - simpl. auto.
Defined.

End IntakeMore.

(* ------------------------------------------------------------------ *)
(** * More on the Evaluator Notifier *)

Module RetryFacts.

Import Worker.
Local Open Scope exec_scope.

#[local] Arguments retry_fuel : simpl never.
#[local] Arguments post_with_retry : simpl never.

Section WithWorld.

Variable w : World.

(** The calls of [post_with_retry] started at [start], from its
    [n]-th attempt made at time [now], with whether it returns and the
    time at which it ends: a POST answered 200 ends it with success; a
    POST that fails 600 seconds or more after [start] ends it with
    failure; any other POST is followed by the wait of the policy. *)
Inductive retried (url : string) (p : EvaluationPayload) (start : nat)
  : nat -> nat -> list (nat * call) -> bool -> nat -> Prop :=
| retried_ok n now :
    is_200 (status_code (http_post w url p now)) = true ->
    retried url p start n now [(now, HttpPost url p)] true
      (now + took (http_post w url p now))
| retried_stop n now :
    is_200 (status_code (http_post w url p now)) = false ->
    600 <= now + took (http_post w url p now) - start ->
    retried url p start n now [(now, HttpPost url p)] false
      (now + took (http_post w url p now))
| retried_again n now log ok fin :
    is_200 (status_code (http_post w url p now)) = false ->
    now + took (http_post w url p now) - start < 600 ->
    retried url p start (S n)
      (now + took (http_post w url p now) + wait_exponential 2 2 16 n)
      log ok fin ->
    retried url p start n now
      ((now, HttpPost url p)
       :: (now + took (http_post w url p now),
           Sleep (wait_exponential 2 2 16 n)) :: log)
      ok fin.

#[local] Abbreviation is_post := WorkerFacts.is_post.

(** Seconds that have passed, at the least, when the [n]-th attempt
    is made: 0, 2, 6, 14, 30, 46, ... *)
Definition waited (n : nat) : nat :=
  match n with
  | 0 | 1 => 0
  | 2 => 2
  | 3 => 6
  | _ => 16 * n - 50
  end.

Lemma waited_next n :
  1 <= n -> waited (S n) = waited n + wait_exponential 2 2 16 n.
Proof.
  intros Hn.
  destruct (WorkerFacts.wait_exponential_schedule) as (W1 & W2 & W3 & W4).
  destruct n as [|[|[|[|n]]]]; try lia.
  - rewrite W1. reflexivity.
  - rewrite W2. reflexivity.
  - rewrite W3. reflexivity.
  - rewrite W4 by lia. unfold waited. lia.
Qed.

Lemma waited_bound n : waited n < 600 -> n <= 40.
Proof.
  unfold waited. destruct n as [|[|[|[|n]]]]; lia.
Qed.

Lemma retried_bounds url p start n now log ok fin :
  retried url p start n now log ok fin ->
  1 <= n <= 41 -> start + waited n <= now ->
  n + List.length (filter is_post log) <= 42 /\
  now <= fin /\
  (ok = false -> start + 600 <= fin) /\
  (ok = true ->
   exists pre at_,
     log = (pre ++ [(at_, HttpPost url p)])%list /\
     is_200 (status_code (http_post w url p at_)) = true).
Proof.
  induction 1 as [n now H|n now H L|n now log ok fin H L R IH];
    intros Hn Hw.
  - simpl. repeat split; try lia; try discriminate.
    intros _. exists []%list, now. auto.
  - simpl. repeat split; try lia; discriminate.
  - assert (n <= 40) as Hn40 by (apply waited_bound; lia).
    destruct IH as (I1 & I2 & I3 & I4).
    + lia.
    + rewrite waited_next by lia. lia.
    + simpl. repeat split; try lia; auto.
      intros Hok. destruct (I4 Hok) as (pre & at_ & -> & H200).
      exists ((now, HttpPost url p)
              :: (now + took (http_post w url p now),
                  Sleep (wait_exponential 2 2 16 n)) :: pre)%list, at_.
      auto.
Qed.

Lemma retrying_retried fuel n start url p s :
  start <= clock s ->
  1 <= fuel -> 602 <= (clock s - start) + 2 * fuel ->
  exists log ok fin,
    retried url p start n (clock s) log ok fin /\
    retrying w fuel n start url p s
    = (if ok then Ok tt else Raise (retry_error_str w),
       mkPState fin (task s) (commits s) (calls s ++ log)%list).
Proof.
  revert n s. induction fuel as [|fuel IH]; intros n s Hs Hf Hb; [lia|].
  cbn [retrying]. unfold bind at 1. rewrite WorkerFacts.requests_post_run.
  destruct (is_200 (status_code (http_post w url p (clock s)))) eqn:R.
  - exists [(clock s, HttpPost url p)], true, (clock s + took (http_post w url p (clock s))).
    split; [now constructor|]. reflexivity.
  - unfold bind at 1, time_time. cbv iota beta. cbn [clock].
    unfold stop_after_delay.
    destruct (Nat.leb_spec 600 (clock s + took (http_post w url p (clock s)) - start))
      as [L|L].
    + exists [(clock s, HttpPost url p)], false,
        (clock s + took (http_post w url p (clock s))).
      split; [now constructor|]. reflexivity.
    + unfold bind at 1. rewrite WorkerFacts.time_sleep_run.
      cbn [clock task commits calls].
      pose proof (WorkerFacts.wait_exponential_ge2 n) as W2.
      match goal with |- context [retrying w fuel (S n) start url p ?st] =>
        destruct (IH (S n) st) as (log & ok & fin & Hr & E) end;
        cbn [clock]; try lia.
      cbn [clock task commits calls] in Hr, E.
      exists ((clock s, HttpPost url p)
              :: (clock s + took (http_post w url p (clock s)),
                  Sleep (wait_exponential 2 2 16 n)) :: log)%list, ok, fin.
      split; [now constructor|]. rewrite E, <- !app_assoc. reflexivity.
Qed.

(** X5: [post_with_retry] always ends.  Its calls are POSTs of the one
    payload to the one URL with the waits of the policy between them
    (2, 4, 8, then 16 seconds); it makes at most 41 POSTs; it returns
    exactly when its last POST is answered 200; and it gives up, with
    tenacity's [RetryError], only once 600 seconds have passed since
    its own first attempt.  The loaded row and the store are left
    alone. *)
Theorem post_with_retry_bounded (url : string) (p : EvaluationPayload)
    (s : pstate) :
  exists log (ok : bool) fin,
    post_with_retry w url p s
    = (if ok then Ok tt else Raise (retry_error_str w),
       mkPState fin (task s) (commits s) (calls s ++ log)%list) /\
    retried url p (clock s) 1 (clock s) log ok fin /\
    List.length (filter is_post log) <= 41 /\
    (ok = false -> clock s + 600 <= fin) /\
    (ok = true ->
     exists pre at_,
       log = (pre ++ [(at_, HttpPost url p)])%list /\
       is_200 (status_code (http_post w url p at_)) = true).
Proof.
  destruct (retrying_retried retry_fuel 1 (clock s) url p s)
    as (log & ok & fin & R & E); [lia|unfold retry_fuel; lia..|].
  exists log, ok, fin.
  destruct (retried_bounds _ _ _ _ _ _ _ _ R) as (B1 & _ & B3 & B4);
    [lia|simpl; lia|].
  unfold post_with_retry, bind, time_time. cbv iota beta.
  repeat split; auto; lia.
Qed.

(** The row has its three results and a callback; [payload] is what
    [build_evaluation_payload] hands to validation. *)
Definition ready (t : Task) (url : string) (payload : EvaluationPayload)
  : Prop :=
  Py.truthy (pages_url t) = true /\ Py.truthy (repo_url t) = true /\
  Py.truthy (commit_sha t) = true /\
  WorkerFacts.callback_of t = Some url /\
  exists r c,
    repo_url t = Some r /\ commit_sha t = Some c /\
    payload = mkEvaluationPayload (email t) (task_name t) (round t) (nonce t)
                r c (pages_url t).

Lemma callback_selected t url :
  WorkerFacts.callback_of t = Some url ->
  (if negb (Py.truthy (evaluation_url t)) && Py.truthy (error_message t)
   then error_message t else evaluation_url t) = Some url /\ url <> "".
Proof.
  unfold WorkerFacts.callback_of. intros Hcb.
  destruct (Py.truthy (evaluation_url t)) eqn:Tu; cbn [negb andb].
  - split; [exact Hcb|]. rewrite Hcb in Tu. simpl in Tu. intros ->. discriminate.
  - destruct (Py.truthy (error_message t)) eqn:Te; [|discriminate].
    split; [exact Hcb|]. rewrite Hcb in Te. simpl in Te. intros ->. discriminate.
Qed.

Lemma notify_evaluator_ready t url payload start s :
  ready t url payload ->
  notify_evaluator w t start s
  = match pydantic_error w payload with
    | None =>
        try_except (post_with_retry w url (pydantic_dict w payload))
          (fun e => raise ("Failed to notify evaluator: " ++ e)) s
    | Some msg => (Raise msg, s)
    end.
Proof.
  intros (H1 & H2 & H3 & Hcb & r & c & Hr & Hc & ->).
  unfold notify_evaluator. rewrite H1, H2, H3. cbn [negb orb].
  destruct (callback_selected t url Hcb) as [-> Hne].
  destruct (String.eqb_spec url "") as [E|_]; [contradiction|].
  unfold build_evaluation_payload. rewrite Hr, Hc.
  destruct (pydantic_error w _); reflexivity.
Qed.

(** X6: with its results, a callback and a valid payload at hand, when
    the evaluator never answers 200 to what validation makes of the
    payload, the notifier raises
    [Failed to notify evaluator: ] followed by the description of
    tenacity's [RetryError]; it has then made at most 41 POSTs and at
    least 600 seconds have passed since its first one. *)
Theorem notifier_gives_up t url payload start s :
  ready t url payload -> pydantic_error w payload = None ->
  (forall now,
     is_200 (status_code (http_post w url (pydantic_dict w payload) now))
     = false) ->
  exists log fin,
    notify_evaluator w t start s
    = (Raise ("Failed to notify evaluator: " ++ retry_error_str w),
       mkPState fin (task s) (commits s) (calls s ++ log)%list) /\
    clock s + 600 <= fin /\
    1 <= List.length (filter is_post log) <= 41.
Proof.
  intros Hready Hv Hdown. rewrite (notify_evaluator_ready _ _ _ _ _ Hready), Hv.
  destruct (retrying_retried retry_fuel 1 (clock s) url
              (pydantic_dict w payload) s)
    as (log & ok & fin & R & E); [lia|unfold retry_fuel; lia..|].
  destruct (retried_bounds _ _ _ _ _ _ _ _ R) as (B1 & _ & B3 & B4);
    [lia|simpl; lia|].
  destruct ok.
  - destruct (B4 eq_refl) as (pre & at_ & _ & H200).
    rewrite Hdown in H200. discriminate.
  - exists log, fin. unfold try_except, post_with_retry, bind, time_time.
    cbv iota beta. rewrite E. repeat split; auto; try lia.
    inversion R; subst; simpl; lia.
Qed.

(** X7: with the same at hand, what the notifier posts is the payload
    as validation returns it (its [.dict()]), not the columns as they
    are stored; when the evaluator answers the first POST of it with
    200 the notifier returns after that single POST, without
    sleeping. *)
Theorem notifier_succeeds_at_once t url payload start s :
  ready t url payload -> pydantic_error w payload = None ->
  let posted := pydantic_dict w payload in
  is_200 (status_code (http_post w url posted (clock s))) = true ->
  notify_evaluator w t start s
  = (Ok tt,
     mkPState (clock s + took (http_post w url posted (clock s))) (task s)
       (commits s) (calls s ++ [(clock s, HttpPost url posted)])%list).
Proof.
  intros Hready Hv posted H200.
  rewrite (notify_evaluator_ready _ _ _ _ _ Hready), Hv. fold posted.
  unfold try_except, post_with_retry, bind at 1, time_time. cbv iota beta.
  unfold retry_fuel. cbn [retrying]. unfold bind at 1.
  rewrite WorkerFacts.requests_post_run, H200. reflexivity.
Qed.

(** X8: a payload that fails validation stops the notifier before any
    POST, and the [ValidationError] is raised as it is, without the
    [Failed to notify evaluator: ] prefix: the payload is built outside
    the [try]. *)
Theorem notifier_rejects_invalid_payload t url payload start s msg :
  ready t url payload -> pydantic_error w payload = Some msg ->
  notify_evaluator w t start s = (Raise msg, s).
Proof.
  intros Hready Hv. now rewrite (notify_evaluator_ready _ _ _ _ _ Hready), Hv.
Qed.

End WithWorld.

Lemma ready_with_callback :
  ready Scenario.row_with_callback "https://evaluator.example/notify"
    More.payload_with_callback.
Proof.
  repeat split.
  exists "https://github.com/alice/student-task-n-001-1-c0ffee.git", "0a1b2c3".
  repeat split.
Qed.

Lemma notifier_gives_up_witness :
  exists log fin,
    notify_evaluator Scenario.evaluator_down Scenario.row_with_callback 0
      (mkPState 300 Scenario.row_with_callback [] [])
    = (Raise "Failed to notify evaluator: RetryError[<Future state=finished raised Exception>]",
       mkPState fin Scenario.row_with_callback [] log) /\
    900 <= fin.
Proof.
  destruct (notifier_gives_up Scenario.evaluator_down
              Scenario.row_with_callback "https://evaluator.example/notify"
              More.payload_with_callback 0
              (mkPState 300 Scenario.row_with_callback [] []))
    as (log & fin & E & K & _).
  - exact ready_with_callback.
  - reflexivity.
  - intros now. reflexivity.
  - exists log, fin. split; [exact E|exact K].
Defined.

Lemma notifier_succeeds_at_once_witness :
  notify_evaluator Scenario.rewriting Scenario.row_upper_case 0
    (mkPState 300 Scenario.row_upper_case [] [])
  = (Ok tt,
     mkPState 301 Scenario.row_upper_case []
       [(300,
         HttpPost "https://evaluator.example/notify"
           (mkEvaluationPayload "Ann@example.com" "portfolio" 1 "n-001"
              "https://github.com/alice/student-task-n-001-1-c0ffee.git"
              "0a1b2c3"
              (Some "https://alice.github.io/student-task-n-001-1-c0ffee/")))]).
Proof.
  apply (notifier_succeeds_at_once Scenario.rewriting Scenario.row_upper_case
           "https://evaluator.example/notify"
           (mkEvaluationPayload "Ann@Example.COM" "portfolio" 1 "n-001"
              "https://github.com/alice/student-task-n-001-1-c0ffee.git"
              "0a1b2c3"
              (Some "https://alice.github.io/student-task-n-001-1-c0ffee/"))
           0 (mkPState 300 Scenario.row_upper_case [] [])).
  - repeat split.
    exists "https://github.com/alice/student-task-n-001-1-c0ffee.git",
      "0a1b2c3".
    repeat split.
  - reflexivity.
  - reflexivity.
Defined.

Lemma notifier_rejects_invalid_payload_witness :
  notify_evaluator More.strict Scenario.row_with_callback 0
    (mkPState 300 Scenario.row_with_callback [] [])
  = (Raise "1 validation error for EvaluationPayload",
     mkPState 300 Scenario.row_with_callback [] []).
Proof.
  apply (notifier_rejects_invalid_payload More.strict
           Scenario.row_with_callback "https://evaluator.example/notify"
           More.payload_with_callback 0
           (mkPState 300 Scenario.row_with_callback [] [])).
  - exact ready_with_callback.
  - reflexivity.
Defined.

End RetryFacts.

(* ------------------------------------------------------------------ *)
(** * More on the Pipeline Executor *)

Module RunFacts.

Import Worker.
Local Open Scope exec_scope.

#[local] Arguments retry_fuel : simpl never.
#[local] Arguments timeout : simpl never.
#[local] Arguments post_with_retry : simpl never.

Section WithWorld.

Variable w : World.

(** ** Runs without a credential *)

Lemma create_github_repo_no_token t tok s :
  Py.truthy tok = false -> create_github_repo w t tok s = (Ok None, s).
Proof.
  unfold create_github_repo. destruct tok as [token|]; [|reflexivity].
  simpl. intros H. apply negb_false_iff in H. now rewrite H.
Qed.

Lemma push_to_github_no_url t lp url tok s :
  Py.truthy url = false \/ Py.truthy tok = false ->
  push_to_github w t lp url tok s = (Ok None, s).
Proof.
  unfold push_to_github. destruct url as [u|]; [|reflexivity].
  destruct tok as [token|]; [|reflexivity]. simpl.
  intros [H|H]; apply negb_false_iff in H; rewrite H; simpl;
    rewrite ?orb_true_r; reflexivity.
Qed.

Lemma enable_github_pages_skipped t tok s :
  Py.truthy tok = false \/ Py.truthy (repo_url t) = false ->
  enable_github_pages w t tok s = (Ok tt, s).
Proof.
  unfold enable_github_pages. destruct tok as [token|]; [|reflexivity].
  destruct (repo_url t) as [u|]; [|reflexivity]. simpl.
  intros [H|H]; apply negb_false_iff in H; rewrite H; simpl;
    rewrite ?orb_true_r; reflexivity.
Qed.

Lemma verify_pages_deployment_no_repo t s :
  Py.truthy (repo_url t) = false -> verify_pages_deployment w t s = (Ok None, s).
Proof.
  unfold verify_pages_deployment. intros ->. reflexivity.
Qed.

Lemma bind_ok {A B} (c : M A) (k : A -> M B) s a s' :
  c s = (Ok a, s') -> bind c k s = k a s'.
Proof. unfold bind. now intros ->. Qed.

Lemma bind_raise {A B} (c : M A) (k : A -> M B) s m s' :
  c s = (Raise m, s') -> bind c k s = (Raise m, s').
Proof. unfold bind. now intros ->. Qed.

Lemma enter_run st s :
  enter st s
  = (Ok tt,
     mkPState (clock s) (set_status st (task s))
       (commits s ++ [set_status st (task s)])%list (calls s)).
Proof. reflexivity. Qed.

Lemma get_task_run s : get_task s = (Ok (task s), s).
Proof. reflexivity. Qed.

Lemma store_result_none set s : store_result None set s = (Ok tt, s).
Proof. reflexivity. Qed.

Lemma store_result_some v set s :
  v <> "" ->
  store_result (Some v) set s
  = (Ok tt,
     mkPState (clock s) (set v (task s)) (commits s ++ [set v (task s)])%list
       (calls s)).
Proof.
  intros H. unfold store_result. simpl.
  destruct (String.eqb_spec v "") as [E|_]; [contradiction|]. reflexivity.
Qed.

(** Each block of the [try] when nothing is there to provision. *)
Lemma generate_project_ok s :
  fs_write w (set_status "GENERATING_PROJECT" (task s)) = None ->
  generate_project w s
  = (Ok tt,
     mkPState (clock s) (set_status "GENERATING_PROJECT" (task s))
       (commits s ++ [set_status "GENERATING_PROJECT" (task s)])%list
       (calls s ++ [(clock s, FsWrite)])%list).
Proof.
  intros H. unfold generate_project.
  rewrite (bind_ok _ _ _ _ _ (enter_run _ _)).
  unfold write_project_files.
  rewrite (bind_ok _ _ _ _ _ (get_task_run _)).
  unfold bind, record. cbn [task clock commits calls]. now rewrite H.
Qed.

Lemma create_repo_no_token tok s :
  Py.truthy tok = false ->
  create_repo w tok s
  = (Ok None,
     mkPState (clock s) (set_status "CREATE_REPO" (task s))
       (commits s ++ [set_status "CREATE_REPO" (task s)])%list (calls s)).
Proof.
  intros H. unfold create_repo.
  rewrite (bind_ok _ _ _ _ _ (enter_run _ _)).
  rewrite (bind_ok _ _ _ _ _ (get_task_run _)).
  rewrite (bind_ok _ _ _ _ _ (create_github_repo_no_token _ _ _ H)).
  reflexivity.
Qed.

Lemma push_commit_nothing tok url s :
  Py.truthy url = false \/ Py.truthy tok = false ->
  push_commit w tok url s
  = (Ok tt,
     mkPState (clock s) (set_status "PUSH_COMMIT" (task s))
       (commits s ++ [set_status "PUSH_COMMIT" (task s)])%list (calls s)).
Proof.
  intros H. unfold push_commit.
  rewrite (bind_ok _ _ _ _ _ (enter_run _ _)).
  rewrite (bind_ok _ _ _ _ _ (get_task_run _)).
  rewrite (bind_ok _ _ _ _ _ (push_to_github_no_url _ _ _ _ _ H)).
  reflexivity.
Qed.

Lemma enable_pages_skipped tok s :
  Py.truthy tok = false \/ Py.truthy (repo_url (task s)) = false ->
  enable_pages w tok s
  = (Ok tt,
     mkPState (clock s) (set_status "ENABLE_PAGES" (task s))
       (commits s ++ [set_status "ENABLE_PAGES" (task s)])%list (calls s)).
Proof.
  intros H. unfold enable_pages.
  rewrite (bind_ok _ _ _ _ _ (enter_run _ _)).
  rewrite (bind_ok _ _ _ _ _ (get_task_run _)).
  now apply enable_github_pages_skipped.
Qed.

Lemma verify_pages_no_repo s :
  Py.truthy (repo_url (task s)) = false ->
  verify_pages w s
  = (Ok tt,
     mkPState (clock s) (set_status "VERIFY_PAGES" (task s))
       (commits s ++ [set_status "VERIFY_PAGES" (task s)])%list (calls s)).
Proof.
  intros H. unfold verify_pages.
  rewrite (bind_ok _ _ _ _ _ (enter_run _ _)).
  rewrite (bind_ok _ _ _ _ _ (get_task_run _)).
  rewrite (bind_ok _ _ _ _ _ (verify_pages_deployment_no_repo _ _ H)).
  reflexivity.
Qed.

Lemma notify_missing start s :
  Py.truthy (pages_url (task s)) = false \/ Py.truthy (repo_url (task s)) = false
  \/ Py.truthy (commit_sha (task s)) = false ->
  notify w start s
  = (Raise "Missing required fields for evaluation notification.",
     mkPState (clock s) (set_status "NOTIFY_EVALUATOR" (task s))
       (commits s ++ [set_status "NOTIFY_EVALUATOR" (task s)])%list (calls s)).
Proof.
  intros H. unfold notify.
  rewrite (bind_ok _ _ _ _ _ (enter_run _ _)).
  rewrite (bind_ok _ _ _ _ _ (get_task_run _)).
  now apply WorkerFacts.notify_evaluator_missing.
Qed.

(** X9: without a GitHub credential in the environment, a run on a row
    that has no [repo_url] provisions nothing: apart from writing the
    project files it calls no collaborator and takes no time; it goes
    through the six stages, writes no result column, and ends with the
    row FAILED for want of the fields the notifier requires. *)
Theorem run_without_credential (now : nat) (t : Task) :
  Py.truthy (GITHUB_TOKEN w) = false ->
  repo_url t = None ->
  (forall r, fs_write w r = None) ->
  let failed :=
    set_error_message "Missing required fields for evaluation notification."
      (set_status "FAILED" t) in
  run_task w now (mkPState now t [] [])
  = (Ok tt,
     mkPState now failed
       [set_status "GENERATING_PROJECT" t; set_status "CREATE_REPO" t;
        set_status "PUSH_COMMIT" t; set_status "ENABLE_PAGES" t;
        set_status "VERIFY_PAGES" t; set_status "NOTIFY_EVALUATOR" t; failed]
       [(now, FsWrite)]).
Proof.
  intros Htok Hrepo Hfs failed.
  assert (Py.truthy (repo_url t) = false) as Hr by (now rewrite Hrepo).
  unfold run_task, try_except, pipeline.
  rewrite (bind_ok _ _ _ _ _ (generate_project_ok _ (Hfs _))).
  rewrite (bind_ok _ _ _ _ _ (create_repo_no_token _ _ Htok)).
  rewrite (bind_ok _ _ _ _ _ (push_commit_nothing _ _ _ (or_intror Htok))).
  rewrite (bind_ok _ _ _ _ _ (enable_pages_skipped _ _ (or_introl Htok))).
  match goal with |- context [bind (verify_pages w) ?k ?s] =>
    rewrite (bind_ok _ k s _ _ (verify_pages_no_repo s Hr)) end.
  match goal with |- context [bind (notify w now) ?k ?s] =>
    rewrite (bind_raise _ k s _ _
               (notify_missing now s (or_intror (or_introl Hr)))) end.
  reflexivity.
Qed.

(** ** Pushing *)

Ltac peel x H P :=
  destruct x as [|? x];
  [ vm_compute in P; discriminate P
  | apply PyFacts.prefix_cons in P; destruct P as [? P];
    apply PyFacts.has_false_head in H; destruct H as [? H] ].

Lemma no_scheme_at_head (x : string) :
  Py.has ":" x = false -> String.prefix "https://" x = false.
Proof.
  intros H. destruct (String.prefix _ _) eqn:P; [|reflexivity]. exfalso.
  do 6 (peel x H P). congruence.
Qed.

Lemma replace_no_scheme (new x : string) :
  Py.has ":" x = false -> Py.replace_from "https://" new 0 x = x.
Proof.
  induction x as [|c x IH]; intros H; [reflexivity|].
  pose proof (no_scheme_at_head _ H) as N.
  apply PyFacts.has_false_head in H. destruct H as [_ H].
  cbn [Py.replace_from]. rewrite N, IH by exact H. reflexivity.
Qed.

Lemma replace_at_scheme (new rest : string) :
  Py.replace_from "https://" new 0 ("https://" ++ rest)
  = new ++ Py.replace_from "https://" new 0 rest.
Proof. cbn. rewrite PyFacts.prefix_nil. reflexivity. Qed.

(** The push URL: the token goes between the scheme and the host. *)
Lemma auth_repo_url_of (token rest : string) :
  Py.has ":" rest = false ->
  Py.replace ("https://" ++ rest) "https://" ("https://" ++ token ++ "@")
  = "https://" ++ token ++ "@" ++ rest.
Proof.
  intros H. unfold Py.replace.
  rewrite replace_at_scheme, replace_no_scheme by exact H.
  change (("https://" ++ token ++ "@") ++ rest)
    with ("https://" ++ ((token ++ "@") ++ rest)).
  now rewrite PyFacts.append_assoc.
Qed.

Definition newline : string := String (ascii_of_nat 10) "".

(** [s] is made of ASCII characters that are not white space, as a
    commit identifier is. *)
Fixpoint plain (s : string) : bool :=
  match s with
  | EmptyString => true
  | String c rest =>
      (nat_of_ascii c <? 128)%nat && negb (Py.is_space c) && plain rest
  end.

Lemma space_width_plain (c : ascii) (rest : string) :
  (nat_of_ascii c <? 128)%nat = true -> Py.is_space c = false ->
  Py.space_width (String c rest) = 0.
Proof.
  destruct c as [b0 b1 b2 b3 b4 b5 b6 [|]]; intros H1 H2.
  - exfalso. revert H1.
    destruct b0, b1, b2, b3, b4, b5, b6; vm_compute; discriminate.
  - unfold Py.space_width. rewrite H2.
    destruct b0, b1, b2, b3, b4, b5, b6; reflexivity.
Qed.

Lemma rstrip_line (x : string) :
  plain x = true -> Py.rstrip (x ++ newline) = x.
Proof.
  induction x as [|c x IH]; intros H; [reflexivity|].
  simpl in H. apply andb_true_iff in H. destruct H as [H Hx].
  apply andb_true_iff in H. destruct H as [Ha Hc].
  apply negb_true_iff in Hc.
  change (String c x ++ newline) with (String c (x ++ newline)).
  cbn [Py.rstrip Py.spaces_from].
  rewrite (space_width_plain c (x ++ newline) Ha Hc).
  now rewrite IH.
Qed.

(** What [git rev-parse HEAD] prints, a commit identifier and a line
    feed, is recorded without the line feed. *)
Lemma strip_line (x : string) :
  plain x = true -> Py.strip (x ++ newline) = x.
Proof.
  intros H. unfold Py.strip, Py.lstrip. destruct x as [|c x]; [reflexivity|].
  pose proof H as H'. simpl in H'. apply andb_true_iff in H'.
  destruct H' as [H' _]. apply andb_true_iff in H'. destruct H' as [Ha Hc].
  apply negb_true_iff in Hc.
  change (String c x ++ newline) with (String c (x ++ newline)).
  cbn [Py.lstrip_from].
  rewrite (space_width_plain c (x ++ newline) Ha Hc).
  change (String c (x ++ newline)) with (String c x ++ newline).
  now apply rstrip_line.
Qed.

Lemma push_to_github_run (t : Task) (lp token rest : string) (s : pstate) :
  token <> "" -> Py.has ":" rest = false ->
  let auth := "https://" ++ token ++ "@" ++ rest in
  let msg :=
    "chore: initial commit for " ++ task_name t ++ " (nonce: " ++ nonce t
    ++ ")" in
  push_to_github w t lp (Some ("https://" ++ rest)) (Some token) s
  = (Ok (option_map Py.strip (git_run w lp (email t) msg auth)),
     mkPState (clock s) (task s) (commits s)
       (calls s ++ [(clock s, GitPush lp auth)])%list).
Proof.
  intros Htok Hrest auth msg.
  unfold push_to_github.
  destruct (String.eqb_spec token "") as [E|_]; [contradiction|].
  change ("https://" ++ rest =? "") with false. cbn [orb].
  change (Py.startswith ("https://" ++ rest) "https://")
    with (String.prefix "" rest).
  rewrite PyFacts.prefix_nil, auth_repo_url_of by exact Hrest.
  fold auth. fold msg. unfold bind, record.
  destruct (git_run w lp (email t) msg auth); reflexivity.
Qed.

(** X10: given a token and an https URL, [push_to_github] runs git once,
    against the URL with the token inserted after the scheme, under the
    submitter's email and with a commit message naming the task and the
    nonce.  It never raises: when git fails it returns no commit
    identifier; when git succeeds it returns what [git rev-parse HEAD]
    printed, with the white space [str.strip()] removes (Unicode white
    space included) taken off both ends, so an identifier of plain
    ASCII followed by a line feed is returned as the identifier. *)
Theorem push_to_github_pushes (t : Task) (lp token rest : string) (s : pstate) :
  token <> "" -> Py.has ":" rest = false ->
  let auth := "https://" ++ token ++ "@" ++ rest in
  let msg :=
    "chore: initial commit for " ++ task_name t ++ " (nonce: " ++ nonce t
    ++ ")" in
  push_to_github w t lp (Some ("https://" ++ rest)) (Some token) s
  = (Ok (option_map Py.strip (git_run w lp (email t) msg auth)),
     mkPState (clock s) (task s) (commits s)
       (calls s ++ [(clock s, GitPush lp auth)])%list) /\
  forall sha, plain sha = true -> Py.strip (sha ++ newline) = sha.
Proof.
  intros Htok Hrest auth msg. split; [|apply strip_line].
  now apply push_to_github_run.
Qed.

(** ** Enabling and verifying the publication *)

(** The repository a clone URL names. *)
Lemma clone_url_full_name (owner repo : string) :
  Py.has "." owner = false -> Py.has "." repo = false ->
  repo_full_name_of ("https://github.com/" ++ owner ++ "/" ++ repo ++ ".git")
  = owner ++ "/" ++ repo.
Proof.
  intros H1 H2. unfold repo_full_name_of, Py.split.
  assert (Py.has "." (owner ++ "/" ++ repo) = false) as Hd.
  { rewrite !PyFacts.has_app, H1, H2. reflexivity. }
  rewrite PyFacts.split_clone_url.
  replace (owner ++ "/" ++ repo ++ ".git")
    with ((owner ++ "/" ++ repo) ++ ".git")
    by (now rewrite !PyFacts.append_assoc).
  rewrite PyFacts.split_host_whole by exact Hd.
  cbn [Py.last_piece last append].
  now apply PyFacts.replace_git_suffix.
Qed.

(** X11: for a row whose [repo_url] is the clone URL of [owner]/[repo],
    [enable_github_pages] turns publication on for the repository
    [owner/repo] (one call, whose failure it lets through), and does
    nothing at all when the token or the [repo_url] is missing; the
    site [verify_pages_deployment] then polls,
    https://owner.github.io/repo/, is the one of that repository. *)
Theorem pages_enabled_for_the_repository (t : Task) (token owner repo : string)
    (s : pstate) :
  Py.has "." owner = false -> Py.has "/" owner = false ->
  Py.has "." repo = false -> Py.has "/" repo = false ->
  repo_url t = Some ("https://github.com/" ++ owner ++ "/" ++ repo ++ ".git") ->
  token <> "" ->
  enable_github_pages w t (Some token) s
  = (match github_pages w token (owner ++ "/" ++ repo) with
     | None => Ok tt
     | Some m => Raise m
     end,
     mkPState (clock s) (task s) (commits s)
       (calls s ++ [(clock s, GithubPages (owner ++ "/" ++ repo))])%list) /\
  enable_github_pages w t None s = (Ok tt, s) /\
  (exists s',
     verify_pages_deployment w t s
     = (Ok (Some ("https://" ++ owner ++ ".github.io/" ++ repo ++ "/")), s')).
Proof.
  intros H1 H2 H3 H4 Hu Htok. split; [|split; [reflexivity|]].
  - unfold enable_github_pages. rewrite Hu.
    destruct (String.eqb_spec token "") as [E|_]; [contradiction|].
    change ("https://github.com/" ++ owner ++ "/" ++ repo ++ ".git" =? "")
      with false. cbn [orb].
    rewrite clone_url_full_name by assumption.
    unfold bind, record.
    destruct (github_pages w token (owner ++ "/" ++ repo)); reflexivity.
  - unfold verify_pages_deployment. rewrite Hu.
    change (negb (Py.truthy
              (Some ("https://github.com/" ++ owner ++ "/" ++ repo ++ ".git"))))
      with false. cbv iota. unfold repo_full_name_of.
    rewrite PyFacts.clone_url_names by assumption.
    destruct (WorkerFacts.poll_polled w timeout 0
                ("https://" ++ owner ++ ".github.io/" ++ repo ++ "/") s)
      as (s' & log & E & _); [lia|unfold timeout; lia|].
    exists s'. exact E.
Qed.

(** X12: the verifier polls only when it can name the site.  Without a
    [repo_url] it returns no URL at once; when what is left of the
    [repo_url] after the host and [.git] are removed does not split on
    the slash into exactly two parts, the unpacking raises its
    [ValueError] at once; in both cases no GET is made and no time
    passes. *)
Theorem verifier_needs_owner_and_repo (t : Task) (s : pstate) :
  (Py.truthy (repo_url t) = false ->
   verify_pages_deployment w t s = (Ok None, s)) /\
  (forall u parts,
     repo_url t = Some u -> u <> "" ->
     Py.split (repo_full_name_of u) "/" = parts -> List.length parts <> 2 ->
     verify_pages_deployment w t s
     = (Raise (unpack_error (List.length parts)), s)).
Proof.
  split; [apply verify_pages_deployment_no_repo|].
  intros u parts Hu Hne Hs Hl. unfold verify_pages_deployment.
  rewrite Hu. cbn [Py.truthy].
  destruct (String.eqb_spec u "") as [E|_]; [contradiction|]. cbn [negb].
  rewrite Hs. destruct parts as [|a [|b [|c l]]]; try reflexivity.
  simpl in Hl. congruence.
Qed.

Lemma poll_never_live fuel n url s :
  (forall now, is_200 (status_code (http_get w url now)) = false) ->
  n <= 30 -> 30 <= n + fuel ->
  exists s' log,
    poll w fuel (10 * n) url s = (Ok (Some url), s') /\
    task s' = task s /\ commits s' = commits s /\
    calls s' = (calls s ++ log)%list /\
    List.length (filter WorkerFacts.is_get log) = 30 - n /\
    list_sum (map WorkerFacts.slept log) = 10 * (30 - n) /\
    clock s + 10 * (30 - n) <= clock s'.
Proof.
  intros Hdown. revert n s. induction fuel as [|fuel IH]; intros n s Hn Hf.
  - assert (n = 30) as -> by lia. exists s, []%list. simpl.
    rewrite app_nil_r. repeat split; lia.
  - cbn [poll]. destruct (Nat.ltb_spec (10 * n) timeout) as [L|L].
    + unfold timeout in L. unfold bind at 1.
      rewrite WorkerFacts.requests_get_run, Hdown.
      unfold bind at 1. rewrite WorkerFacts.time_sleep_run.
      replace (10 * n + interval) with (10 * S n) by (unfold interval; lia).
      cbn [clock task commits calls].
      match goal with |- context [poll w fuel _ url ?st] =>
        destruct (IH (S n) st) as (s' & log & E & Ht & Hc & Hl & Hg & Hsl & Hk);
          [lia|lia|] end.
      cbn [clock task commits calls] in Ht, Hc, Hl, Hk.
      exists s', ((clock s, HttpGet url)
                  :: (clock s + took (http_get w url (clock s)), Sleep 10)
                  :: log)%list.
      split; [exact E|]. repeat split; auto.
      * rewrite Hl, <- !app_assoc. reflexivity.
      * change (S (List.length (filter WorkerFacts.is_get log)) = 30 - n). lia.
      * change (0 + (10 + list_sum (map WorkerFacts.slept log))
                = 10 * (30 - n)). lia.
      * unfold interval in *. lia.
    + unfold timeout in L. assert (n = 30) as -> by lia.
      exists s, []%list. rewrite app_nil_r. simpl. repeat split; lia.
Qed.

Lemma poll_first_live fuel url s :
  is_200 (status_code (http_get w url (clock s))) = true ->
  poll w (S fuel) 0 url s
  = (Ok (Some url),
     mkPState (clock s + took (http_get w url (clock s))) (task s)
       (commits s) (calls s ++ [(clock s, HttpGet url)])%list).
Proof.
  intros H. cbn [poll]. change (0 <? timeout)%nat with true. cbv iota.
  unfold bind at 1. rewrite WorkerFacts.requests_get_run, H. reflexivity.
Qed.

(** X13: when the site never answers 200, the verifier makes exactly
    thirty GETs, sleeps ten seconds after each (300 seconds in all, to
    which the duration of the GETs adds), and then returns the URL it
    computed; when the first GET is answered 200 it returns after that
    single GET, without sleeping. *)
Theorem verifier_deadline_and_first_success (t : Task) (u owner repo : string)
    (s : pstate) :
  repo_url t = Some u -> u <> "" ->
  Py.split (repo_full_name_of u) "/" = [owner; repo] ->
  let pages_url := "https://" ++ owner ++ ".github.io/" ++ repo ++ "/" in
  ((forall now, is_200 (status_code (http_get w pages_url now)) = false) ->
   exists s' log,
     verify_pages_deployment w t s = (Ok (Some pages_url), s') /\
     calls s' = (calls s ++ log)%list /\
     List.length (filter WorkerFacts.is_get log) = 30 /\
     list_sum (map WorkerFacts.slept log) = 300 /\
     clock s + 300 <= clock s') /\
  (is_200 (status_code (http_get w pages_url (clock s))) = true ->
   verify_pages_deployment w t s
   = (Ok (Some pages_url),
      mkPState (clock s + took (http_get w pages_url (clock s))) (task s)
        (commits s) (calls s ++ [(clock s, HttpGet pages_url)])%list)).
Proof.
  intros Hu Hne Hsplit pages_url.
  assert (verify_pages_deployment w t s = poll w timeout 0 pages_url s) as ->.
  { unfold verify_pages_deployment. rewrite Hu. cbn [Py.truthy].
    destruct (String.eqb_spec u "") as [E|_]; [contradiction|]. cbn [negb].
    now rewrite Hsplit. }
  split.
  - intros Hdown.
    destruct (poll_never_live timeout 0 pages_url s Hdown)
      as (s' & log & E & _ & _ & Hl & Hg & Hsl & Hk);
      [lia|unfold timeout; lia|].
    exists s', log. change (10 * 0) with 0 in E. repeat split; auto; lia.
  - intros Hlive. change timeout with (S 299).
    now apply poll_first_live.
Qed.

(** ** What a run writes *)

(** The columns that identify a row and carry the submission. *)
Definition same_columns (t c : Task) : Prop :=
  id c = id t /\ nonce c = nonce t /\ email c = email t /\
  task_name c = task_name t /\ round c = round t /\
  received_at c = received_at t /\ brief c = brief t /\
  evaluation_url c = evaluation_url t.

(** X14: whatever the collaborators do, no commit of a run changes the
    key, the nonce, the email, the task name, the round, the time of
    receipt, the brief or the callback URL of the row it loaded; the
    run commits at least once and its last commit is the row as the run
    leaves it. *)
Theorem run_keeps_columns (now : nat) (t : Task) :
  let s := snd (run_task w now (mkPState now t [] [])) in
  Forall (same_columns t) (commits s) /\
  exists earlier, commits s = (earlier ++ [task s])%list.
Proof.
  intros s.
  destruct (WorkerFacts.run_task_shape w (same_columns t))
    with (start := now) (s0 := mkPState now t [] []) as [_ Hs];
    try (unfold same_columns; simpl; tauto); auto.
  fold s in Hs.
  destruct Hs as [s6 (_ & _ & Hall & Hk) _ _ ->|k m sr (_ & _ & Hall & Hk) _ _ ->];
    simpl; (split; [|eexists; reflexivity]);
    (apply Forall_app; split; [exact Hall|]);
    (constructor; [exact Hk|constructor]).
Qed.

Definition written_in_order (t c : Task) : Prop :=
  error_message c = error_message t /\ completed_at c = completed_at t /\
  (repo_url t <> None -> repo_url c <> None) /\
  (commit_sha t <> None -> commit_sha c <> None) /\
  (pages_url t <> None -> pages_url c <> None).

(** X15: within a run, [error_message] is written by the FAILED commit
    only and [completed_at] by the COMPLETE commit only, and a result
    column that was set when the row was loaded is never cleared. *)
Theorem run_write_discipline (now : nat) (t : Task) :
  let s := snd (run_task w now (mkPState now t [] [])) in
  Forall
    (fun c =>
       (status c <> "FAILED" -> error_message c = error_message t) /\
       (status c <> "COMPLETE" -> completed_at c = completed_at t) /\
       (repo_url t <> None -> repo_url c <> None) /\
       (commit_sha t <> None -> commit_sha c <> None) /\
       (pages_url t <> None -> pages_url c <> None))
    (commits s).
Proof.
  intros s.
  destruct (WorkerFacts.run_task_shape w (written_in_order t))
    with (start := now) (s0 := mkPState now t [] []) as [_ Hs];
    try (unfold written_in_order; simpl; intuition congruence); auto.
  fold s in Hs.
  destruct Hs as [s6 (_ & _ & Hall & Hk) _ _ ->|k m sr (_ & _ & Hall & Hk) _ _ ->];
    simpl; apply Forall_app; split;
    try (eapply Forall_impl; [|exact Hall]; unfold written_in_order;
         simpl; intros; tauto);
    (constructor; [|constructor]); unfold written_in_order in Hk; simpl;
    intuition congruence.
Qed.

Lemma fold_update_last (i : nat) (cs : list Task) (final : Task) (db : Store.t) :
  Forall (fun c => id c = i) (cs ++ [final])%list ->
  fold_left (fun d row => Store.update row d) (cs ++ [final])%list db
  = map (fun r => if (id r =? i)%nat then final else r) db.
Proof.
  revert db. induction cs as [|c cs IH]; intros db H.
  - simpl. inversion H as [|? ? Hf _]; subst. reflexivity.
  - simpl in *. inversion H as [|? ? Hc Hrest]; subst.
    rewrite IH by exact Hrest. unfold Store.update. rewrite map_map.
    apply map_ext. intros r.
    destruct (id r =? id c)%nat eqn:E.
    + now rewrite Nat.eqb_refl.
    + now rewrite E.
Qed.

Lemma db_after_found (task_id : nat) (db : Store.t) (now : nat) (t : Task) :
  Store.first (fun r => (id r =? task_id)%nat) db = Some t ->
  let s := snd (run_task w now (mkPState now t [] [])) in
  db_after w task_id db now
  = map (fun row => if (id row =? task_id)%nat then task s else row) db /\
  id (task s) = task_id.
Proof.
  intros F s. unfold db_after, process_task. rewrite F.
  apply StoreFacts.first_some in F. destruct F as [_ Hid]. simpl in Hid.
  apply Nat.eqb_eq in Hid.
  destruct (WorkerFacts.run_task_shape w (fun c => id c = task_id))
    with (start := now) (s0 := mkPState now t [] []) as [_ Hs]; auto.
  fold s in Hs.
  destruct (run_task w now (mkPState now t [] [])) as [r s'] eqn:E.
  simpl in s. subst s. simpl in Hs.
  destruct Hs as [s6 (_ & _ & Hall & Hk) _ _ ->|k m sr (_ & _ & Hall & Hk) _ _ ->];
    simpl; (split; [|exact Hk]); apply fold_update_last;
    (apply Forall_app; split; [exact Hall|]);
    (constructor; [exact Hk|constructor]).
Qed.

(** X16: a run touches its own row and no other.  Once the commits of
    [process_task] for [task_id] are applied, the store is the store
    it started from with the row of key [task_id] replaced by the row
    as the run left it; every other row, and the order of the rows,
    is unchanged; and without such a row the store is as it was. *)
Theorem run_updates_only_its_row (task_id : nat) (db : Store.t) (now : nat) :
  match process_task w task_id db now with
  | Some (_, s) =>
      db_after w task_id db now
      = map (fun row => if (id row =? task_id)%nat then task s else row) db /\
      id (task s) = task_id
  | None => db_after w task_id db now = db
  end.
Proof.
  destruct (process_task w task_id db now) as [[r s]|] eqn:P.
  - unfold process_task in P.
    destruct (Store.first _ db) as [t|] eqn:F; [|discriminate].
    injection P as E.
    pose proof (db_after_found task_id db now t F) as H.
    rewrite E in H. exact H.
  - unfold db_after. now rewrite P.
Qed.

(** ** A repository that cannot be created *)

Lemma create_repo_refused token m s :
  token <> "" ->
  (forall name description, github_create_repo w token name description = inr m) ->
  create_repo w (Some token) s
  = (Raise m,
     mkPState (clock s) (set_status "CREATE_REPO" (task s))
       (commits s ++ [set_status "CREATE_REPO" (task s)])%list
       (calls s
        ++ [(clock s,
             GithubCreateRepo
               ("student-task-" ++ nonce (task s) ++ "-"
                ++ Py.str_int (round (task s)) ++ "-"
                ++ substring 0 6 (uuid4_hex w))
               ("Auto-generated repo for task " ++ task_name (task s)))])%list).
Proof.
  intros Hne Hrefused. unfold create_repo.
  rewrite (bind_ok _ _ _ _ _ (enter_run _ _)).
  rewrite (bind_ok _ _ _ _ _ (get_task_run _)).
  apply bind_raise. unfold create_github_repo.
  destruct (String.eqb_spec token "") as [E|_]; [contradiction|].
  unfold bind, record. rewrite Hrefused. reflexivity.
Qed.

(** X19: when the hosting provider refuses to create the repository,
    the run stops in CREATE_REPO: the one call made after the files are
    written is the creation of a public repository named
    student-task-<nonce>-<round>-<six hex digits>; nothing is pushed,
    enabled, polled or posted; no result column is written; and the
    row is committed FAILED with the provider's description. *)
Theorem refused_repository_fails_the_run (now : nat) (t : Task)
    (token m : string) :
  GITHUB_TOKEN w = Some token -> token <> "" ->
  (forall r, fs_write w r = None) ->
  (forall name description, github_create_repo w token name description = inr m) ->
  let failed := set_error_message m (set_status "FAILED" t) in
  run_task w now (mkPState now t [] [])
  = (Ok tt,
     mkPState now failed
       [set_status "GENERATING_PROJECT" t; set_status "CREATE_REPO" t; failed]
       [(now, FsWrite);
        (now,
         GithubCreateRepo
           ("student-task-" ++ nonce t ++ "-" ++ Py.str_int (round t) ++ "-"
            ++ substring 0 6 (uuid4_hex w))
           ("Auto-generated repo for task " ++ task_name t))]).
Proof.
  intros Htok Hne Hfs Hrefused failed.
  unfold run_task, try_except, pipeline. rewrite Htok.
  rewrite (bind_ok _ _ _ _ _ (generate_project_ok _ (Hfs _))).
  rewrite (bind_raise _ _ _ _ _ (create_repo_refused _ _ _ Hne Hrefused)).
  reflexivity.
Qed.

(** ** The run that completes *)

Section Completes.

Variables (token owner repo out callback : string).

Let clone : string := "https://github.com/" ++ owner ++ "/" ++ repo ++ ".git".
Let pages : string := "https://" ++ owner ++ ".github.io/" ++ repo ++ "/".
Let sha : string := Py.strip out.

Hypothesis token_set : GITHUB_TOKEN w = Some token /\ token <> "".
Hypothesis names_plain :
  Py.has "." owner = false /\ Py.has "/" owner = false /\
  Py.has ":" owner = false /\ Py.has "." repo = false /\
  Py.has "/" repo = false /\ Py.has ":" repo = false.
Hypothesis files_written : forall r, fs_write w r = None.
Hypothesis repo_created :
  forall name description, github_create_repo w token name description = inl clone.
Hypothesis pushed :
  forall lp author msg url, git_run w lp author msg url = Some out.
Hypothesis sha_printed : sha <> "".
Hypothesis pages_enabled : forall name, github_pages w token name = None.
Hypothesis payload_valid : forall p, pydantic_error w p = None.
Hypothesis evaluator_up :
  forall url p now, is_200 (status_code (http_post w url p now)) = true.

Lemma clone_nonempty : clone <> "".
Proof. discriminate. Qed.

Lemma pages_nonempty : pages <> "".
Proof. discriminate. Qed.

Lemma create_github_repo_created t s :
  exists name description,
    create_github_repo w t (Some token) s
    = (Ok (Some clone),
       mkPState (clock s) (task s) (commits s)
         (calls s ++ [(clock s, GithubCreateRepo name description)])%list).
Proof.
  destruct token_set as [_ Hne].
  eexists _, _. unfold create_github_repo.
  destruct (String.eqb_spec token "") as [E|_]; [contradiction|].
  unfold bind, record. rewrite repo_created. reflexivity.
Qed.

Lemma create_repo_created s :
  exists log,
    create_repo w (Some token) s
    = (Ok (Some clone),
       mkPState (clock s) (set_repo_url clone (set_status "CREATE_REPO" (task s)))
         (commits s
          ++ [set_status "CREATE_REPO" (task s);
              set_repo_url clone (set_status "CREATE_REPO" (task s))])%list
         (calls s ++ log)%list).
Proof.
  unfold create_repo.
  rewrite (bind_ok _ _ _ _ _ (enter_run _ _)).
  rewrite (bind_ok _ _ _ _ _ (get_task_run _)).
  match goal with |- context [bind (create_github_repo w ?t _) _ ?s1] =>
    destruct (create_github_repo_created t s1) as (name & description & E) end.
  rewrite (bind_ok _ _ _ _ _ E).
  rewrite (bind_ok _ _ _ _ _ (store_result_some _ _ _ clone_nonempty)).
  eexists. unfold ret. cbn [clock task commits calls].
  rewrite <- app_assoc. reflexivity.
Qed.

Lemma push_commit_pushed s :
  exists log,
    push_commit w (Some token) (Some clone) s
    = (Ok tt,
       mkPState (clock s) (set_commit_sha sha (set_status "PUSH_COMMIT" (task s)))
         (commits s
          ++ [set_status "PUSH_COMMIT" (task s);
              set_commit_sha sha (set_status "PUSH_COMMIT" (task s))])%list
         (calls s ++ log)%list).
Proof.
  destruct token_set as [_ Hne].
  destruct names_plain as (_ & _ & H3 & _ & _ & H6).
  eexists. unfold push_commit.
  rewrite (bind_ok _ _ _ _ _ (enter_run _ _)).
  rewrite (bind_ok _ _ _ _ _ (get_task_run _)).
  erewrite bind_ok; cycle 1.
  { apply (push_to_github_run _ _ token
             ("github.com/" ++ owner ++ "/" ++ repo ++ ".git")); [exact Hne|].
    change ("github.com/" ++ owner ++ "/" ++ repo ++ ".git")
      with ("github.com/" ++ (owner ++ "/" ++ repo ++ ".git")).
    rewrite !PyFacts.has_app, H3, H6. reflexivity. }
  rewrite pushed. cbn [option_map]. fold sha.
  rewrite (store_result_some _ _ _ sha_printed).
  cbn [clock task commits calls]. rewrite <- app_assoc. reflexivity.
Qed.

Lemma enable_pages_enabled s :
  repo_url (task s) = Some clone ->
  exists log,
    enable_pages w (Some token) s
    = (Ok tt,
       mkPState (clock s) (set_status "ENABLE_PAGES" (task s))
         (commits s ++ [set_status "ENABLE_PAGES" (task s)])%list
         (calls s ++ log)%list).
Proof.
  destruct token_set as [_ Hne]. intros Hu.
  eexists. unfold enable_pages.
  rewrite (bind_ok _ _ _ _ _ (enter_run _ _)).
  rewrite (bind_ok _ _ _ _ _ (get_task_run _)).
  unfold enable_github_pages. cbn [task repo_url set_status]. rewrite Hu.
  destruct (String.eqb_spec token "") as [E|_]; [contradiction|].
  change (clone =? "") with false. cbn [orb].
  unfold bind, record. rewrite pages_enabled. reflexivity.
Qed.

Lemma verify_pages_verified s :
  repo_url (task s) = Some clone ->
  exists s',
    verify_pages w s = (Ok tt, s') /\
    task s' = set_pages_url pages (set_status "VERIFY_PAGES" (task s)) /\
    commits s'
    = (commits s
       ++ [set_status "VERIFY_PAGES" (task s);
           set_pages_url pages (set_status "VERIFY_PAGES" (task s))])%list.
Proof.
  destruct names_plain as (H1 & H2 & _ & H4 & H5 & _). intros Hu.
  unfold verify_pages.
  rewrite (bind_ok _ _ _ _ _ (enter_run _ _)).
  rewrite (bind_ok _ _ _ _ _ (get_task_run _)).
  cbn [task].
  set (s1 := mkPState _ _ _ _).
  assert (verify_pages_deployment w (set_status "VERIFY_PAGES" (task s)) s1
          = poll w timeout 0 pages s1) as Hv.
  { unfold verify_pages_deployment. cbn [repo_url set_status]. rewrite Hu.
    change (negb (Py.truthy (Some clone))) with false. cbv iota.
    unfold repo_full_name_of, clone.
    now rewrite (PyFacts.clone_url_names owner repo). }
  destruct (WorkerFacts.poll_polled w timeout 0 pages s1)
    as (s2 & log & E & _); [lia|unfold timeout; lia|].
  change (10 * 0) with 0 in E.
  destruct (WorkerFacts.frames_poll w timeout 0 pages s1) as [Ft Fc].
  rewrite E in Ft, Fc. cbn [snd] in Ft, Fc.
  rewrite (bind_ok _ _ _ _ _ (eq_trans Hv E)).
  rewrite (store_result_some _ _ _ pages_nonempty).
  eexists. split; [reflexivity|]. cbn [task commits]. rewrite Ft, Fc.
  subst s1. cbn [task commits]. rewrite <- app_assoc. split; reflexivity.
Qed.

Lemma notify_notified start s r c :
  repo_url (task s) = Some r -> r <> "" ->
  commit_sha (task s) = Some c -> c <> "" ->
  pages_url (task s) = Some pages ->
  evaluation_url (task s) = Some callback -> callback <> "" ->
  exists s',
    notify w start s = (Ok tt, s') /\
    task s' = set_status "NOTIFY_EVALUATOR" (task s) /\
    commits s' = (commits s ++ [set_status "NOTIFY_EVALUATOR" (task s)])%list /\
    calls s'
    = (calls s
       ++ [(clock s,
            HttpPost callback
              (pydantic_dict w
                 (mkEvaluationPayload (email (task s)) (task_name (task s))
                    (round (task s)) (nonce (task s)) r c (Some pages))))])%list.
Proof.
  intros Hr Hrn Hc Hcn Hp Hu Hun. unfold notify.
  rewrite (bind_ok _ _ _ _ _ (enter_run _ _)).
  rewrite (bind_ok _ _ _ _ _ (get_task_run _)).
  cbn [task]. set (s1 := mkPState _ _ _ _).
  set (t1 := set_status "NOTIFY_EVALUATOR" (task s)).
  assert (RetryFacts.ready t1 callback
            (mkEvaluationPayload (email (task s)) (task_name (task s))
               (round (task s)) (nonce (task s)) r c (Some pages))) as Hready.
  { unfold RetryFacts.ready, WorkerFacts.callback_of. subst t1.
    cbn [pages_url repo_url commit_sha evaluation_url set_status email
         task_name round nonce].
    rewrite Hr, Hc, Hp, Hu. cbn [Py.truthy].
    destruct (String.eqb_spec r "") as [E|_]; [contradiction|].
    destruct (String.eqb_spec c "") as [E|_]; [contradiction|].
    destruct (String.eqb_spec callback "") as [E|_]; [contradiction|].
    change (pages =? "") with false. cbn [negb].
    repeat split. exists r, c. auto. }
  rewrite (RetryFacts.notify_evaluator_ready w _ _ _ _ _ Hready), payload_valid.
  unfold try_except, post_with_retry. unfold bind at 1, time_time.
  cbv iota beta. unfold retry_fuel. cbn [retrying]. unfold bind at 1.
  rewrite WorkerFacts.requests_post_run, evaluator_up.
  eexists. split; [reflexivity|]. subst s1. cbn [task commits calls clock].
  repeat split.
Qed.


End Completes.

End WithWorld.

Lemma run_without_credential_witness :
  status (task (snd (run_task Scenario.offline 10
                       (mkPState 10 Scenario.row_a [] []))))
  = "FAILED" /\
  calls (snd (run_task Scenario.offline 10 (mkPState 10 Scenario.row_a [] [])))
  = [(10, FsWrite)].
Proof.
  rewrite (run_without_credential Scenario.offline 10 Scenario.row_a).
  - split; reflexivity.
  - reflexivity.
  - reflexivity.
  - intros r. reflexivity.
Defined.

Lemma push_to_github_pushes_witness :
  push_to_github Scenario.friendly Scenario.row_a "/tmp/tmpabc"
    (Some "https://github.com/alice/site.git") (Some "ghp_token")
    (mkPState 10 Scenario.row_a [] [])
  = (Ok (Some "0a1b2c3"),
     mkPState 10 Scenario.row_a []
       [(10, GitPush "/tmp/tmpabc"
               "https://ghp_token@github.com/alice/site.git")]).
Proof.
  destruct (push_to_github_pushes Scenario.friendly Scenario.row_a
              "/tmp/tmpabc" "ghp_token" "github.com/alice/site.git"
              (mkPState 10 Scenario.row_a [] [])) as [H _].
  - discriminate.
  - reflexivity.
  - exact H.
Defined.

Lemma pages_enabled_for_the_repository_witness :
  enable_github_pages More.all_good More.row_site (Some "ghp_token")
    (mkPState 10 More.row_site [] [])
  = (Ok tt, mkPState 10 More.row_site [] [(10, GithubPages "alice/site")]).
Proof.
  refine (proj1 (pages_enabled_for_the_repository More.all_good More.row_site
                   "ghp_token" "alice" "site" (mkPState 10 More.row_site [] [])
                   _ _ _ _ _ _)); try reflexivity.
  discriminate.
Defined.

Lemma verifier_needs_owner_and_repo_witness :
  verify_pages_deployment More.all_good More.row_deep_url
    (mkPState 10 More.row_deep_url [] [])
  = (Raise "too many values to unpack (expected 2)",
     mkPState 10 More.row_deep_url [] []).
Proof.
  destruct (verifier_needs_owner_and_repo More.all_good More.row_deep_url
              (mkPState 10 More.row_deep_url [] [])) as [_ H].
  apply (H "https://github.com/alice/site/extra.git" ["alice"; "site"; "extra"]).
  - reflexivity.
  - discriminate.
  - vm_compute. reflexivity.
  - discriminate.
Defined.

Lemma verifier_deadline_and_first_success_witness :
  exists s' log,
    verify_pages_deployment More.all_good More.row_site
      (mkPState 10 More.row_site [] [])
    = (Ok (Some "https://alice.github.io/site/"), s') /\
    calls s' = log /\ List.length (filter WorkerFacts.is_get log) = 30 /\
    310 <= clock s'.
Proof.
  destruct (verifier_deadline_and_first_success More.all_good More.row_site
              "https://github.com/alice/site.git" "alice" "site"
              (mkPState 10 More.row_site [] [])) as [H _].
  - reflexivity.
  - discriminate.
  - vm_compute. reflexivity.
  - destruct H as (s' & log & E & C & G & _ & K); [intros now; reflexivity|].
    exists s', log. auto.
Defined.


Lemma refused_repository_fails_the_run_witness :
  map status
    (commits (snd (run_task More.repo_refused 10
                     (mkPState 10 Scenario.row_a [] []))))
  = ["GENERATING_PROJECT"; "CREATE_REPO"; "FAILED"].
Proof.
  rewrite (refused_repository_fails_the_run More.repo_refused 10 Scenario.row_a
             "ghp_token" "422 name already exists on this account").
  - reflexivity.
  - reflexivity.
  - discriminate.
  - intros r. reflexivity.
  - intros name description. reflexivity.
Defined.

End RunFacts.

(* ------------------------------------------------------------------ *)
(** * The generated files *)

Module FilesFacts.

Import Files.

Lemma append_cancel_l (a x y : string) : a ++ x = a ++ y -> x = y.
Proof.
  induction a as [|c a IH]; simpl; intros H; [exact H|].
  injection H as H. auto.
Qed.

Lemma length_append (a b : string) :
  String.length (a ++ b) = String.length a + String.length b.
Proof. induction a as [|c a IH]; simpl; [reflexivity|now rewrite IH]. Qed.

Lemma append_cancel_r (c x y : string) : x ++ c = y ++ c -> x = y.
Proof.
  revert y. induction x as [|a x IH]; intros [|b y] H; simpl in H.
  - reflexivity.
  - apply (f_equal String.length) in H. simpl in H.
    rewrite length_append in H. lia.
  - apply (f_equal String.length) in H. simpl in H.
    rewrite length_append in H. lia.
  - injection H as -> H. f_equal. auto.
Qed.

Lemma path_join_inj (dir x y : string) :
  path_join dir x = path_join dir y -> x = y.
Proof.
  unfold path_join. destruct (dir =? ""); [auto|].
  destruct (ends_with_slash dir); intros H; apply append_cancel_l in H;
    [exact H|]. now apply (append_cancel_l "/") in H.
Qed.

Lemma path_join_plain (dir name : string) :
  dir <> "" -> ends_with_slash dir = false ->
  path_join dir name = dir ++ "/" ++ name.
Proof.
  intros Hne Hs. unfold path_join.
  destruct (String.eqb_spec dir "") as [E|_]; [contradiction|].
  now rewrite Hs.
Qed.

(** X18: what [generate_project_files] writes is determined by, and
    determines, three things: the brief of the row (a missing brief
    counting as the empty one), its nonce and its email.  Two rows get
    the same files exactly when they agree on the three; no other
    column reaches the files.  The three files, index.html, README.md
    and LICENSE, have distinct paths in every target directory, so
    none overwrites another; under a directory given without a trailing
    slash they are its direct entries. *)
Theorem project_files_determine_their_inputs (t t' : Task) (dir : string) :
  (generate_project_files t dir = generate_project_files t' dir <->
   brief_or_empty t = brief_or_empty t' /\ nonce t = nonce t' /\
   email t = email t') /\
  NoDup (map fst (generate_project_files t dir)) /\
  (dir <> "" -> ends_with_slash dir = false ->
   map fst (generate_project_files t dir)
   = [dir ++ "/index.html"; dir ++ "/README.md"; dir ++ "/LICENSE"]).
Proof.
  split; [|split].
  - split.
    + intros H. unfold generate_project_files in H.
      injection H as H1 H2 H3.
      apply append_cancel_r in H1.
      rewrite H1 in H2. apply append_cancel_l in H2. injection H2 as H2.
      apply append_cancel_r in H3. auto.
    + intros (Hb & Hn & He). unfold generate_project_files.
      now rewrite Hb, Hn, He.
  - unfold generate_project_files. cbn [map fst].
    repeat constructor; simpl; intros H;
      repeat (destruct H as [H|H]; [apply path_join_inj in H; discriminate|]);
      exact H.
  - intros Hne Hs. unfold generate_project_files. cbn [map fst].
    now rewrite !path_join_plain.
Qed.

Lemma project_files_determine_their_inputs_witness :
  map fst (generate_project_files Scenario.row_a "/tmp/tmpabc")
  = ["/tmp/tmpabc/index.html"; "/tmp/tmpabc/README.md"; "/tmp/tmpabc/LICENSE"].
Proof.
  apply (project_files_determine_their_inputs Scenario.row_a Scenario.row_a
           "/tmp/tmpabc").
  - discriminate.
  - reflexivity.
Defined.

End FilesFacts.

(* ------------------------------------------------------------------ *)
(** * More from the intake to the notifier *)

Module IntakeToRun.

Import Worker.

(** X20: no row created by the intake can be completed.  Whatever the
    request and whatever the collaborators do, a run on a row the
    endpoint has just inserted ends with that row FAILED, and COMPLETE
    is not among the statuses it commits: the row has no callback URL
    and no error message, so the notifier raises if the run gets that
    far. *)
Theorem intake_rows_never_complete secret now request db sent r db' sent' row :
  Intake.api_endpoint secret now request db sent = (r, db', sent') ->
  In row db' -> ~ In row db ->
  forall w start,
    let s := snd (run_task w start (mkPState start row [] [])) in
    status (task s) = "FAILED" /\
    ~ In "COMPLETE" (map status (commits s)).
Proof.
  intros H Hin Hnot w start s.
  destruct (IntakeFacts.api_endpoint_new_row _ _ _ _ _ _ _ _ _ H Hin Hnot)
    as (_ & _ & _ & _ & Hb & Hu & He).
  assert (EndToEnd.bare row) as B by (unfold EndToEnd.bare; auto).
  destruct (EndToEnd.run_keeps_bare w start row B) as [_ Hf].
  split; [exact Hf|].
  destruct (WorkerFacts.run_task_shape_any w start (mkPState start row [] [])
              eq_refl) as [_ Hs].
  fold s in Hs, Hf.
  destruct Hs as [s6 _ _ _ E|k m sr (U & _) _ _ E].
  - rewrite E in Hf. discriminate.
  - rewrite E. simpl. rewrite map_app, in_app_iff. simpl.
    intros [Hc|[Hc|[]]]; [|discriminate].
    pose proof (WorkerFacts.upto_bounds _ _ U) as Bd.
    rewrite Forall_forall in Bd. destruct (Bd _ Hc) as [T _]. discriminate.
Qed.

Lemma intake_rows_never_complete_witness :
  status
    (task (snd (run_task Scenario.friendly 20
                  (mkPState 20 Scenario.row_a [] []))))
  = "FAILED".
Proof.
  assert (Intake.api_endpoint Scenario.secret 10 Scenario.request_a [] []
          = (Intake.Ack (mkAck "RECEIVED" "portfolio" "n-001"),
             [Scenario.row_a], [1])) as H1 by reflexivity.
  assert (In Scenario.row_a [Scenario.row_a]) as H2 by (simpl; auto).
  assert (~ In Scenario.row_a []) as H3 by (simpl; tauto).
  exact (proj1 (intake_rows_never_complete _ _ _ _ _ _ _ _ _ H1 H2 H3
                  Scenario.friendly 20)).
Defined.

End IntakeToRun.

(* ------------------------------------------------------------------ *)
(** * The service as a whole: submissions and runs *)

Module Service.

Section WithConfig.

Variable EXPECTED_SECRET : option string.
Variable w : Worker.World.

(** The store, and the broker's queue of the messages [send_task] has
    put there and no worker has taken yet. *)
Record state : Type := mkState {
  svc_db : Store.t;
  svc_queue : list nat
}.

Definition initial : state := mkState [] [].

(** What happens to the service, one thing at a time: a submission is
    handled by [api_endpoint], or the message at position [i] of the
    queue is taken by a worker, which runs [process_task] on it to its
    end.  A message is taken once. *)
Inductive event : Type :=
| Submit (now : nat) (request : TaskRequest)
| Deliver (i now : nat).

Definition remove_nth {A : Type} (i : nat) (l : list A) : list A :=
  (firstn i l ++ skipn (S i) l)%list.

Definition play1 (s : state) (e : event) : state :=
  match e with
  | Submit now request =>
      let '(_, db', queue') :=
        Intake.api_endpoint EXPECTED_SECRET now request (svc_db s)
          (svc_queue s) in
      mkState db' queue'
  | Deliver i now =>
      match nth_error (svc_queue s) i with
      | Some task_id =>
          mkState (Worker.db_after w task_id (svc_db s) now)
            (remove_nth i (svc_queue s))
      | None => s
      end
  end.

Definition play (es : list event) (s : state) : state := fold_left play1 es s.

(** What holds between any two events. *)
Record inv (s : state) : Prop := mkInv {
  inv_ids : NoDup (Store.ids (svc_db s));
  inv_queue : NoDup (svc_queue s);
  inv_known : forall i, In i (svc_queue s) -> In i (Store.ids (svc_db s));
  inv_rows :
    forall row, In row (svc_db s) ->
      (In (id row) (svc_queue s) ->
       status row = "RECEIVED" /\ EndToEnd.bare row) /\
      (~ In (id row) (svc_queue s) -> status row = "FAILED")
}.

Lemma submit_cases now request db queue r db' queue' :
  Intake.api_endpoint EXPECTED_SECRET now request db queue = (r, db', queue') ->
  (db' = db /\ queue' = queue) \/
  (exists row,
     db' = (db ++ [row])%list /\ queue' = (queue ++ [id row])%list /\
     id row = Store.next_id db /\ status row = "RECEIVED" /\
     EndToEnd.bare row).
Proof.
  unfold Intake.api_endpoint. intros H.
  destruct (Intake.secret_mismatch _ _); [injection H as _ <- <-; now left|].
  destruct (Store.first (Intake.is_complete_for request) db);
    [injection H as _ <- <-; now left|].
  destruct (Store.insert now (Intake.new_task_of request) db) as [db1 row|]
    eqn:Ins.
  - injection H as _ <- <-. right. exists row.
    apply StoreFacts.insert_inserted in Ins.
    destruct Ins as (-> & Hid & _ & _ & Hs & Hb & Hu & He).
    unfold EndToEnd.bare. simpl in *. auto 10.
  - destruct (Store.first (Intake.is_row_for request) db);
      injection H as _ <- <-; now left.
Qed.

Lemma remove_nth_split {A : Type} (l1 l2 : list A) (a : A) :
  remove_nth (List.length l1) (l1 ++ a :: l2)%list = (l1 ++ l2)%list.
Proof.
  unfold remove_nth. induction l1 as [|x l1 IH]; simpl; [reflexivity|].
  f_equal. exact IH.
Qed.

Lemma inv_at_start : inv initial.
Proof.
  constructor; simpl; try constructor; intros; contradiction.
Qed.

Lemma inv_submit s now request : inv s -> inv (play1 s (Submit now request)).
Proof.
  intros [Hi Hq Hk Hr]. simpl.
  destruct (Intake.api_endpoint _ _ _ _ _) as [[r db'] queue'] eqn:E.
  apply submit_cases in E.
  destruct E as [[-> ->]|(row & -> & -> & Hid & Hs & Hb)];
    [now constructor|].
  assert (~ In (id row) (Store.ids (svc_db s))) as Hfresh
    by (rewrite Hid; apply StoreFacts.next_id_fresh).
  constructor; simpl.
  - unfold Store.ids. rewrite map_app. simpl.
    now apply StoreFacts.NoDup_snoc.
  - apply StoreFacts.NoDup_snoc; auto.
  - intros i Hin. unfold Store.ids. rewrite map_app. simpl.
    apply in_app_iff. apply in_app_iff in Hin.
    destruct Hin as [Hin|[<-|[]]]; [left; auto|right; simpl; auto].
  - intros r0 Hin. apply in_app_iff in Hin.
    destruct Hin as [Hin|[<-|[]]].
    + assert (id r0 <> id row) as Hne.
      { intros E. apply Hfresh. rewrite <- E. unfold Store.ids.
        now apply in_map. }
      destruct (Hr r0 Hin) as [H1 H2]. split.
      * intros Hq'. apply H1. apply in_app_iff in Hq'.
        destruct Hq' as [Hq'|[Hq'|[]]]; [exact Hq'|congruence].
      * intros Hq'. apply H2. intros Hq''. apply Hq'.
        apply in_app_iff. now left.
    + split; [auto|]. intros Hq'. exfalso. apply Hq'.
      apply in_app_iff. right. simpl. auto.
Qed.

Lemma inv_deliver s i now : inv s -> inv (play1 s (Deliver i now)).
Proof.
  intros I. pose proof I as [Hi Hq Hk Hr]. simpl.
  destruct (nth_error (svc_queue s) i) as [task_id|] eqn:N; [|exact I].
  apply nth_error_split in N. destruct N as (l1 & l2 & Eq & <-).
  rewrite Eq, remove_nth_split.
  assert (In task_id (svc_queue s)) as Hin
    by (rewrite Eq; apply in_app_iff; right; simpl; auto).
  assert (~ In task_id (l1 ++ l2)%list) as Hout
    by (rewrite Eq in Hq; now apply NoDup_remove_2 in Hq).
  pose proof (Hk _ Hin) as Hrow. unfold Store.ids in Hrow.
  apply in_map_iff in Hrow. destruct Hrow as (t0 & Ht0 & Hin0).
  destruct (IntakeFacts.first_exists (fun r => (id r =? task_id)%nat)
              (svc_db s) t0 Hin0) as (t & F & Ht).
  { rewrite Ht0. apply Nat.eqb_refl. }
  destruct (RunFacts.db_after_found w task_id (svc_db s) now t F)
    as [-> Hidf].
  pose proof (StoreFacts.first_some _ _ _ F) as [Hint _].
  apply Nat.eqb_eq in Ht.
  destruct (Hr t Hint) as [Hbare _]. rewrite Ht in Hbare.
  destruct (Hbare Hin) as [_ B].
  destruct (EndToEnd.run_keeps_bare w now t B) as [_ Hfailed].
  set (final := Worker.task (snd (Worker.run_task w now
                             (Worker.mkPState now t [] [])))) in *.
  assert (Store.ids
            (map (fun row => if (id row =? task_id)%nat then final else row)
               (svc_db s))
          = Store.ids (svc_db s)) as Hids.
  { unfold Store.ids. rewrite map_map. apply map_ext. intros r.
    destruct (Nat.eqb_spec (id r) task_id); congruence. }
  constructor; simpl.
  - now rewrite Hids.
  - rewrite Eq in Hq. now apply NoDup_remove_1 in Hq.
  - intros j Hj. rewrite Hids. apply Hk. rewrite Eq.
    apply in_app_iff. apply in_app_iff in Hj. simpl. tauto.
  - intros r Hinr. apply in_map_iff in Hinr.
    destruct Hinr as (r0 & <- & Hin1).
    destruct (Nat.eqb_spec (id r0) task_id) as [E|E].
    + rewrite Hidf. split; [intros Hc; contradiction|auto].
    + destruct (Hr r0 Hin1) as [H1 H2]. rewrite Eq in H1, H2. split.
      * intros Hc. apply H1. apply in_app_iff. apply in_app_iff in Hc.
        simpl. tauto.
      * intros Hc. apply H2. intros Hc'. apply Hc.
        apply in_app_iff. apply in_app_iff in Hc'. simpl in Hc'.
        destruct Hc' as [Hc'|[Hc'|Hc']]; [now left|congruence|now right].
Qed.

Lemma inv_play es s : inv s -> inv (play es s).
Proof.
  revert s. induction es as [|e es IH]; intros s I; [exact I|].
  simpl. apply IH. destruct e; [apply inv_submit|apply inv_deliver]; exact I.
Qed.

(** X21: the service never completes a task.  Under any sequence of
    submissions and of runs, served one at a time and each message
    being taken once, every stored row is RECEIVED while the message
    for it waits in the queue and FAILED once its run is over: the
    endpoint stores no callback URL, so the one run a row ever gets
    ends at the notifier at the latest.  No row is ever COMPLETE, and
    no key is queued twice. *)
Theorem service_never_completes (es : list event) :
  let s := play es initial in
  NoDup (svc_queue s) /\
  forall row, In row (svc_db s) ->
    status row <> "COMPLETE" /\
    ((In (id row) (svc_queue s) /\ status row = "RECEIVED") \/
     (~ In (id row) (svc_queue s) /\ status row = "FAILED")).
Proof.
  intros s. destruct (inv_play es initial inv_at_start) as [_ Hq _ Hr].
  fold s in Hq, Hr. split; [exact Hq|].
  intros row Hin. destruct (Hr row Hin) as [H1 H2].
  destruct (in_dec Nat.eq_dec (id row) (svc_queue s)) as [Hi|Hi].
  - destruct (H1 Hi) as [E _]. rewrite E. split; [discriminate|now left].
  - rewrite (H2 Hi). split; [discriminate|now right].
Qed.

End WithConfig.

(** Scenario A submitted twice and run once, with collaborators that
    all work: one row, FAILED, and nothing left in the queue. *)
Lemma scenario_a_served :
  let s := play Scenario.secret More.all_good
             [Submit 10 Scenario.request_a; Submit 11 Scenario.request_a;
              Deliver 0 20; Submit 400 Scenario.request_a]
             initial in
  map status (svc_db s) = ["FAILED"] /\
  map error_message (svc_db s) = [Some "No evaluation_url found for task."] /\
  svc_queue s = [].
Proof. vm_compute. repeat split. Qed.

End Service.
